(** * ghgdash: chart construction (components/graphs.py)

    A shallow embedding of [make_layout], [PredictionGraphSeries] and
    [PredictionGraph] together with the properties of trace construction,
    colour derivation, tick thinning and layout assembly.

    Conventions of the embedding:
    - Python exceptions are values of [exn]; a function that may raise
      returns a [result].
    - [None]-able attributes are [option]s; Python truthiness is written out
      ([truthy_str], [truthy_float]).
    - A pandas [DataFrame] is an integer (year) index plus an ordered list of
      named columns of equal length; a [Series] pairs index labels with
      values; [NaN] is the cell [CNaN].
    - Floats are exact rationals ([Q]); rounding is not modelled.
    - Index labels are years, numpy [int64] values, written as [Z]; the one
      arithmetic operation on them, [max_year + 1], wraps around
      ([int64_add]). *)

From Stdlib Require Import ZArith QArith String List Lia Lqa.
From stdpp Require Import base option list gmap strings pretty sorting.

Set Warnings "-register-all".

Open Scope string_scope.
Open Scope list_scope.
Open Scope Z_scope.

(** ** Python values, exceptions and dictionaries *)

Module Py.

Inductive exn :=
  AssertionError | AttributeError | KeyError | ValueError | TypeError.

Inductive result (A : Type) :=
| Ok (a : A)
| Raise (e : exn).
Arguments Ok {A} a.
Arguments Raise {A} e.

Definition bind {A B} (m : result A) (k : A -> result B) : result B :=
  match m with
  | Ok a => k a
  | Raise e => Raise e
  end.

(** [assert cond] *)
Definition assert (cond : bool) : result unit :=
  if cond then Ok tt else Raise AssertionError.

(** Truthiness of an optional string: [None] and [''] are falsy. *)
Definition truthy_str (s : option string) : bool :=
  match s with
  | Some s => negb (String.eqb s EmptyString)
  | None => false
  end.

(** Truthiness of an optional float: [None] and [0.0] are falsy. *)
Definition truthy_float (q : option Q) : bool :=
  match q with
  | Some q => negb (Qeq_bool q 0)
  | None => false
  end.

(** [a < b] on floats. *)
Definition Qlt_bool (a b : Q) : bool := negb (Qle_bool b a).

(** [str(x)] for an optional string, as used by ['%s' % x]. *)
Definition str_opt (s : option string) : string :=
  match s with
  | Some s => s
  | None => "None"
  end.

(** A number that is either an integer or the float [nan]
    (what [Index.min()] and [Index.max()] return). *)
Inductive num := Int (z : Z) | NaN.

(** [a < b]; every comparison with [nan] is [False]. *)
Definition num_lt (a b : num) : bool :=
  match a, b with
  | Int x, Int y => x <? y
  | _, _ => false
  end.

(** Ordered dictionaries with string keys: lookup of the first binding,
    and assignment, which keeps the position of an existing key and
    appends a new one. *)
Fixpoint dict_get {V} (k : string) (d : list (string * V)) : option V :=
  match d with
  | [] => None
  | (k', v) :: d' => if String.eqb k k' then Some v else dict_get k d'
  end.

Fixpoint dict_set {V} (k : string) (v : V) (d : list (string * V))
  : list (string * V) :=
  match d with
  | [] => [(k, v)]
  | (k', v') :: d' =>
      if String.eqb k k' then (k, v) :: d' else (k', v') :: dict_set k v d'
  end.

Definition dict_mem {V} (k : string) (d : list (string * V)) : bool :=
  match dict_get k d with Some _ => true | None => false end.

(** [l.remove(x)]: drop the first occurrence, [ValueError] if absent. *)
Fixpoint list_remove (x : string) (l : list string) : result (list string) :=
  match l with
  | [] => Raise ValueError
  | y :: l' =>
      if String.eqb x y then Ok l'
      else bind (list_remove x l') (fun r => Ok (y :: r))
  end.

Definition list_mem (x : string) (l : list string) : bool :=
  existsb (String.eqb x) l.

(** The values that occur in layout and trace dictionaries. *)
Inductive pyval :=
| PNone
| PBool (b : bool)
| PInt (z : Z)
| PFloat (q : Q)
| PStr (s : string)
| PList (l : list pyval)
| PDict (d : list (string * pyval)).

Definition dict := list (string * pyval).

End Py.
Export Py.

(** [result] is used through stdpp's monad notation [x ← m; k]. *)
#[global] Instance result_ret : MRet result := fun _ a => Ok a.
#[global] Instance result_bind : MBind result := fun _ _ k m => Py.bind m k.

(** ** pandas: data frames and series *)

Module Pandas.

Inductive cell := CBool (b : bool) | CInt (z : Z) | CFloat (q : Q) | CNaN.

Record DataFrame := {
  index : list Z;
  columns : list (string * list cell)
}.

(** A column selected from a frame: index labels paired with values. *)
Definition Series := list (Z * cell).

Definition column_names (df : DataFrame) : list string := map fst (columns df).

(** [df[name]] *)
Definition get_column (name : string) (df : DataFrame) : result (list cell) :=
  match dict_get name (columns df) with
  | Some c => Ok c
  | None => Raise KeyError
  end.

(** [df.name] *)
Definition get_attr (name : string) (df : DataFrame) : result (list cell) :=
  match dict_get name (columns df) with
  | Some c => Ok c
  | None => Raise AttributeError
  end.

Fixpoint drop_column (name : string) (cols : list (string * list cell))
  : list (string * list cell) :=
  match cols with
  | [] => []
  | (k, c) :: cols' =>
      if String.eqb name k then cols' else (k, c) :: drop_column name cols'
  end.

Definition as_year (c : cell) : result Z :=
  match c with
  | CInt z => Ok z
  | _ => Raise TypeError
  end.

Definition as_bool (c : cell) : result bool :=
  match c with
  | CBool b => Ok b
  | _ => Raise TypeError
  end.

Fixpoint traverse {A B} (f : A -> result B) (l : list A) : result (list B) :=
  match l with
  | [] => Ok []
  | a :: l' => b ← f a; bs ← traverse f l'; Ok (b :: bs)
  end.

(** [df.set_index(name)]: the column becomes the index and is dropped from
    the columns.  Only integer (year) labels are modelled; any other label
    is reported as [TypeError]. *)
Definition set_index (name : string) (df : DataFrame) : result DataFrame :=
  col ← get_column name df;
  years ← traverse as_year col;
  Ok {| index := years; columns := drop_column name (columns df) |}.

(** [Index.min()] and [Index.max()]: [nan] on an empty index. *)
Definition index_min (idx : list Z) : num :=
  match idx with
  | [] => NaN
  | y :: idx' => Int (fold_left Z.min idx' y)
  end.

Definition index_max (idx : list Z) : num :=
  match idx with
  | [] => NaN
  | y :: idx' => Int (fold_left Z.max idx' y)
  end.

(** A boolean column used as a mask. *)
Definition as_mask (col : list cell) : result (list bool) := traverse as_bool col.

(** [~m], [m1 & m2], [m1 | m2] *)
Definition mask_not (m : list bool) : list bool := map negb m.
Definition mask_and (m1 m2 : list bool) : list bool := zip_with andb m1 m2.
Definition mask_or (m1 m2 : list bool) : list bool := zip_with orb m1 m2.

(** [i >= y] and [i == y] for a label [i]; [False] against [nan]. *)
Definition label_ge (i : Z) (y : num) : bool :=
  match y with Int z => z <=? i | NaN => false end.
Definition label_eq (i : Z) (y : num) : bool :=
  match y with Int z => i =? z | NaN => false end.

(** [idx >= y] and [idx == y], element-wise. *)
Definition index_ge (idx : list Z) (y : num) : list bool :=
  map (fun i => label_ge i y) idx.
Definition index_eq (idx : list Z) (y : num) : list bool :=
  map (fun i => label_eq i y) idx.

(** [df.loc[mask, col]] with the column already looked up. *)
Definition loc (mask : list bool) (idx : list Z) (col : list cell) : Series :=
  map snd (List.filter fst (zip mask (zip idx col))).

(** [df.loc[mask].index] *)
Definition loc_index (mask : list bool) (idx : list Z) : list Z :=
  map snd (List.filter fst (zip mask idx)).

Definition is_nan (c : cell) : bool :=
  match c with CNaN => true | _ => false end.

Definition dropna (s : Series) : Series :=
  List.filter (fun p => negb (is_nan (snd p))) s.

Definition series_index (s : Series) : list Z := map fst s.

(** [idx.astype(str)] *)
Definition astype_str (idx : list Z) : list string := map pretty idx.

End Pandas.
Export Pandas.

(** ** colour: the [Color] object

    [colour.Color] keeps a colour as hue, saturation and luminance;
    [get_luminance] and [set_luminance] read and write the third component. *)

Module Colour.

Record Color := { hue : Q; saturation : Q; luminance : Q }.

Definition get_luminance (c : Color) : Q := luminance c.

Definition set_luminance (l : Q) (c : Color) : Color :=
  {| hue := hue c; saturation := saturation c; luminance := l |}.

(** The library's allowance for rounding when it checks a component. *)
Definition FLOAT_ERROR : Q := 5 # 10000000.

(** [0.0 - FLOAT_ERROR <= v <= 1.0 + FLOAT_ERROR] *)
Definition in_unit_range (v : Q) : bool :=
  Qle_bool (0 - FLOAT_ERROR) v && Qle_bool v (1 + FLOAT_ERROR).

End Colour.
Export Colour.

(** ** What the module imports from outside components/graphs.py

    - [find_consecutive_start] (utils/data.py) and the table
      [GHG_MAIN_SECTOR_COLORS] (utils/colors.py);
    - [Color_new] is [Color(web)], which parses a web colour and may raise
      [ValueError]; a parsed colour has its saturation and luminance between
      0 and 1 ([Color_new_valid]);
    - [Color_hex] is the hex string of a colour whose components are in
      range;
    - [py_repr] is [str] on floats, lists and dictionaries. *)

Class Externals := {
  find_consecutive_start : list Z -> num;
  GHG_MAIN_SECTOR_COLORS : gmap string string;
  Color_new : string -> result Color;
  Color_new_valid : forall web c, Color_new web = Ok c ->
    in_unit_range (saturation c) = true /\ in_unit_range (luminance c) = true;
  Color_hex : Color -> string;
  py_repr : pyval -> string
}.

(** The [.hex] property of a [Color]: the library first converts hue,
    saturation and luminance to RGB, and that conversion raises [ValueError]
    unless saturation and luminance lie between 0 and 1 (up to
    [FLOAT_ERROR]); [set_luminance] itself checks nothing. *)
Definition get_hex `{Externals} (c : Color) : result string :=
  if negb (in_unit_range (saturation c)) then Raise ValueError
  else if negb (in_unit_range (luminance c)) then Raise ValueError
  else Ok (Color_hex c).

(** ** utils.deepupdate *)

Module Utils.

(** Modelled from the spec: the merge step of [deepupdate]
    (utils/__init__.py), whose source is not included.  [src] is deep-merged
    into [target] and the given arguments win: a dictionary in [src] is
    merged recursively into a dictionary already stored under the same key,
    and every other value of [src] replaces what [target] holds under its
    key. *)
Fixpoint merge_value (v : pyval) (old : option pyval) {struct v} : pyval :=
  match v, old with
  | PDict src, Some (PDict target) =>
      PDict
        ((fix go (src : list (string * pyval)) (target : dict) : dict :=
            match src with
            | [] => target
            | (k, v') :: src' =>
                go src' (dict_set k (merge_value v' (dict_get k target)) target)
            end) src target)
  | _, _ => v
  end.

(** Modelled from the spec: [deepupdate(target, src)] itself, the merge of
    every entry of [src] into [target] as described for [merge_value]. *)
Definition deepupdate (target src : dict) : dict :=
  fold_left
    (fun target kv =>
       dict_set (fst kv) (merge_value (snd kv) (dict_get (fst kv) target)) target)
    src target.

End Utils.
Export Utils.

(** ** components/graphs.py *)

Module Graphs.

(** [str(v)] as used by ['<b>%s</b>' % v]. *)
Definition py_str `{Externals} (v : pyval) : string :=
  match v with
  | PNone => "None"
  | PBool true => "True"
  | PBool false => "False"
  | PInt z => pretty z
  | PStr s => s
  | _ => py_repr v
  end.

Definition tickfont : pyval :=
  PDict [("family", PStr "HelsinkiGrotesk, Arial"); ("size", PInt 14)].

Definition default_params : dict :=
  [ ("margin", PDict [("t", PInt 30); ("r", PInt 15); ("l", PInt 60)]);
    ("yaxis",
      PDict [ ("rangemode", PStr "tozero");
              ("hoverformat", PStr ".3r");
              ("separatethousands", PBool true);
              ("anchor", PStr "free");
              ("domain", PList [PFloat (2 # 100); PInt 1]);
              ("tickfont", tickfont);
              ("gridwidth", PInt 1);
              ("gridcolor", PStr "#ccc");
              ("fixedrange", PBool true) ]);
    ("xaxis",
      PDict [ ("showgrid", PBool false);
              ("showline", PBool false);
              ("anchor", PStr "free");
              ("domain", PList [PFloat (1 # 100); PInt 1]);
              ("tickfont", tickfont);
              ("gridwidth", PInt 1);
              ("gridcolor", PStr "#ccc");
              ("fixedrange", PBool true) ]);
    ("font", PDict [("family", PStr "HelsinkiGrotesk, Open Sans, Arial")]);
    ("separators", PStr ", ");
    ("plot_bgcolor", PStr "#fff") ].

Definition make_layout `{Externals} (kwargs : dict) : dict :=
  let params := default_params in
  let params :=
    if negb (dict_mem "legend" kwargs)
    then dict_set "showlegend" (PBool false) params
    else params in
  let params := deepupdate params kwargs in
  let params :=
    match dict_get "title" params with
    | Some t => dict_set "title" (PStr ("<b>" +:+ py_str t +:+ "</b>")) params
    | None => params
    end in
  params.

(** The dataclass fields of [PredictionGraph]. *)
Record GraphOptions := {
  sector_name : option string;
  title : option string;
  unit_name : option string;
  y_max : option Q;
  smoothing : bool;
  fill : bool;
  stacked : bool;
  allow_nonconsecutive_years : bool
}.

(** A series refers to the graph it was added to; only the graph's
    dataclass fields are read through that reference. *)
Record PredictionGraphSeries := {
  graph : GraphOptions;
  df : DataFrame;
  trace_name : option string;
  column_name : option string;
  historical_color : option string;
  forecast_color : option string;
  luminance_change : option Q
}.

Definition with_df (self : PredictionGraphSeries) (d : DataFrame) :=
  {| graph := graph self; df := d; trace_name := trace_name self;
     column_name := column_name self;
     historical_color := historical_color self;
     forecast_color := forecast_color self;
     luminance_change := luminance_change self |}.

Definition with_column_name (self : PredictionGraphSeries) (c : option string) :=
  {| graph := graph self; df := df self; trace_name := trace_name self;
     column_name := c;
     historical_color := historical_color self;
     forecast_color := forecast_color self;
     luminance_change := luminance_change self |}.

(** [PredictionGraphSeries.__post_init__]; returns the initialised object. *)
Definition post_init (self : PredictionGraphSeries) : result PredictionGraphSeries :=
  let col_names := column_names (df self) in
  _ ← assert (list_mem "Forecast" (column_names (df self)));
  col_names ← list_remove "Forecast" col_names;
  '(self, col_names) ←
    (if list_mem "Year" col_names then
       d ← set_index "Year" (df self);
       col_names ← list_remove "Year" col_names;
       Ok (with_df self d, col_names)
     else Ok (self, col_names));
  if negb (truthy_str (column_name self)) then
    _ ← assert (Nat.eqb (length col_names) 1);
    Ok (with_column_name self (head col_names))
  else
    (* assert isinstance(self.column_name, str): holds by typing *)
    Ok self.

Definition get_color `{Externals} (self : PredictionGraphSeries) (forecast : bool)
  : result string :=
  let color := if forecast then forecast_color self else historical_color self in
  if truthy_str color then Ok (default EmptyString color)
  else
    color ←
      (if forecast && truthy_str (historical_color self)
       then Color_new (default EmptyString (historical_color self))
       else
         match sector_name (graph self) ≫= (GHG_MAIN_SECTOR_COLORS !!.) with
         | Some web => Color_new web
         | None => Raise KeyError
         end);
    let color :=
      if truthy_float (luminance_change self) then
        let c := default 0%Q (luminance_change self) in
        let luminance := get_luminance color in
        let luminance :=
          if Qlt_bool c 0 then (luminance * (1 + c))%Q
          else (luminance + (1 - luminance) * c)%Q in
        set_luminance luminance color
      else color in
    let color :=
      if forecast then
        (* Lighten forecast series by 30 % *)
        let luminance := get_luminance color in
        let luminance := (luminance + (1 - get_luminance color) * (3 # 10))%Q in
        set_luminance luminance color
      else color in
    get_hex color.

(** One plotted line or area.  [attrs] holds the keys that
    [**trace_attrs] contributes to the trace dictionary. *)
Record Trace := {
  type_ : string;
  x : list string;
  y : Series;
  name : option string;
  hovertemplate : string;
  line : gmap string pyval;
  attrs : gmap string string
}.

Record PredictionGraph := {
  options : GraphOptions;
  series_list : list PredictionGraphSeries;
  min_year : option num;
  max_year : option num;
  forecast_start_year : option num
}.

(** [PredictionGraph(...)] followed by [__post_init__]. *)
Definition new_graph (o : GraphOptions) : PredictionGraph :=
  {| options := o; series_list := []; min_year := None; max_year := None;
     forecast_start_year := None |}.

Definition get_traces_for_series `{Externals}
    (self : GraphOptions) (series : PredictionGraphSeries)
    (index : Z) (has_multiple_series : bool) : result (list Trace) :=
  let df := df series in
  let trace_attrs : gmap string string := ∅ in
  let trace_attrs :=
    if stacked self || fill self then
      if stacked self && (0 <? index)
      then <["fill" := "tonexty"]> trace_attrs
      else <["fill" := "tozeroy"]> trace_attrs
    else trace_attrs in
  let trace_attrs :=
    if fill self
    then <["mode" := "none"]> trace_attrs
    else <["mode" := "lines"]> trace_attrs in
  let start_year :=
    if allow_nonconsecutive_years self
    then index_min (Pandas.index df)
    else find_consecutive_start (Pandas.index df) in
  let y_column := column_name series in
  forecast ← get_attr "Forecast" df ≫= as_mask;
  values ←
    match y_column with
    | Some c => get_column c df
    | None => Raise KeyError
    end;
  let hist_series :=
    dropna (loc (mask_and (mask_not forecast) (index_ge (Pandas.index df) start_year))
                (Pandas.index df) values) in
  let hovertemplate := "%{x}: %{y}" in
  let hovertemplate :=
    if truthy_str (unit_name self)
    then hovertemplate +:+ " " +:+ default EmptyString (unit_name self)
    else hovertemplate in
  let traces : list Trace := [] in
  let line_attrs : gmap string pyval := {[ "width" := PInt 4 ]} in
  let line_attrs :=
    if smoothing self
    then <["shape" := PStr "spline"]> (<["smoothing" := PInt 1]> line_attrs)
    else line_attrs in
  '(traces, trace_attrs, forecast_series) ←
    (if negb (Nat.eqb (length hist_series) 0) then
       color ← get_color series false;
       let trace_attrs :=
         if stacked self then <["stackgroup" := "history"]> trace_attrs
         else trace_attrs in
       let trace_attrs :=
         if fill self then <["fillcolor" := color]> trace_attrs
         else trace_attrs in
       let hist_trace :=
         {| type_ := "scatter";
            x := astype_str (series_index hist_series);
            y := hist_series;
            name := trace_name series;
            hovertemplate := hovertemplate;
            line := <["color" := PStr color]> line_attrs;
            attrs := trace_attrs |} in
       let traces := traces ++ [hist_trace] in
       let last_hist_year := index_max (series_index hist_series) in
       let forecast_series :=
         loc (mask_or forecast (index_eq (Pandas.index df) last_hist_year))
             (Pandas.index df) values in
       Ok (traces, trace_attrs, forecast_series)
     else
       Ok (traces, trace_attrs, loc forecast (Pandas.index df) values));
  let forecast_series := dropna forecast_series in
  if negb (Nat.eqb (length forecast_series) 0) then
    color ← get_color series true;
    let trace_attrs :=
      if stacked self then <["stackgroup" := "forecast"]> trace_attrs
      else trace_attrs in
    let trace_attrs :=
      if fill self then <["fillcolor" := color]> trace_attrs
      else trace_attrs in
    let line_attrs :=
      if fill self then line_attrs
      else <["dash" := PStr "dash"]> line_attrs in
    let forecast_trace :=
      {| type_ := "scatter";
         x := astype_str (series_index forecast_series);
         y := forecast_series;
         name := Some (str_opt (trace_name series) +:+ " (enn.)");
         hovertemplate := hovertemplate;
         line := <["color" := PStr color]> line_attrs;
         attrs := trace_attrs |} in
    Ok (forecast_trace :: traces)
  else Ok traces.

(** The arguments of [add_series], handed on to the series constructor. *)
Record SeriesArgs := {
  arg_df : DataFrame;
  arg_trace_name : option string;
  arg_column_name : option string;
  arg_historical_color : option string;
  arg_forecast_color : option string;
  arg_luminance_change : option Q
}.

(** [PredictionGraphSeries(graph, **args)]: the generated [__init__]
    followed by [__post_init__]. *)
Definition new_series (g : GraphOptions) (a : SeriesArgs)
  : result PredictionGraphSeries :=
  post_init
    {| graph := g; df := arg_df a; trace_name := arg_trace_name a;
       column_name := arg_column_name a;
       historical_color := arg_historical_color a;
       forecast_color := arg_forecast_color a;
       luminance_change := arg_luminance_change a |}.

Definition add_series (self : PredictionGraph) (a : SeriesArgs)
  : result PredictionGraph :=
  series ← new_series (options self) a;
  let series_list := series_list self ++ [series] in
  let df := df series in
  let min_year :=
    match min_year self with
    | None => Some (index_min (Pandas.index df))
    | Some m =>
        if num_lt (index_min (Pandas.index df)) m
        then Some (index_min (Pandas.index df))
        else Some m
    end in
  let max_year :=
    match max_year self with
    | None => Some (index_max (Pandas.index df))
    | Some m =>
        if num_lt m (index_max (Pandas.index df))
        then Some (index_max (Pandas.index df))
        else Some m
    end in
  forecast ← get_attr "Forecast" df ≫= as_mask;
  let fstart := index_max (loc_index (mask_not forecast) (Pandas.index df)) in
  let forecast_start_year :=
    match forecast_start_year self with
    | None => Some fstart
    | Some f => if num_lt fstart f then Some fstart else Some f
    end in
  Ok {| options := options self; series_list := series_list;
        min_year := min_year; max_year := max_year;
        forecast_start_year := forecast_start_year |}.

(** [year != self.forecast_start_year] *)
Definition year_ne (year : Z) (fsy : option num) : bool :=
  match fsy with
  | Some (Int f) => negb (year =? f)
  | _ => true
  end.

(** The body of the tick loop of [get_figure]. *)
Definition tick_step (fsy : option num) (max_year : Z)
    (acc : list Z * list string) (year : Z) : list Z * list string :=
  let '(tick_vals, tick_labels) := acc in
  let append := (tick_vals ++ [year], tick_labels ++ [pretty year]) in
  if year_ne year fsy && negb (Nat.eqb (length tick_vals) 0)
     && negb (year =? max_year)
  then
    if year - default 0 (last tick_vals) <? 3 then acc
    else if negb (year mod 5 =? 0) then acc
    else append
  else append.

(** [range(a, b)] *)
Definition range (a b : Z) : list Z := seqZ a (b - a).

(** [self.max_year + 1]: the years come from the index of a frame and are
    numpy [int64] values, whose addition wraps around. *)
Definition int64_add (a b : Z) : Z := (a + b + 2 ^ 63) mod 2 ^ 64 - 2 ^ 63.

(** The tick loop: [TypeError] when the year range is not made of integers. *)
Definition get_ticks (self : PredictionGraph) : result (list Z * list string) :=
  match min_year self, max_year self with
  | Some (Int lo), Some (Int hi) =>
      Ok (fold_left (tick_step (forecast_start_year self) hi)
                    (range lo (int64_add hi 1)) ([], []))
  | _, _ => Raise TypeError
  end.

Fixpoint traces_from `{Externals} (self : GraphOptions) (has_multiple : bool)
    (idx : Z) (l : list PredictionGraphSeries) : result (list Trace) :=
  match l with
  | [] => Ok []
  | series :: l' =>
      t ← get_traces_for_series self series idx has_multiple;
      ts ← traces_from self has_multiple (idx + 1) l';
      Ok (t ++ ts)
  end.

Definition opt_str (s : option string) : pyval :=
  match s with
  | Some s => PStr s
  | None => PNone
  end.

Record Figure := { data : list Trace; layout : dict }.

Definition get_figure `{Externals} (self : PredictionGraph) : result Figure :=
  let o := options self in
  let yattrs : dict :=
    if truthy_float (y_max o)
    then [ ("fixedrange", PBool true);
           ("range", PList [PInt 0; PFloat (default 0%Q (y_max o))]) ]
    else [] in
  '(tick_vals, tick_labels) ← get_ticks self;
  let layout :=
    make_layout
      [ ("title", opt_str (title o));
        ("yaxis", PDict (("title", opt_str (unit_name o)) :: yattrs));
        ("xaxis", PDict [ ("fixedrange", PBool true);
                          ("tickvals", PList (map PInt tick_vals));
                          ("ticklabels", PList (map PStr tick_labels)) ]);
        ("hovermode", PStr "closest");
        ("height", PInt 450) ] in
  let has_multiple := (1 <? length (series_list self))%nat in
  traces ← traces_from o has_multiple 0 (series_list self);
  Ok {| data := traces; layout := layout |}.

End Graphs.
Export Graphs.

(** ** Vocabulary of the specification *)

Module Spec.

(** A row as [get_traces_for_series] sees it: the index label, the
    [Forecast] flag and the value in the plotted column. *)
Record Row := { year : Z; is_forecast : bool; value : cell }.

Fixpoint rows (idx : list Z) (forecast : list bool) (values : list cell)
  : list Row :=
  match idx, forecast, values with
  | i :: idx', f :: forecast', v :: values' =>
      {| year := i; is_forecast := f; value := v |} :: rows idx' forecast' values'
  | _, _, _ => []
  end.

(** The (year, value) point a row contributes to a trace. *)
Definition point (r : Row) : Z * cell := (year r, value r).

(** The year from which historical rows are plotted. *)
Definition start_year `{Externals} (self : GraphOptions) (d : DataFrame) : num :=
  if allow_nonconsecutive_years self
  then index_min (index d)
  else find_consecutive_start (index d).

(** Rows of the historical segment that are plotted: not forecast, not
    before [start], value present. *)
Definition in_historical (start : num) (r : Row) : bool :=
  negb (is_forecast r) && label_ge (year r) start && negb (is_nan (value r)).

(** Rows plotted in the forecast trace: forecast rows and the rows of the
    last historical year [last_hist] ([nan] when nothing historical is
    plotted), value present. *)
Definition in_forecast (last_hist : num) (r : Row) : bool :=
  (is_forecast r || label_eq (year r) last_hist) && negb (is_nan (value r)).

(** The largest year among the plotted historical rows. *)
Definition last_hist_year (start : num) (rs : list Row) : num :=
  index_max (map year (List.filter (in_historical start) rs)).

(** The [fill] attribute the stacking and filling rules give a trace. *)
Definition expected_fill (self : GraphOptions) (index : Z) : option string :=
  if stacked self && (0 <? index) then Some "tonexty"
  else if stacked self || fill self then Some "tozeroy"
  else None.

(** [t] is the trace of one segment of [series]: it plots the rows [sel],
    is named after the segment, and carries the colour and the attributes
    of that segment. *)
Definition segment_trace `{Externals} (self : GraphOptions)
    (series : PredictionGraphSeries) (index : Z) (forecast : bool)
    (sel : list Row) (t : Trace) : Prop :=
  type_ t = "scatter" /\
  x t = astype_str (map year sel) /\
  y t = map point sel /\
  name t = (if forecast then Some (str_opt (trace_name series) +:+ " (enn.)")
            else trace_name series) /\
  exists color,
    get_color series forecast = Ok color /\
    line t !! "color" = Some (PStr color) /\
    line t !! "width" = Some (PInt 4) /\
    line t !! "dash" =
      (if forecast && negb (fill self) then Some (PStr "dash") else None) /\
    attrs t !! "fill" = expected_fill self index /\
    attrs t !! "mode" = Some (if fill self then "none" else "lines") /\
    attrs t !! "stackgroup" =
      (if stacked self then Some (if forecast then "forecast" else "history")
       else None) /\
    attrs t !! "fillcolor" = (if fill self then Some color else None).

(** [m] is the least, respectively the greatest, element of [l]. *)
Definition is_min (m : Z) (l : list Z) : Prop :=
  In m l /\ forall y, In y l -> m <= y.
Definition is_max (m : Z) (l : list Z) : Prop :=
  In m l /\ forall y, In y l -> y <= m.

(** [p] is the tick immediately preceding the year [y]. *)
Definition preceding_tick (ticks : list Z) (y p : Z) : Prop :=
  In p ticks /\ p < y /\ forall t, In t ticks -> t < y -> t <= p.

(** [layout[axis][key]] *)
Definition axis_entry (layout : dict) (axis key : string) : option pyval :=
  match dict_get axis layout with
  | Some (PDict d) => dict_get key d
  | _ => None
  end.

(** The years of the rows of a series whose [Forecast] flag is false. *)
Definition historical_years (s : PredictionGraphSeries) : result (list Z) :=
  forecast ← get_attr "Forecast" (df s) ≫= as_mask;
  Ok (loc_index (mask_not forecast) (index (df s))).

(** The year range and the forecast start of a graph are the integers
    [lo], [hi] and [f]. *)
Definition year_state (g : PredictionGraph) (lo hi f : Z) : Prop :=
  min_year g = Some (Int lo) /\ max_year g = Some (Int hi) /\
  forecast_start_year g = Some (Int f).

(** [m] is the [outer] extreme, over the non-empty year lists of [ls], of
    their [inner] extremes. *)
Definition has_rows (l : list Z) : bool := negb (Nat.eqb (length l) 0).
Definition extreme_of (inner outer : Z -> list Z -> Prop)
    (ls : list (list Z)) (m : Z) : Prop :=
  exists ms,
    Forall2 (fun l x => inner x l) (List.filter has_rows ls) ms /\ outer m ms.
Definition least_of_smallest := extreme_of is_min is_min.
Definition greatest_of_largest := extreme_of is_max is_max.
Definition least_of_largest := extreme_of is_max is_min.

(** What a year attribute of a graph holds once series with the year lists
    [ls] were added, in this order: nothing before the first series; [nan]
    for good when the first list is empty; otherwise the [extreme] over the
    lists that are not empty. *)
Definition year_attribute (extreme : list (list Z) -> Z -> Prop)
    (ls : list (list Z)) (attribute : option num) : Prop :=
  match ls with
  | [] => attribute = None
  | [] :: _ => attribute = Some NaN
  | _ :: _ => exists m, attribute = Some (Int m) /\ extreme ls m
  end.

(** The least and the greatest [int64]. *)
Definition INT64_MIN : Z := - 2 ^ 63.
Definition INT64_MAX : Z := 2 ^ 63 - 1.
Definition is_int64 (z : Z) : Prop := INT64_MIN <= z <= INT64_MAX.

(** A sequence of [add_series] calls. *)
Fixpoint add_series_seq (g : PredictionGraph) (l : list SeriesArgs)
  : result PredictionGraph :=
  match l with
  | [] => Ok g
  | a :: l' => g' ← add_series g a; add_series_seq g' l'
  end.

(** [l] without the first occurrence of [x], if any. *)
Fixpoint without (x : string) (l : list string) : list string :=
  match l with
  | [] => []
  | y :: l' => if String.eqb x y then l' else y :: without x l'
  end.

(** The columns left for the Y axis: all but ['Forecast'] and ['Year']. *)
Definition remaining_columns (d : DataFrame) : list string :=
  without "Year" (without "Forecast" (column_names d)).

(** A ['Year'] column, when there is one, holds integer years. *)
Definition integer_years (d : DataFrame) : Prop :=
  forall col, dict_get "Year" (columns d) = Some col ->
  exists years, col = map CInt years.

(** Luminance after the blend by [c] described for [get_color]. *)
Definition blend (c : Q) (l : Q) : Q :=
  if Qlt_bool c 0 then (l * (1 + c))%Q
  else if Qlt_bool 0 c then (l + (1 - l) * c)%Q
  else l.

(** Lightening by 30 percent. *)
Definition lighten (l : Q) : Q := (l + (1 - l) * (3 # 10))%Q.

Definition derived_luminance (c : option Q) (forecast : bool) (l : Q) : Q :=
  let l1 := match c with Some c => blend c l | None => l end in
  if forecast then lighten l1 else l1.

End Spec.
Export Spec.

(** ** Concrete data for examples

    A stand-in for the external interfaces, and small frames and graphs on
    which the definitions are evaluated. *)

Module Samples.

(** Modelled from the spec: the scan of [find_consecutive_start]
    (utils/data.py), whose source is not included; it yields the start of
    the final run of consecutive years of the index. *)
Fixpoint consecutive_start_from (start last : Z) (l : list Z) : Z :=
  match l with
  | [] => start
  | y :: l' =>
      if y =? last + 1 then consecutive_start_from start y l'
      else consecutive_start_from y y l'
  end.

(** Modelled from the spec: [find_consecutive_start(values)], [nan] standing
    for the result on an empty index. *)
Definition sample_find_consecutive_start (idx : list Z) : num :=
  match idx with
  | [] => NaN
  | y :: idx' => Int (consecutive_start_from y y idx')
  end.

(** A colour library that knows four web colours and renders a colour
    symbolically. *)
Definition sample_Color_new (web : string) : result Color :=
  if String.eqb web "black" then Ok {| hue := 0; saturation := 0; luminance := 0 |}
  else if String.eqb web "white" then Ok {| hue := 0; saturation := 0; luminance := 1 |}
  else if String.eqb web "red" then Ok {| hue := 0; saturation := 1; luminance := 1 # 2 |}
  else if String.eqb web "blue" then Ok {| hue := 2 # 3; saturation := 1; luminance := 1 # 2 |}
  else Raise ValueError.

(** The four colours are valid ones. *)
Definition sample_Color_new_valid (web : string) (c : Color) :
  sample_Color_new web = Ok c ->
  in_unit_range (saturation c) = true /\ in_unit_range (luminance c) = true.
Proof.
  unfold sample_Color_new. intros Hc.
  repeat (destruct (String.eqb web _); [injection Hc as <-; by split|]).
  discriminate Hc.
Qed.

Definition show_Q (q : Q) : string :=
  pretty (Qnum (Qred q)) +:+ "/" +:+ pretty (Zpos (Qden (Qred q))).

Definition sample_Color_hex (c : Color) : string :=
  "hsl(" +:+ show_Q (hue c) +:+ "," +:+ show_Q (saturation c) +:+ ","
         +:+ show_Q (luminance c) +:+ ")".

Definition sample_externals : Externals := {|
  find_consecutive_start := sample_find_consecutive_start;
  GHG_MAIN_SECTOR_COLORS :=
    {[ "Transportation" := "red"; "ElectricityConsumption" := "blue" ]};
  Color_new := sample_Color_new;
  Color_new_valid := sample_Color_new_valid;
  Color_hex := sample_Color_hex;
  py_repr := fun _ => "<repr>"
|}.

Definition graph_options (sector : option string) (fill stacked allow : bool)
  : GraphOptions :=
  {| sector_name := sector; title := Some "Emissions"; unit_name := Some "kt";
     y_max := None; smoothing := false; fill := fill; stacked := stacked;
     allow_nonconsecutive_years := allow |}.

Definition frame (idx : list Z) (forecast : list bool) (values : list cell)
  : DataFrame :=
  {| index := idx;
     columns := [ ("Forecast", map CBool forecast); ("Emissions", values) ] |}.

Definition series_of (g : GraphOptions) (d : DataFrame)
    (hist_color forecast_color : option string) (lum : option Q)
  : PredictionGraphSeries :=
  {| graph := g; df := d; trace_name := Some "Emissions";
     column_name := Some "Emissions"; historical_color := hist_color;
     forecast_color := forecast_color; luminance_change := lum |}.

Definition args_of (d : DataFrame) : SeriesArgs :=
  {| arg_df := d; arg_trace_name := Some "Emissions";
     arg_column_name := Some "Emissions"; arg_historical_color := None;
     arg_forecast_color := None; arg_luminance_change := None |}.

(** A graph of plain lines that plots every year. *)
Definition plain_graph : GraphOptions := graph_options None false false true.

(** A stacked, filled graph of a sector with a colour, plotting the final
    run of consecutive years only. *)
Definition stacked_graph : GraphOptions :=
  graph_options (Some "Transportation") true true false.

(** Two measured years followed by a projected one. *)
Definition measured_and_projected : DataFrame :=
  frame [2000; 2001; 2002] [false; false; true] [CFloat 1; CFloat 2; CFloat 3].

(** One measured year followed by one projected year. *)
Definition one_each : DataFrame :=
  frame [2000; 2001] [false; true] [CFloat 1; CFloat 2].

(** A single measured year and no projection. *)
Definition measured_only : DataFrame := frame [2000] [false] [CFloat 1].

(** A measurement from 1990, then yearly data from 2000 on. *)
Definition with_gap : DataFrame :=
  frame [1990; 2000; 2001; 2002] [false; false; false; true]
        [CFloat 5; CFloat 1; CFloat 2; CFloat 3].

(** Measurements 2005-2010 and projections to 2020, with a ['Year'] column
    instead of an index. *)
Definition yearly (first last_measured last : Z) : DataFrame :=
  {| index := seqZ 0 (last + 1 - first);
     columns :=
       [ ("Year", map CInt (seqZ first (last + 1 - first)));
         ("Forecast",
           map (fun y => CBool (last_measured <? y)) (seqZ first (last + 1 - first)));
         ("Emissions", map (fun y => CFloat (inject_Z y)) (seqZ first (last + 1 - first))) ] |}.

(** A frame with two value columns. *)
Definition two_columns : DataFrame :=
  {| index := [2000];
     columns := [ ("Forecast", [CBool false]); ("Heating", [CFloat 1]);
                  ("Traffic", [CFloat 2]) ] |}.

Definition coloured (g : GraphOptions) (d : DataFrame) : PredictionGraphSeries :=
  series_of g d (Some "#1f77b4") (Some "#aec7e8") None.

(** A graph of plain lines that plots the final run of consecutive years. *)
Definition consecutive_graph : GraphOptions := graph_options None false false false.

(** The graph obtained by adding the given frames to a fresh graph. *)
Definition graph_of (o : GraphOptions) (frames : list DataFrame) : PredictionGraph :=
  match add_series_seq (new_graph o) (map args_of frames) with
  | Ok g => g
  | Raise _ => new_graph o
  end.

(** A measurement from 1990 followed by a projection for 2000. *)
Definition old_measurement : DataFrame :=
  frame [1990; 2000] [false; true] [CFloat 5; CFloat 1].

(** A series without colours of its own, darkened by 30 percent. *)
Definition darkened : PredictionGraphSeries :=
  series_of stacked_graph one_each None None (Some (-3 # 10)%Q).

Definition red : Color := {| hue := 0; saturation := 1; luminance := 1 # 2 |}.

(** A series whose [column_name] is left to be found. *)
Definition unnamed_column (d : DataFrame) (column : option string)
  : PredictionGraphSeries :=
  {| graph := plain_graph; df := d; trace_name := Some "Emissions";
     column_name := column; historical_color := None;
     forecast_color := None; luminance_change := None |}.

End Samples.
Export Samples.

(** ** pages/emissions.py and pages/electricity.py: the figures of the pages *)

Module Pages.

(** [d[key]] on a dictionary entry that may be absent. *)
Definition getitem {A} (entry : option A) : result A :=
  match entry with
  | Some a => Ok a
  | None => Raise KeyError
  end.

(** The metadata of a sector as [make_sector_fig] reads it: [metadata['name']]
    and, per column, [metadata['subsectors'][col_name]['name']].  An absent
    key is [None] at its level. *)
Record SectorMetadata := {
  md_name : option string;
  md_subsectors : option (gmap string (option string))
}.

(** [metadata['subsectors'][col_name]['name']], evaluated in two steps as
    the loop does. *)
Definition subsector_name (metadata : SectorMetadata) (col_name : string)
  : result string :=
  subsectors ← getitem (md_subsectors metadata);
  subsector ← getitem (subsectors !! col_name);
  getitem subsector.

(** The loop of [make_sector_fig] over [enumerate(df.columns)], from
    position [idx] on. *)
Fixpoint add_subsector_series (d : DataFrame) (metadata : SectorMetadata)
    (luminance_change : Q) (idx : Z) (cols : list string) (fig : PredictionGraph)
  : result PredictionGraph :=
  match cols with
  | [] => Ok fig
  | col_name :: cols' =>
      if String.eqb col_name "Forecast"
      then add_subsector_series d metadata luminance_change (idx + 1) cols' fig
      else
        name ← subsector_name metadata col_name;
        fig ← add_series fig
                {| arg_df := d; arg_trace_name := Some name;
                   arg_column_name := Some col_name;
                   arg_historical_color := None; arg_forecast_color := None;
                   arg_luminance_change :=
                     Some (luminance_change + (3 # 10) * inject_Z idx)%Q |};
        add_subsector_series d metadata luminance_change (idx + 1) cols' fig
  end.

(** The options [make_sector_fig] builds its graph with. *)
Definition sector_options (name title : string) : GraphOptions :=
  {| sector_name := Some name; title := Some title; unit_name := Some "kt";
     y_max := None; smoothing := true; fill := true; stacked := true;
     allow_nonconsecutive_years := false |}.

Definition make_sector_fig `{Externals} (d : DataFrame) (name : string)
    (metadata : SectorMetadata) : result Figure :=
  title ← getitem (md_name metadata);
  let fig := new_graph (sector_options name title) in
  fig ←
    (if Nat.eqb (length (columns d)) 2 then
       add_series fig
         {| arg_df := d; arg_trace_name := Some "Päästöt";
            arg_column_name := Some EmptyString;
            arg_historical_color := None; arg_forecast_color := None;
            arg_luminance_change := None |}
     else
       let luminance_change := (-3 # 10)%Q in
       add_subsector_series d metadata luminance_change 0 (column_names d) fig);
  get_figure fig.

(** What pages/electricity.py uses from outside: the variable store with
    [set_variable], and the prediction, which reads the store. *)
Class PageExternals := {
  Variables : Type;
  set_variable : string -> Q -> Variables -> Variables;
  predict_electricity_consumption_emissions : Variables -> DataFrame
}.

(** The options of a graph of the electricity page. *)
Definition electricity_options (title unit_name : string) (smoothing : bool)
  : GraphOptions :=
  {| sector_name := Some "ElectricityConsumption"; title := Some title;
     unit_name := Some unit_name; y_max := None; smoothing := smoothing;
     fill := false; stacked := false; allow_nonconsecutive_years := false |}.

(** The arguments of an [add_series] call that names the trace and the
    column and leaves the rest to the defaults. *)
Definition series_args (d : DataFrame) (trace_name column_name : string)
  : SeriesArgs :=
  {| arg_df := d; arg_trace_name := Some trace_name;
     arg_column_name := Some column_name;
     arg_historical_color := None; arg_forecast_color := None;
     arg_luminance_change := None |}.

(** [electricity_consumption_callback(value)]: the store is threaded
    through; the result is the list of the three figures. *)
Definition electricity_consumption_callback `{Externals} `{PageExternals}
    (value : Z) (vars : Variables) : Variables * result (list Figure) :=
  let vars :=
    set_variable "electricity_consumption_per_capita_adjustment"
                 (inject_Z value / 10)%Q vars in
  let df := predict_electricity_consumption_emissions vars in
  (vars,
   let graph :=
     new_graph (electricity_options "Sähkönkulutus asukasta kohti" "kWh/as." false) in
   graph ← add_series graph
             (series_args df "Sähkönkulutus/as." "ElectricityConsumptionPerCapita");
   fig1 ← get_figure graph;
   let graph := new_graph (electricity_options "Kulutussähkön kulutus" "GWh" false) in
   graph ← add_series graph (series_args df "Sähkönkulutus" "ElectricityConsumption");
   fig2 ← get_figure graph;
   let graph :=
     new_graph (electricity_options "Kulutussähkön päästöt" "kt (CO2e)" true) in
   graph ← add_series graph (series_args df "Päästöt" "Emissions");
   fig3 ← get_figure graph;
   Ok [fig1; fig2; fig3]).

End Pages.
Export Pages.

(** ** Vocabulary for the pages *)

Module PagesSpec.

(** The graph [make_sector_fig] hands to [get_figure]: its body up to the
    last line. *)
Definition sector_graph (d : DataFrame) (name : string) (metadata : SectorMetadata)
  : result PredictionGraph :=
  title ← getitem (md_name metadata);
  let fig := new_graph (sector_options name title) in
  if Nat.eqb (length (columns d)) 2 then
    add_series fig
      {| arg_df := d; arg_trace_name := Some "Päästöt";
         arg_column_name := Some EmptyString;
         arg_historical_color := None; arg_forecast_color := None;
         arg_luminance_change := None |}
  else
    add_subsector_series d metadata (-3 # 10)%Q 0 (column_names d) fig.

(** The columns of a frame with their positions, ['Forecast'] left out:
    what the loop of [make_sector_fig] adds a series for. *)
Fixpoint subsector_columns (idx : Z) (cols : list string) : list (Z * string) :=
  match cols with
  | [] => []
  | c :: cols' =>
      if String.eqb c "Forecast" then subsector_columns (idx + 1) cols'
      else (idx, c) :: subsector_columns (idx + 1) cols'
  end.

(** What the loop of [make_sector_fig] has added, one series per column that
    is not ['Forecast']. *)
Definition subsector_series (o : GraphOptions) (metadata : SectorMetadata)
    (luminance : Q) (entry : Z * string) (s : PredictionGraphSeries) : Prop :=
  graph s = o /\
  subsector_name metadata (snd entry) = Ok (default EmptyString (trace_name s)) /\
  trace_name s <> None /\
  luminance_change s = Some (luminance + (3 # 10) * inject_Z (fst entry))%Q /\
  historical_color s = None /\ forecast_color s = None /\
  (snd entry <> EmptyString -> column_name s = Some (snd entry)).

(** Every point of [fig] is a cell of the column [column] of the frame [d],
    at its year: the index label of the cell, the index being the ['Year']
    column when the frame has one. *)
Definition plots (d : DataFrame) (column : string) (fig : Figure) : Prop :=
  exists d' values,
    (d' = d \/ set_index "Year" d = Ok d') /\
    get_column column d' = Ok values /\
    forall t p, In t (data fig) -> In p (y t) -> In p (combine (index d') values).

End PagesSpec.
Export PagesSpec.

(** ** Sample inputs for the pages *)
Module PageSamples.

(** A series of a graph whose sector has no colour in the table. *)
Definition uncoloured : PredictionGraphSeries :=
  series_of plain_graph one_each None None None.

(** Two years without any value. *)
Definition unmeasured : DataFrame :=
  frame [2000; 2001] [false; true] [CNaN; CNaN].

(** A frame without rows. *)
Definition no_rows : DataFrame := frame [] [] [].

(** A series without colours of its own, brightened by more than the
    whole range. *)
Definition overlit : PredictionGraphSeries :=
  series_of stacked_graph one_each None None (Some (12 # 10)%Q).

(** A single projected year and no measurement. *)
Definition projected_only : DataFrame := frame [2000] [true] [CFloat 1].

(** A single measurement in the last year an [int64] can hold. *)
Definition last_year : DataFrame := frame [INT64_MAX] [false] [CFloat 1].

(** The metadata of a sector with two named subsectors. *)
Definition transport_metadata : SectorMetadata :=
  {| md_name := Some "Liikenne";
     md_subsectors :=
       Some {[ "Heating" := Some "Lämmitys"; "Traffic" := Some "Tieliikenne" ]} |}.

(** A variable store and a prediction that scales the projected year by the
    stored adjustment. *)
Definition sample_prediction (vars : gmap string Q) : DataFrame :=
  let adjustment :=
    default 0%Q (vars !! "electricity_consumption_per_capita_adjustment") in
  let projected (base : Q) := CFloat (base * (1 + adjustment / 100))%Q in
  {| index := [2017; 2018; 2019];
     columns :=
       [ ("Forecast", [CBool false; CBool false; CBool true]);
         ("ElectricityConsumptionPerCapita",
           [CFloat 8000; CFloat 7900; projected 7900%Q]);
         ("ElectricityConsumption", [CFloat 5000; CFloat 4950; projected 4950%Q]);
         ("Emissions", [CFloat 600; CFloat 590; projected 590%Q]) ] |}.

Definition sample_page_externals : PageExternals := {|
  Variables := gmap string Q;
  set_variable := fun name value vars => <[name := value]> vars;
  predict_electricity_consumption_emissions := sample_prediction
|}.

End PageSamples.
Export PageSamples.

(** * Properties *)

(** ** Selecting rows *)

Lemma loc_zip_with (p : bool -> Z -> bool) forecast idx values :
  loc (zip_with p forecast idx) idx values
  = map point (List.filter (fun r => p (is_forecast r) (year r)) (rows idx forecast values)).
Proof.
  revert forecast values.
  induction idx as [|i idx IH]; intros forecast values.
  - destruct forecast, values; reflexivity.
  - destruct forecast as [|f forecast]; [reflexivity|].
    destruct values as [|v values].
    + unfold loc. cbn. destruct (p f i); reflexivity.
    + unfold loc in *. cbn. specialize (IH forecast values).
      destruct (p f i); cbn; rewrite IH; reflexivity.
Qed.

Lemma loc_forecast forecast idx values :
  loc forecast idx values
  = map point (List.filter is_forecast (rows idx forecast values)).
Proof.
  revert forecast values.
  induction idx as [|i idx IH]; intros forecast values.
  - destruct forecast, values; reflexivity.
  - destruct forecast as [|f forecast]; [reflexivity|].
    destruct values as [|v values].
    + unfold loc. cbn. destruct f; reflexivity.
    + unfold loc in *. cbn. specialize (IH forecast values).
      destruct f; cbn; rewrite IH; reflexivity.
Qed.

Lemma hist_mask forecast idx start :
  mask_and (mask_not forecast) (index_ge idx start)
  = zip_with (fun f i => negb f && label_ge i start) forecast idx.
Proof.
  unfold mask_and, mask_not, index_ge.
  revert idx. induction forecast as [|f fc IH]; intros [|i idx]; cbn; try reflexivity.
  by rewrite IH.
Qed.

Lemma forecast_mask forecast idx y :
  mask_or forecast (index_eq idx y)
  = zip_with (fun f i => f || label_eq i y) forecast idx.
Proof.
  unfold mask_or, index_eq.
  revert idx. induction forecast as [|f fc IH]; intros [|i idx]; cbn; try reflexivity.
  by rewrite IH.
Qed.

Lemma dropna_points (p : Row -> bool) rs :
  dropna (map point (List.filter p rs))
  = map point (List.filter (fun r => p r && negb (is_nan (value r))) rs).
Proof.
  unfold dropna. induction rs as [|r rs IH]; [reflexivity|].
  cbn. destruct (p r); cbn; [|exact IH].
  destruct (is_nan (value r)); cbn; by rewrite IH.
Qed.

Lemma series_index_points (rs : list Row) : series_index (map point rs) = map year rs.
Proof. unfold series_index. by rewrite map_map. Qed.

Section Traces.
Context `{Externals}.

Ltac solve_segment self index color :=
  unfold segment_trace, expected_fill; cbn [type_ x y name line attrs];
  rewrite ?series_index_points;
  do 4 (split; [reflexivity|]); exists color;
  destruct (stacked self), (fill self), (0 <? index), (smoothing self);
  cbn; repeat split; by simplify_map_eq.

Lemma bind_Ok {A B} (m : result A) (k : A -> result B) (b : B) :
  m ≫= k = Ok b -> exists a, m = Ok a /\ k a = Ok b.
Proof. destruct m as [a|e]; cbn; [eauto | discriminate]. Qed.

Lemma get_traces_for_series_inv self series index hm traces :
  get_traces_for_series self series index hm = Ok traces ->
  exists forecast c values,
    (get_attr "Forecast" (df series) ≫= as_mask) = Ok forecast /\
    column_name series = Some c /\
    get_column c (df series) = Ok values /\
    let rs := rows (Pandas.index (df series)) forecast values in
    let start := start_year self (df series) in
    let hs := List.filter (in_historical start) rs in
    let fs := List.filter (in_forecast (last_hist_year start rs)) rs in
    exists h f : option Trace,
      traces = option_list f ++ option_list h /\
      (h = None <-> hs = []) /\
      (f = None <-> fs = []) /\
      (forall t, h = Some t -> segment_trace self series index false hs t) /\
      (forall t, f = Some t -> segment_trace self series index true fs t).
Proof.
  unfold get_traces_for_series. intros Hrun.
  apply bind_Ok in Hrun as (forecast & Hfc & Hrun).
  apply bind_Ok in Hrun as (values & Hval & Hrun).
  destruct (column_name series) as [c|] eqn:Hc; [|discriminate].
  exists forecast, c, values. split; [exact Hfc|]. split; [reflexivity|].
  split; [exact Hval|]. cbv zeta.
  rewrite hist_mask, loc_zip_with, dropna_points in Hrun.
  fold (start_year self (df series)) in Hrun.
  unfold last_hist_year.
  set (rs := rows (Pandas.index (df series)) forecast values) in *.
  set (start := start_year self (df series)) in *.
  change (List.filter _ rs) with (List.filter (in_historical start) rs) in Hrun.
  apply bind_Ok in Hrun as ([[tr ta] fser] & Hhist & Hrun).
  destruct (List.filter (in_historical start) rs) as [|r hs] eqn:Hhs.
  - (* nothing historical is plotted *)
    cbn in Hhist. injection Hhist as <- <- <-.
    rewrite loc_forecast, dropna_points in Hrun. fold rs in Hrun.
    assert (Hsel : List.filter (fun r => is_forecast r && negb (is_nan (value r))) rs
                   = List.filter (in_forecast (index_max (map year []))) rs).
    { apply List.filter_ext. intros r. unfold in_forecast. cbn.
      by rewrite orb_false_r. }
    rewrite Hsel in Hrun. clear Hsel.
    destruct (List.filter (in_forecast _) rs) as [|r fs] eqn:Hfs.
    + cbn in Hrun. injection Hrun as <-.
      exists None, None. repeat split; try done.
    + cbn [length map Nat.eqb negb] in Hrun.
      apply bind_Ok in Hrun as (color & Hcol & Hrun). injection Hrun as <-.
      eexists None, (Some _). split; [reflexivity|].
      split; [done|]. split; [done|]. split; [done|].
      intros t [= <-]. solve_segment self index color.
  - (* a historical trace is emitted *)
    cbn [length map Nat.eqb negb] in Hhist.
    apply bind_Ok in Hhist as (hc & Hhc & Hhist). injection Hhist as <- <- <-.
    rewrite forecast_mask, loc_zip_with, dropna_points in Hrun. fold rs in Hrun.
    rewrite series_index_points in Hrun.
    change (List.filter _ rs)
      with (List.filter (in_forecast (index_max (map year (r :: hs)))) rs) in Hrun.
    destruct (List.filter (in_forecast _) rs) as [|r' fs] eqn:Hfs.
    + cbn in Hrun. injection Hrun as <-.
      eexists (Some _), None. split; [reflexivity|].
      split; [done|]. split; [done|]. split; [|done].
      intros t [= <-]. solve_segment self index hc.
    + cbn [length map Nat.eqb negb] in Hrun.
      apply bind_Ok in Hrun as (color & Hcol & Hrun). injection Hrun as <-.
      eexists (Some _), (Some _). split; [reflexivity|].
      split; [done|]. split; [done|].
      split; intros t [= <-];
        [solve_segment self index hc | solve_segment self index color].
Qed.
End Traces.

(** ** Minimum and maximum of an index *)

Lemma fold_min_spec (l : list Z) (a : Z) : is_min (fold_left Z.min l a) (a :: l).
Proof.
  revert a. induction l as [|b l IH]; intros a; cbn [fold_left].
  - split; [by left|]. intros z [Hz|[]]. lia.
  - destruct (IH (Z.min a b)) as [Hin Hle]. split.
    + destruct Hin as [Heq|Hin]; [|by right; right].
      rewrite <- Heq. destruct (Z.min_spec a b) as [[_ ->]|[_ ->]]; [by left|by right; left].
    + intros z [Hz|[Hz|Hz]].
      * specialize (Hle (Z.min a b) (or_introl eq_refl)). lia.
      * specialize (Hle (Z.min a b) (or_introl eq_refl)). lia.
      * apply Hle. by right.
Qed.

Lemma fold_max_spec (l : list Z) (a : Z) : is_max (fold_left Z.max l a) (a :: l).
Proof.
  revert a. induction l as [|b l IH]; intros a; cbn [fold_left].
  - split; [by left|]. intros z [Hz|[]]. lia.
  - destruct (IH (Z.max a b)) as [Hin Hle]. split.
    + destruct Hin as [Heq|Hin]; [|by right; right].
      rewrite <- Heq. destruct (Z.max_spec a b) as [[_ ->]|[_ ->]]; [by right; left|by left].
    + intros z [Hz|[Hz|Hz]].
      * specialize (Hle (Z.max a b) (or_introl eq_refl)). lia.
      * specialize (Hle (Z.max a b) (or_introl eq_refl)). lia.
      * apply Hle. by right.
Qed.

Lemma index_min_Int (idx : list Z) (m : Z) : index_min idx = Int m <-> is_min m idx.
Proof.
  destruct idx as [|a l]; cbn.
  - split; [discriminate|]. by intros [[] _].
  - pose proof (fold_min_spec l a) as [Hin Hle]. split.
    + intros [= <-]. by split.
    + intros [Hin' Hle']. f_equal.
      specialize (Hle _ Hin'). specialize (Hle' _ Hin). lia.
Qed.

Lemma index_max_Int (idx : list Z) (m : Z) : index_max idx = Int m <-> is_max m idx.
Proof.
  destruct idx as [|a l]; cbn.
  - split; [discriminate|]. by intros [[] _].
  - pose proof (fold_max_spec l a) as [Hin Hle]. split.
    + intros [= <-]. by split.
    + intros [Hin' Hle']. f_equal.
      specialize (Hle _ Hin'). specialize (Hle' _ Hin). lia.
Qed.

Lemma index_min_NaN (idx : list Z) : index_min idx = NaN <-> idx = [].
Proof. destruct idx; cbn; split; congruence. Qed.

Lemma index_max_NaN (idx : list Z) : index_max idx = NaN <-> idx = [].
Proof. destruct idx; cbn; split; congruence. Qed.

Lemma rows_year_In idx forecast values r :
  In r (rows idx forecast values) -> In (year r) idx.
Proof.
  revert forecast values.
  induction idx as [|i idx IH]; intros [|f fc] [|v vs]; cbn; try tauto.
  intros [<-|Hr]; [by left|]. right. eauto.
Qed.

Lemma label_eq_Int (i : Z) (y : num) : label_eq i y = true <-> y = Int i.
Proof.
  destruct y as [z|]; cbn; [|split; discriminate].
  rewrite Z.eqb_eq. split; [by intros ->|by intros [= ->]].
Qed.

Lemma last_hist_year_ge start rs m :
  last_hist_year start rs = Int m -> label_ge m start = true.
Proof.
  unfold last_hist_year. intros Hm. apply index_max_Int in Hm as [Hin _].
  apply in_map_iff in Hin as (r & <- & Hr).
  apply filter_In in Hr as [_ Hr]. unfold in_historical in Hr.
  by apply andb_prop in Hr as [[_ ?]%andb_prop _].
Qed.

Lemma string_length_app (s t : string) :
  String.length (s +:+ t) = (String.length s + String.length t)%nat.
Proof. induction s as [|a s IH]; simpl; [reflexivity|by rewrite IH]. Qed.

Lemma forecast_name_differs (tn : option string) :
  tn <> Some (str_opt tn +:+ " (enn.)").
Proof.
  destruct tn as [s|]; [|discriminate]. cbn. intros [= Heq].
  apply (f_equal String.length) in Heq. rewrite string_length_app in Heq.
  cbn in Heq. lia.
Qed.

Lemma filter_nonempty {A} (p : A -> bool) (l : list A) :
  List.filter p l <> [] <-> exists a, In a l /\ p a = true.
Proof.
  split.
  - destruct (List.filter p l) as [|a l'] eqn:Hf; [done|]. intros _.
    exists a. apply filter_In. rewrite Hf. by left.
  - intros (a & Ha & Hp) Hnil.
    assert (Hin : In a (List.filter p l)) by (apply filter_In; done).
    by rewrite Hnil in Hin.
Qed.

Lemma option_not_None {A} (o : option A) : is_Some o <-> o <> None.
Proof. destruct o; split; done. Qed.

Section TraceProperties.
Context `{Externals}.

(** C1 (amended).  [get_traces_for_series] splits the rows by the
    [Forecast] flag, except that the rows of the last historical year are
    repeated in the forecast trace: every plotted row with [Forecast] false
    is in the historical trace, every plotted row with [Forecast] true is in
    the forecast trace, and a row is in both traces exactly when it is a
    row of the historical trace whose year is the last historical year. *)
Theorem traces_partition_by_forecast_flag self series index hm traces :
  get_traces_for_series self series index hm = Ok traces ->
  exists forecast c values (h f : option Trace),
    get_attr "Forecast" (df series) ≫= as_mask = Ok forecast /\
    column_name series = Some c /\
    get_column c (df series) = Ok values /\
    traces = option_list f ++ option_list h /\
    let rs := rows (Pandas.index (df series)) forecast values in
    let start := start_year self (df series) in
    let last := last_hist_year start rs in
    (h = None <-> List.filter (in_historical start) rs = []) /\
    (forall t, h = Some t -> y t = map point (List.filter (in_historical start) rs)) /\
    (f = None <-> List.filter (in_forecast last) rs = []) /\
    (forall t, f = Some t -> y t = map point (List.filter (in_forecast last) rs)) /\
    forall r, In r rs ->
      let plotted := in_historical start r || in_forecast last r in
      (plotted = true -> is_forecast r = false -> in_historical start r = true) /\
      (plotted = true -> is_forecast r = true -> in_forecast last r = true) /\
      (in_historical start r = true /\ in_forecast last r = true
       <-> in_historical start r = true /\ last = Int (year r)).
Proof.
  intros Hrun.
  apply get_traces_for_series_inv in Hrun
    as (forecast & c & values & Hfc & Hc & Hval & h & f & Htr & Hh & Hf & Hht & Hft).
  exists forecast, c, values, h, f.
  do 4 (split; [assumption|]). cbv zeta.
  split; [exact Hh|]. split; [intros t Ht; by apply (Hht t Ht)|].
  split; [exact Hf|]. split; [intros t Ht; by apply (Hft t Ht)|].
  intros r Hr.
  set (start := start_year self (df series)).
  set (rs := rows _ forecast values) in *.
  split; [|split].
  - intros Hp Hnf. apply orb_prop in Hp as [Hp|Hp]; [exact Hp|].
    unfold in_forecast in Hp. rewrite Hnf in Hp. cbn in Hp.
    apply andb_prop in Hp as [Heq Hnan]. apply label_eq_Int in Heq.
    apply last_hist_year_ge in Heq.
    unfold in_historical. by rewrite Hnf, Heq, Hnan.
  - intros Hp Hfr. apply orb_prop in Hp as [Hp|Hp]; [|exact Hp].
    unfold in_historical in Hp. by rewrite Hfr in Hp.
  - split.
    + intros [Hhist Hfore]. split; [exact Hhist|].
      unfold in_historical in Hhist. unfold in_forecast in Hfore.
      destruct (is_forecast r); [done|]. cbn in Hfore.
      apply andb_prop in Hfore as [Heq _]. by apply label_eq_Int.
    + intros [Hhist Hlast]. split; [exact Hhist|].
      unfold in_forecast. apply label_eq_Int in Hlast. rewrite Hlast.
      unfold in_historical in Hhist. apply andb_prop in Hhist as [_ ->].
      by rewrite orb_true_r.
Qed.

(** C4 (amended).  [get_traces_for_series] returns at most two traces, the
    forecast trace before the historical one.  The historical trace, named
    [trace_name], is emitted exactly when some row of the historical
    segment (not forecast, not before the start year) has a value; the
    forecast trace, named [trace_name] followed by [' (enn.)'], is emitted
    exactly when a historical trace is emitted or some forecast row has a
    value, and it plots the forecast rows together with the rows of the
    last historical year.  The two names differ. *)
Theorem traces_per_segment self series index hm traces :
  get_traces_for_series self series index hm = Ok traces ->
  exists forecast c values (h f : option Trace),
    get_attr "Forecast" (df series) ≫= as_mask = Ok forecast /\
    column_name series = Some c /\
    get_column c (df series) = Ok values /\
    traces = option_list f ++ option_list h /\
    (length traces <= 2)%nat /\
    let rs := rows (Pandas.index (df series)) forecast values in
    let start := start_year self (df series) in
    let last := last_hist_year start rs in
    (is_Some h <->
       exists r, In r rs /\ is_forecast r = false /\
                 label_ge (year r) start = true /\ is_nan (value r) = false) /\
    (is_Some f <->
       is_Some h \/
       exists r, In r rs /\ is_forecast r = true /\ is_nan (value r) = false) /\
    (forall t, h = Some t ->
       name t = trace_name series /\
       y t = map point (List.filter (in_historical start) rs)) /\
    (forall t, f = Some t ->
       name t = Some (str_opt (trace_name series) +:+ " (enn.)") /\
       y t = map point (List.filter (in_forecast last) rs)) /\
    trace_name series <> Some (str_opt (trace_name series) +:+ " (enn.)").
Proof.
  intros Hrun.
  apply get_traces_for_series_inv in Hrun
    as (forecast & c & values & Hfc & Hc & Hval & h & f & Htr & Hh & Hf & Hht & Hft).
  exists forecast, c, values, h, f.
  do 4 (split; [assumption|]).
  split; [subst traces; destruct h, f; cbn; lia|]. cbv zeta.
  set (start := start_year self (df series)) in *.
  set (rs := rows _ forecast values) in *.
  assert (Hhs : is_Some h <->
    exists r, In r rs /\ is_forecast r = false /\
              label_ge (year r) start = true /\ is_nan (value r) = false).
  { rewrite option_not_None, Hh, filter_nonempty.
    split; intros (r & Hr & Hsel); exists r; split; try done.
    - unfold in_historical in Hsel.
      apply andb_prop in Hsel as [[Hf'%negb_true_iff Hge]%andb_prop Hn%negb_true_iff].
      done.
    - destruct Hsel as (Hf' & Hge & Hn). unfold in_historical.
      by rewrite Hf', Hge, Hn. }
  split; [exact Hhs|].
  split.
  { rewrite (option_not_None f), Hf, filter_nonempty. split.
    - intros (r & Hr & Hsel). unfold in_forecast in Hsel.
      apply andb_prop in Hsel as [Hor Hn%negb_true_iff].
      apply orb_prop in Hor as [Hfr|Heq].
      + right. by exists r.
      + left. apply Hhs. apply label_eq_Int in Heq.
        unfold last_hist_year in Heq. apply index_max_Int in Heq as [Hin _].
        apply in_map_iff in Hin as (r' & Hy & Hr').
        apply filter_In in Hr' as [Hr' Hsel]. exists r'. split; [done|].
        unfold in_historical in Hsel.
        apply andb_prop in Hsel as [[Hf'%negb_true_iff Hge]%andb_prop Hn'%negb_true_iff].
        done.
    - intros [Hsome|(r & Hr & Hfr & Hn)].
      + apply option_not_None in Hsome. rewrite Hh in Hsome.
        destruct (index_max (map year (List.filter (in_historical start) rs)))
          as [m|] eqn:Hmax.
        * pose proof Hmax as Hmax'. apply index_max_Int in Hmax as [Hin _].
          apply in_map_iff in Hin as (r' & Hy & Hr').
          apply filter_In in Hr' as [Hr' Hsel]. exists r'. split; [done|].
          unfold in_forecast, last_hist_year. fold rs. rewrite Hmax', <- Hy.
          cbn. rewrite Z.eqb_refl, orb_true_r. cbn.
          unfold in_historical in Hsel. by apply andb_prop in Hsel as [_ ?].
        * apply index_max_NaN in Hmax.
          destruct (List.filter (in_historical start) rs); [done|discriminate].
      + exists r. split; [done|]. unfold in_forecast. by rewrite Hfr, Hn. }
  split; [intros t Ht; destruct (Hht t Ht) as (_ & _ & ? & ? & _); done|].
  split; [intros t Ht; destruct (Hft t Ht) as (_ & _ & ? & ? & _); done|].
  apply forecast_name_differs.
Qed.

(** C5.  Stacking and filling rules.  The traces returned are the
    forecast trace and the historical trace, each present exactly when its
    segment has a plotted row; a stacked graph gives the traces of every
    series after the first [fill='tonexty'], otherwise a stacked or filled
    graph gives [fill='tozeroy']; the mode is ['none'] when [fill] is set
    and ['lines'] otherwise; without [fill] the forecast line is dashed and
    the historical line carries no dash. *)
Theorem stacking_and_filling_rules self series index hm traces :
  get_traces_for_series self series index hm = Ok traces ->
  exists forecast c values (h f : option Trace),
    get_attr "Forecast" (df series) ≫= as_mask = Ok forecast /\
    column_name series = Some c /\
    get_column c (df series) = Ok values /\
    traces = option_list f ++ option_list h /\
    let rs := rows (Pandas.index (df series)) forecast values in
    let start := start_year self (df series) in
    (h = None <-> List.filter (in_historical start) rs = []) /\
    (f = None <-> List.filter (in_forecast (last_hist_year start rs)) rs = []) /\
    (forall t, h = Some t -> name t = trace_name series) /\
    (forall t, f = Some t ->
       name t = Some (str_opt (trace_name series) +:+ " (enn.)")) /\
    (forall t, In t traces ->
       (stacked self = true -> 0 < index -> attrs t !! "fill" = Some "tonexty") /\
       (stacked self = true /\ index <= 0 \/ stacked self = false /\ fill self = true ->
        attrs t !! "fill" = Some "tozeroy") /\
       (fill self = true -> attrs t !! "mode" = Some "none") /\
       (fill self = false -> attrs t !! "mode" = Some "lines")) /\
    (fill self = false ->
       (forall t, f = Some t -> line t !! "dash" = Some (PStr "dash")) /\
       (forall t, h = Some t -> line t !! "dash" = None)).
Proof.
  intros Hrun.
  apply get_traces_for_series_inv in Hrun
    as (forecast & c & values & Hfc & Hc & Hval & h & f & Htr & Hh & Hf & Hht & Hft).
  exists forecast, c, values, h, f. do 3 (split; [assumption|]).
  split; [exact Htr|]. cbv zeta. split; [exact Hh|]. split; [exact Hf|].
  split; [intros t Ht; destruct (Hht t Ht) as (_ & _ & _ & ? & _); done|].
  split; [intros t Ht; destruct (Hft t Ht) as (_ & _ & _ & ? & _); done|].
  split.
  - intros t Ht.
    assert (Hattrs : attrs t !! "fill" = expected_fill self index /\
                     attrs t !! "mode" = Some (if fill self then "none" else "lines")).
    { subst traces. apply in_app_or in Ht as [Ht|Ht].
      - destruct f as [t'|]; [|done]. destruct Ht as [<-|[]].
        destruct (Hft t' eq_refl) as (_ & _ & _ & _ & col & _ & _ & _ & _ & ? & ? & _).
        done.
      - destruct h as [t'|]; [|done]. destruct Ht as [<-|[]].
        destruct (Hht t' eq_refl) as (_ & _ & _ & _ & col & _ & _ & _ & _ & ? & ? & _).
        done. }
    destruct Hattrs as [-> ->]. unfold expected_fill.
    repeat split.
    + intros -> Hidx. apply Z.ltb_lt in Hidx. by rewrite Hidx.
    + intros [[-> Hidx]|[-> ->]]; [|done].
      apply Z.ltb_ge in Hidx. by rewrite Hidx.
    + by intros ->.
    + by intros ->.
  - intros Hfill. split; intros t Ht.
    + destruct (Hft t Ht) as (_ & _ & _ & _ & col & _ & _ & _ & -> & _).
      by rewrite Hfill.
    + destruct (Hht t Ht) as (_ & _ & _ & _ & col & _ & _ & _ & -> & _).
      done.
Qed.


(** [get_traces_for_series] returns whenever the frame has a boolean
    [Forecast] column and the plotted column, and both colours resolve. *)
Lemma get_traces_for_series_total self series index hm forecast c values hc fc :
  get_attr "Forecast" (df series) ≫= as_mask = Ok forecast ->
  column_name series = Some c ->
  get_column c (df series) = Ok values ->
  get_color series false = Ok hc ->
  get_color series true = Ok fc ->
  exists traces, get_traces_for_series self series index hm = Ok traces.
Proof.
  intros Hfc Hc Hval Hhc Hfcol. unfold get_traces_for_series.
  rewrite Hfc, Hc. cbn. rewrite Hval. cbn. rewrite Hhc, Hfcol.
  repeat (match goal with |- context [if ?b then _ else _] => destruct b end;
          cbn; eauto).
Qed.
End TraceProperties.

(** ** Colours *)

Section ColourProperties.
Context `{Externals}.

Lemma set_luminance_id (c : Color) : set_luminance (luminance c) c = c.
Proof. by destruct c. Qed.

Lemma Qlt_bool_iff (a b : Q) : Qlt_bool a b = true <-> (a < b)%Q.
Proof.
  unfold Qlt_bool. rewrite negb_true_iff. split.
  - intros Hle. apply Qnot_le_lt. intros Hba.
    apply Qle_bool_iff in Hba. congruence.
  - intros Hlt. destruct (Qle_bool b a) eqn:Hle; [|reflexivity].
    apply Qle_bool_iff in Hle. exfalso. by apply (Qlt_not_le a b).
Qed.

Lemma in_unit_range_iff (v : Q) :
  in_unit_range v = true <-> (0 - FLOAT_ERROR <= v <= 1 + FLOAT_ERROR)%Q.
Proof.
  unfold in_unit_range. rewrite andb_true_iff, !Qle_bool_iff. reflexivity.
Qed.

Lemma blend_lt (c l : Q) : (c < 0)%Q -> blend c l = (l * (1 + c))%Q.
Proof. intros Hc. unfold blend. apply Qlt_bool_iff in Hc. by rewrite Hc. Qed.

Lemma blend_gt (c l : Q) : (0 < c)%Q -> blend c l = (l + (1 - l) * c)%Q.
Proof.
  intros Hc. unfold blend.
  destruct (Qlt_bool c 0) eqn:Hneg.
  - apply Qlt_bool_iff in Hneg. exfalso. apply (Qlt_irrefl 0).
    by apply Qlt_trans with c.
  - apply Qlt_bool_iff in Hc. by rewrite Hc.
Qed.

Lemma blend_zero (c l : Q) : (c == 0)%Q -> blend c l = l.
Proof.
  intros Hc. unfold blend.
  destruct (Qlt_bool c 0) eqn:Hneg.
  { apply Qlt_bool_iff in Hneg. rewrite Hc in Hneg. by apply Qlt_irrefl in Hneg. }
  destruct (Qlt_bool 0 c) eqn:Hpos; [|reflexivity].
  apply Qlt_bool_iff in Hpos. rewrite Hc in Hpos. by apply Qlt_irrefl in Hpos.
Qed.

(** On a parsed colour whose luminance was set, only the luminance decides
    whether [.hex] raises. *)
Lemma get_hex_set_luminance (web : string) (base : Color) (l : Q) :
  Color_new web = Ok base ->
  get_hex (set_luminance l base) =
    if in_unit_range l then Ok (Color_hex (set_luminance l base))
    else Raise ValueError.
Proof.
  intros Hbase. destruct (Color_new_valid web base Hbase) as [Hsat _].
  unfold get_hex. cbn. rewrite Hsat. cbn. by destruct (in_unit_range l).
Qed.

(** The luminance steps of [get_color] compute [derived_luminance]. *)
Lemma get_color_derived (s : PredictionGraphSeries) (forecast : bool) :
  truthy_str (if forecast then forecast_color s else historical_color s) = false ->
  get_color s forecast =
    base ← (if forecast && truthy_str (historical_color s)
            then Color_new (default EmptyString (historical_color s))
            else match sector_name (graph s) ≫= (GHG_MAIN_SECTOR_COLORS !!.) with
                 | Some web => Color_new web
                 | None => Raise KeyError
                 end);
    get_hex (set_luminance
               (derived_luminance (luminance_change s) forecast (luminance base))
               base).
Proof.
  intros Hexp. unfold get_color. rewrite Hexp.
  match goal with |- ?m ≫= _ = ?m ≫= _ => destruct m as [base|e] end;
    [|reflexivity].
  cbn -[get_hex]. do 2 f_equal. unfold derived_luminance, get_luminance.
  destruct (luminance_change s) as [c|]; cbn.
  - destruct (Qeq_bool c 0) eqn:Hz; cbn.
    + apply Qeq_bool_iff in Hz. rewrite (blend_zero _ _ Hz).
      destruct forecast; [reflexivity|]. by rewrite set_luminance_id.
    + assert (Hblend : blend c (luminance base)
                       = if Qlt_bool c 0 then (luminance base * (1 + c))%Q
                         else (luminance base + (1 - luminance base) * c)%Q).
      { unfold blend. destruct (Qlt_bool c 0) eqn:Hneg; [reflexivity|].
        destruct (Qlt_bool 0 c) eqn:Hpos; [reflexivity|]. exfalso.
        unfold Qlt_bool in Hneg, Hpos.
        apply negb_false_iff, Qle_bool_iff in Hneg, Hpos.
        apply Qeq_bool_neq in Hz. apply Hz. by apply Qle_antisym. }
      rewrite Hblend. by destruct forecast.
  - destruct forecast; [reflexivity|]. by rewrite set_luminance_id.
Qed.

(** C2 (amended).  Without an explicit colour for the requested segment,
    the colour is the base colour with its luminance [l] blended by
    [luminance_change] [c] -- [l * (1 + c)] when [c < 0] and
    [l + (1 - l) * c] when [c > 0], unchanged otherwise -- and, for the
    forecast segment, lightened afterwards to [l + (1 - l) * 0.3]; the hex
    form of that colour is returned when the resulting luminance lies
    between 0 and 1 (up to the library's allowance for rounding), and
    [ValueError] is raised when it does not. *)
Theorem get_color_luminance_blend (s : PredictionGraphSeries) (forecast : bool)
    (web : string) (base : Color) :
  truthy_str (if forecast then forecast_color s else historical_color s) = false ->
  (if forecast && truthy_str (historical_color s)
   then historical_color s
   else sector_name (graph s) ≫= (GHG_MAIN_SECTOR_COLORS !!.)) = Some web ->
  Color_new web = Ok base ->
  exists l1 l2 : Q,
    (forall c, luminance_change s = Some c -> (c < 0)%Q ->
               l1 = (luminance base * (1 + c))%Q) /\
    (forall c, luminance_change s = Some c -> (0 < c)%Q ->
               l1 = (luminance base + (1 - luminance base) * c)%Q) /\
    (luminance_change s = None \/
     (exists c, luminance_change s = Some c /\ (c == 0)%Q) ->
     l1 = luminance base) /\
    l2 = (if forecast then (l1 + (1 - l1) * (3 # 10))%Q else l1) /\
    ((0 - FLOAT_ERROR <= l2 <= 1 + FLOAT_ERROR)%Q ->
     get_color s forecast = Ok (Color_hex (set_luminance l2 base))) /\
    (~ (0 - FLOAT_ERROR <= l2 <= 1 + FLOAT_ERROR)%Q ->
     get_color s forecast = Raise ValueError).
Proof.
  intros Hexp Hweb Hbase.
  exists (match luminance_change s with
          | Some c => blend c (luminance base)
          | None => luminance base
          end).
  eexists. split; [|split; [|split; [|split; [reflexivity|]]]].
  - intros c -> Hc. by apply blend_lt.
  - intros c -> Hc. by apply blend_gt.
  - intros [->|(c & -> & Hc)]; [reflexivity|by apply blend_zero].
  - assert (Hrun : forall l2,
              l2 = derived_luminance (luminance_change s) forecast (luminance base) ->
              get_color s forecast =
                if in_unit_range l2 then Ok (Color_hex (set_luminance l2 base))
                else Raise ValueError).
    { intros l2 ->. rewrite (get_color_derived s forecast Hexp).
      destruct (forecast && truthy_str (historical_color s)).
      - rewrite Hweb. cbn -[get_hex]. rewrite Hbase. cbn -[get_hex].
        by apply get_hex_set_luminance with web.
      - rewrite Hweb. rewrite Hbase. cbn -[get_hex].
        by apply get_hex_set_luminance with web. }
    pose proof (Hrun _ eq_refl) as Hget.
    unfold derived_luminance, lighten in Hget. cbv zeta in Hget.
    destruct (in_unit_range _) eqn:Hin in Hget; rewrite Hget; split; try done.
    + intros Hout. by apply in_unit_range_iff in Hin.
    + intros Hok. apply in_unit_range_iff in Hok. congruence.
Qed.

(** C6.  On a graph whose sector has an entry in [GHG_MAIN_SECTOR_COLORS],
    a series with neither colour set takes that entry as the base colour of
    both segments; with only [historical_color] set, the historical colour
    is used as given and the forecast colour is derived from it, whatever
    the sector colour is. *)
Theorem get_color_base_colour (s : PredictionGraphSeries) (sector web : string) :
  sector_name (graph s) = Some sector ->
  GHG_MAIN_SECTOR_COLORS !! sector = Some web ->
  (truthy_str (historical_color s) = false ->
   truthy_str (forecast_color s) = false ->
   forall forecast,
     get_color s forecast =
       base ← Color_new web;
       get_hex (set_luminance
                  (derived_luminance (luminance_change s) forecast (luminance base))
                  base)) /\
  (forall hist,
     historical_color s = Some hist ->
     truthy_str (historical_color s) = true ->
     truthy_str (forecast_color s) = false ->
     get_color s false = Ok hist /\
     get_color s true =
       base ← Color_new hist;
       get_hex (set_luminance
                  (derived_luminance (luminance_change s) true (luminance base))
                  base)).
Proof.
  intros Hsec Htab. split.
  - intros Hh Hf forecast.
    rewrite get_color_derived by (destruct forecast; assumption).
    rewrite Hh, andb_false_r, Hsec. cbn. by rewrite Htab.
  - intros hist Hhist Hh Hf. split.
    + unfold get_color. rewrite Hh, Hhist. reflexivity.
    + rewrite get_color_derived by exact Hf.
      rewrite Hh, Hhist. reflexivity.
Qed.
End ColourProperties.

(** ** Construction of a series *)

Lemma list_remove_without (x : string) (l : list string) :
  list_mem x l = true -> list_remove x l = Ok (without x l).
Proof.
  unfold list_mem. induction l as [|a l IH]; cbn; [discriminate|].
  destruct (String.eqb x a); [reflexivity|]. cbn. intros Hmem.
  by rewrite (IH Hmem).
Qed.

Lemma without_absent (x : string) (l : list string) :
  list_mem x l = false -> without x l = l.
Proof.
  unfold list_mem. induction l as [|a l IH]; cbn; [reflexivity|].
  destruct (String.eqb x a); [discriminate|]. cbn. intros Hmem.
  by rewrite (IH Hmem).
Qed.

Lemma list_mem_without (x z : string) (l : list string) :
  x <> z -> list_mem x (without z l) = list_mem x l.
Proof.
  intros Hne. unfold list_mem. induction l as [|a l IH]; cbn; [reflexivity|].
  destruct (String.eqb_spec z a) as [<-|Hza]; cbn.
  - destruct (String.eqb_spec x z); [done|reflexivity].
  - by rewrite IH.
Qed.

Lemma list_mem_dict_get {V} (x : string) (d : list (string * V)) :
  list_mem x (map fst d) = true -> exists v, dict_get x d = Some v.
Proof.
  unfold list_mem. induction d as [|[k v] d IH]; cbn; [discriminate|].
  destruct (String.eqb x k); [eauto|]. cbn. exact IH.
Qed.

Lemma traverse_as_year (years : list Z) : traverse as_year (map CInt years) = Ok years.
Proof. induction years as [|z l IH]; cbn; [reflexivity|]. by rewrite IH. Qed.

Lemma set_index_Year (d : DataFrame) :
  integer_years d ->
  list_mem "Year" (column_names d) = true ->
  exists years,
    dict_get "Year" (columns d) = Some (map CInt years) /\
    set_index "Year" d
    = Ok {| index := years; columns := drop_column "Year" (columns d) |}.
Proof.
  intros Hint Hmem. apply list_mem_dict_get in Hmem as [col Hcol].
  destruct (Hint col Hcol) as [years ->]. exists years. split; [exact Hcol|].
  unfold set_index, get_column. rewrite Hcol. cbn.
  by rewrite traverse_as_year.
Qed.

(** C10 (amended).  With a non-empty string [column_name], constructing a
    series fails exactly when the frame has no ['Forecast'] column, and the
    failure is an assertion error.  With [column_name] missing or empty,
    construction also fails unless exactly one column is left once
    ['Forecast'] and ['Year'] are removed, and that column becomes
    [column_name].  A ['Year'] column, when present, becomes the index of the
    frame and leaves its columns. *)
Theorem series_construction (s : PredictionGraphSeries) :
  integer_years (df s) ->
  let names := column_names (df s) in
  let rest := remaining_columns (df s) in
  (list_mem "Forecast" names = false -> post_init s = Raise AssertionError) /\
  (truthy_str (column_name s) = true ->
     (list_mem "Forecast" names = true <-> exists s', post_init s = Ok s') /\
     (forall s', post_init s = Ok s' -> column_name s' = column_name s)) /\
  (truthy_str (column_name s) = false ->
     list_mem "Forecast" names = true ->
     (length rest <> 1%nat -> post_init s = Raise AssertionError) /\
     (forall c, rest = [c] ->
        exists s', post_init s = Ok s' /\ column_name s' = Some c)) /\
  (forall s', post_init s = Ok s' ->
     graph s' = graph s /\ trace_name s' = trace_name s /\
     historical_color s' = historical_color s /\
     forecast_color s' = forecast_color s /\
     luminance_change s' = luminance_change s /\
     (list_mem "Year" names = false -> df s' = df s) /\
     (list_mem "Year" names = true ->
        exists years,
          dict_get "Year" (columns (df s)) = Some (map CInt years) /\
          index (df s') = years /\
          columns (df s') = drop_column "Year" (columns (df s)))).
Proof.
  intros Hint names rest.
  assert (Hnofc : list_mem "Forecast" names = false -> post_init s = Raise AssertionError).
  { intros Hno. unfold post_init. fold names. by rewrite Hno. }
  assert (Hrun : list_mem "Forecast" names = true ->
    post_init s =
      '(self, col_names) ←
        (if list_mem "Year" names
         then d ← set_index "Year" (df s); Ok (with_df s d, rest)
         else Ok (s, rest));
      if negb (truthy_str (column_name self)) then
        _ ← assert (Nat.eqb (length col_names) 1);
        Ok (with_column_name self (head col_names))
      else Ok self).
  { intros Hfc. unfold post_init. fold names. rewrite Hfc. cbn.
    rewrite (list_remove_without _ _ Hfc). cbn.
    rewrite (list_mem_without "Year" "Forecast") by done. fold names.
    destruct (list_mem "Year" names) eqn:Hyear; [|unfold rest, remaining_columns;
      fold names; rewrite (without_absent "Year");
      [reflexivity|by rewrite list_mem_without]].
    destruct (set_index "Year" (df s)) as [d|e]; [|reflexivity]. cbn.
    rewrite list_remove_without by (by rewrite list_mem_without).
    reflexivity. }
  assert (Hstep : list_mem "Forecast" names = true ->
    exists s1,
      (if list_mem "Year" names
       then d ← set_index "Year" (df s); Ok (with_df s d, rest)
       else Ok (s, rest)) = Ok (s1, rest) /\
      column_name s1 = column_name s /\ graph s1 = graph s /\
      trace_name s1 = trace_name s /\ historical_color s1 = historical_color s /\
      forecast_color s1 = forecast_color s /\ luminance_change s1 = luminance_change s /\
      (list_mem "Year" names = false -> df s1 = df s) /\
      (list_mem "Year" names = true ->
        exists years,
          dict_get "Year" (columns (df s)) = Some (map CInt years) /\
          index (df s1) = years /\
          columns (df s1) = drop_column "Year" (columns (df s)))).
  { intros Hfc. destruct (list_mem "Year" names) eqn:Hyear.
    - destruct (set_index_Year (df s) Hint Hyear) as (years & Hcol & ->).
      cbn. eexists. split; [reflexivity|]. cbn. repeat split; try done.
      intros _. by exists years.
    - exists s. repeat split; done. }
  split; [exact Hnofc|]. split; [|split].
  - intros Htruthy. split.
    + split.
      * intros Hfc. destruct (Hstep Hfc) as (s1 & Hs1 & Hcn & _).
        rewrite (Hrun Hfc), Hs1. cbn. rewrite Hcn, Htruthy. cbn. eauto.
      * intros [s' Hs']. destruct (list_mem "Forecast" names); [done|].
        rewrite (Hnofc eq_refl) in Hs'. discriminate.
    + intros s' Hs'.
      assert (Hfc : list_mem "Forecast" names = true).
      { destruct (list_mem "Forecast" names); [reflexivity|].
        rewrite (Hnofc eq_refl) in Hs'. discriminate. }
      destruct (Hstep Hfc) as (s1 & Hs1 & Hcn & _).
      rewrite (Hrun Hfc), Hs1 in Hs'. cbn in Hs'. rewrite Hcn, Htruthy in Hs'.
      cbn in Hs'. injection Hs' as <-. exact Hcn.
  - intros Hfalsy Hfc. destruct (Hstep Hfc) as (s1 & Hs1 & Hcn & _).
    rewrite (Hrun Hfc), Hs1. cbn. rewrite Hcn, Hfalsy. cbn. split.
    + intros Hlen. destruct rest as [|c [|c' rest']]; cbn in *; done.
    + intros c ->. cbn. eauto.
  - intros s' Hs'.
    assert (Hfc : list_mem "Forecast" names = true).
    { destruct (list_mem "Forecast" names); [reflexivity|].
      rewrite (Hnofc eq_refl) in Hs'. discriminate. }
    destruct (Hstep Hfc) as (s1 & Hs1 & Hcn & Hg & Htn & Hhc & Hfcol & Hlc & Hdf1 & Hdf2).
    rewrite (Hrun Hfc), Hs1 in Hs'. cbn in Hs'.
    destruct (negb (truthy_str (column_name s1))).
    + destruct (Nat.eqb (length rest) 1); [|discriminate]. cbn in Hs'.
      injection Hs' as <-. cbn. repeat split; done.
    + injection Hs' as <-. repeat split; done.
Qed.

(** ** The year range kept by [add_series] *)

Lemma loc_index_In (mask : list bool) (idx : list Z) (z : Z) :
  In z (loc_index mask idx) -> In z idx.
Proof.
  unfold loc_index. revert idx.
  induction mask as [|b mask IH]; intros [|i idx]; cbn; try tauto.
  destruct b; cbn.
  - intros [<-|Hz]; [by left|right; eauto].
  - intros Hz. right. eauto.
Qed.

Lemma is_min_snoc (m : Z) (l : list Z) (a : Z) :
  is_min m l -> is_min (if a <? m then a else m) (l ++ [a]).
Proof.
  intros [Hin Hle]. destruct (Z.ltb_spec a m) as [Hlt|Hge]; split.
  - apply in_or_app. right. by left.
  - intros z [Hz|[<-|[]]]%in_app_or; [|lia]. specialize (Hle z Hz). lia.
  - apply in_or_app. by left.
  - intros z [Hz|[<-|[]]]%in_app_or; [by apply Hle|lia].
Qed.

Lemma is_max_snoc (m : Z) (l : list Z) (a : Z) :
  is_max m l -> is_max (if m <? a then a else m) (l ++ [a]).
Proof.
  intros [Hin Hle]. destruct (Z.ltb_spec m a) as [Hlt|Hge]; split.
  - apply in_or_app. right. by left.
  - intros z [Hz|[<-|[]]]%in_app_or; [|lia]. specialize (Hle z Hz). lia.
  - apply in_or_app. by left.
  - intros z [Hz|[<-|[]]]%in_app_or; [by apply Hle|lia].
Qed.

Lemma is_min_singleton (a : Z) : is_min a [a].
Proof. split; [by left|]. intros z [<-|[]]. lia. Qed.

Lemma is_max_singleton (a : Z) : is_max a [a].
Proof. split; [by left|]. intros z [<-|[]]. lia. Qed.

(** One call of [add_series], spelled out. *)
Lemma add_series_inv (g g' : PredictionGraph) (a : SeriesArgs) :
  add_series g a = Ok g' ->
  exists s hy,
    new_series (options g) a = Ok s /\
    historical_years s = Ok hy /\
    options g' = options g /\
    series_list g' = series_list g ++ [s] /\
    min_year g' =
      Some (match min_year g with
            | None => index_min (index (df s))
            | Some m => if num_lt (index_min (index (df s))) m
                        then index_min (index (df s)) else m
            end) /\
    max_year g' =
      Some (match max_year g with
            | None => index_max (index (df s))
            | Some m => if num_lt m (index_max (index (df s)))
                        then index_max (index (df s)) else m
            end) /\
    forecast_start_year g' =
      Some (match forecast_start_year g with
            | None => index_max hy
            | Some f => if num_lt (index_max hy) f then index_max hy else f
            end).
Proof.
  unfold add_series. intros Hrun.
  apply bind_Ok in Hrun as (s & Hs & Hrun).
  apply bind_Ok in Hrun as (fc & Hfc & Hrun).
  injection Hrun as <-. exists s, (loc_index (mask_not fc) (index (df s))).
  split; [exact Hs|]. split; [unfold historical_years; by rewrite Hfc|].
  cbn. repeat split.
  - by destruct (min_year g) as [m|]; [destruct (num_lt _ m)|].
  - by destruct (max_year g) as [m|]; [destruct (num_lt m _)|].
  - by destruct (forecast_start_year g) as [m|]; [destruct (num_lt _ m)|].
Qed.

Lemma add_series_seq_series (l : list SeriesArgs) (g g' : PredictionGraph) :
  add_series_seq g l = Ok g' ->
  options g' = options g /\
  exists ss,
    series_list g' = series_list g ++ ss /\
    Forall2 (fun a s => new_series (options g) a = Ok s) l ss.
Proof.
  revert g. induction l as [|a l IH]; intros g; cbn.
  - intros [= <-]. split; [reflexivity|]. exists []. by rewrite app_nil_r.
  - intros Hrun. apply bind_Ok in Hrun as (g1 & Hadd & Hrun).
    destruct (IH _ Hrun) as (Hopt & ss & Hss & Hall).
    apply add_series_inv in Hadd as (s & hy & Hs & _ & Hopt1 & Hsl & _).
    split; [congruence|]. exists (s :: ss). split.
    + rewrite Hss, Hsl, <- app_assoc. reflexivity.
    + constructor; [exact Hs|]. by rewrite <- Hopt1.
Qed.

Lemma filter_has_rows_snoc (ls : list (list Z)) (l : list Z) :
  List.filter has_rows (ls ++ [l])
  = List.filter has_rows ls ++ (if has_rows l then [l] else []).
Proof.
  induction ls as [|l0 ls IH]; cbn.
  - by destruct (has_rows l).
  - rewrite IH. by destruct (has_rows l0).
Qed.

Section YearAttributes.
Variable inner : Z -> list Z -> Prop.
Variables (l : list Z) (v : num).
Hypothesis v_NaN : v = NaN <-> l = [].
Hypothesis v_Int : forall x, v = Int x <-> inner x l.

Lemma year_attribute_first (outer : Z -> list Z -> Prop) :
  (forall x, outer x [x]) ->
  year_attribute (extreme_of inner outer) [l] (Some v).
Proof.
  intros Hone. unfold year_attribute. destruct l as [|z l'] eqn:Hl.
  - by rewrite (proj2 v_NaN eq_refl).
  - destruct v as [x|]; [|by discriminate (proj1 v_NaN eq_refl)].
    exists x. split; [reflexivity|]. exists [x]. split; [|apply Hone].
    cbn. constructor; [|constructor]. by apply v_Int.
Qed.

Lemma extreme_of_snoc (outer : Z -> list Z -> Prop) (pick : Z -> Z -> Z)
    (ls : list (list Z)) (m : Z) :
  (forall x ms, outer m ms -> outer (pick x m) (ms ++ [x])) ->
  extreme_of inner outer ls m ->
  extreme_of inner outer (ls ++ [l])
    (match v with Int x => pick x m | NaN => m end).
Proof.
  intros Hsnoc (ms & Hms & Hm). unfold extreme_of.
  rewrite filter_has_rows_snoc. destruct v as [x|] eqn:Hv.
  - assert (Hrows : has_rows l = true).
    { destruct l; [|reflexivity]. by discriminate (proj2 v_NaN eq_refl). }
    rewrite Hrows. exists (ms ++ [x]). split; [|by apply Hsnoc].
    apply Forall2_app; [exact Hms|]. constructor; [|constructor]. by apply v_Int.
  - rewrite (proj1 v_NaN eq_refl). cbn. rewrite app_nil_r. by exists ms.
Qed.

Lemma year_attribute_min_step (ls : list (list Z)) (st : num) :
  ls <> [] ->
  year_attribute (extreme_of inner is_min) ls (Some st) ->
  year_attribute (extreme_of inner is_min) (ls ++ [l])
    (Some (if num_lt v st then v else st)).
Proof.
  intros Hne Hst. destruct ls as [|[|z l0] ls']; [done| |]; cbn in Hst |- *.
  - injection Hst as ->. by destruct v.
  - destruct Hst as (m & [= ->] & Hm).
    pose proof (extreme_of_snoc is_min (fun x m => if x <? m then x else m)
                  ((z :: l0) :: ls') m
                  ltac:(intros; by apply is_min_snoc) Hm) as Hext.
    destruct v as [x|]; cbn.
    + exists (if x <? m then x else m). split; [by destruct (x <? m)|exact Hext].
    + by exists m.
Qed.

Lemma year_attribute_max_step (ls : list (list Z)) (st : num) :
  ls <> [] ->
  year_attribute (extreme_of inner is_max) ls (Some st) ->
  year_attribute (extreme_of inner is_max) (ls ++ [l])
    (Some (if num_lt st v then v else st)).
Proof.
  intros Hne Hst. destruct ls as [|[|z l0] ls']; [done| |]; cbn in Hst |- *.
  - injection Hst as ->. reflexivity.
  - destruct Hst as (m & [= ->] & Hm).
    pose proof (extreme_of_snoc is_max (fun x m => if m <? x then x else m)
                  ((z :: l0) :: ls') m
                  ltac:(intros; by apply is_max_snoc) Hm) as Hext.
    destruct v as [x|]; cbn.
    + exists (if m <? x then x else m). split; [by destruct (m <? x)|exact Hext].
    + by exists m.
Qed.
End YearAttributes.

Lemma year_attribute_None (extreme : list (list Z) -> Z -> Prop)
    (ls : list (list Z)) :
  year_attribute extreme ls None -> ls = [].
Proof. destruct ls as [|[|? ?] ?]; cbn; [done|discriminate|by intros (? & ? & _)]. Qed.

Lemma year_attribute_Some (extreme : list (list Z) -> Z -> Prop)
    (ls : list (list Z)) (st : num) :
  year_attribute extreme ls (Some st) -> ls <> [].
Proof. by destruct ls. Qed.

(** The year attributes along a sequence of [add_series] calls. *)
Lemma add_series_seq_attributes (l : list SeriesArgs) :
  forall (g g' : PredictionGraph) (hys : list (list Z)),
  add_series_seq g l = Ok g' ->
  Forall2 (fun s hy => historical_years s = Ok hy) (series_list g) hys ->
  year_attribute least_of_smallest
    (map (fun s => index (df s)) (series_list g)) (min_year g) ->
  year_attribute greatest_of_largest
    (map (fun s => index (df s)) (series_list g)) (max_year g) ->
  year_attribute least_of_largest hys (forecast_start_year g) ->
  year_attribute least_of_smallest
    (map (fun s => index (df s)) (series_list g')) (min_year g') /\
  year_attribute greatest_of_largest
    (map (fun s => index (df s)) (series_list g')) (max_year g') /\
  exists hys',
    Forall2 (fun s hy => historical_years s = Ok hy) (series_list g') hys' /\
    year_attribute least_of_largest hys' (forecast_start_year g').
Proof.
  induction l as [|a l IH]; intros g g' hys; cbn.
  - intros [= <-] Hhys Hmin Hmax Hf. split; [done|]. split; [done|]. by exists hys.
  - intros Hrun Hhys Hmin Hmax Hf.
    apply bind_Ok in Hrun as (g1 & Hadd & Hrun).
    apply add_series_inv in Hadd
      as (s & hy & Hs & Hhy & Hopt1 & Hsl & Hmin1 & Hmax1 & Hf1).
    apply (IH g1 g' (hys ++ [hy]) Hrun).
    + rewrite Hsl. apply Forall2_app; [exact Hhys|]. by constructor.
    + rewrite Hsl, map_app, Hmin1. cbn [map].
      destruct (min_year g) as [m|].
      * apply year_attribute_min_step;
          [apply index_min_NaN|apply index_min_Int
          |by apply year_attribute_Some in Hmin|exact Hmin].
      * apply year_attribute_None in Hmin. rewrite Hmin. cbn [app].
        apply year_attribute_first;
          [apply index_min_NaN|apply index_min_Int|apply is_min_singleton].
    + rewrite Hsl, map_app, Hmax1. cbn [map].
      destruct (max_year g) as [m|].
      * apply year_attribute_max_step;
          [apply index_max_NaN|apply index_max_Int
          |by apply year_attribute_Some in Hmax|exact Hmax].
      * apply year_attribute_None in Hmax. rewrite Hmax. cbn [app].
        apply year_attribute_first;
          [apply index_max_NaN|apply index_max_Int|apply is_max_singleton].
    + rewrite Hf1. destruct (forecast_start_year g) as [m|].
      * apply year_attribute_min_step;
          [apply index_max_NaN|apply index_max_Int
          |by apply year_attribute_Some in Hf|exact Hf].
      * apply year_attribute_None in Hf. rewrite Hf. cbn [app].
        apply year_attribute_first;
          [apply index_max_NaN|apply index_max_Int|apply is_min_singleton].
Qed.

(** C9 (amended).  After any sequence of [add_series] calls on a fresh
    graph, the graph holds the series built from the arguments, and each of
    its year attributes is [None] when no series was added, [nan] when the
    first series has nothing to offer (no row for [min_year] and
    [max_year], no row with [Forecast] false for [forecast_start_year]), and
    otherwise, over the series that have such rows: [min_year] the least of
    their smallest index years, [max_year] the greatest of their largest
    index years, [forecast_start_year] the least of their largest index
    years with [Forecast] false. *)
Theorem add_series_year_bounds (o : GraphOptions) (l : list SeriesArgs)
    (g : PredictionGraph) :
  add_series_seq (new_graph o) l = Ok g ->
  Forall2 (fun a s => new_series o a = Ok s) l (series_list g) /\
  year_attribute least_of_smallest
    (map (fun s => index (df s)) (series_list g)) (min_year g) /\
  year_attribute greatest_of_largest
    (map (fun s => index (df s)) (series_list g)) (max_year g) /\
  exists hys,
    Forall2 (fun s hy => historical_years s = Ok hy) (series_list g) hys /\
    year_attribute least_of_largest hys (forecast_start_year g).
Proof.
  intros Hrun. split.
  - apply add_series_seq_series in Hrun as (_ & ss & Hss & Hall).
    cbn in Hss. by rewrite Hss.
  - by apply (add_series_seq_attributes l (new_graph o) g [] Hrun).
Qed.

(** ** Tick thinning *)

Lemma seqZ_sorted (n : nat) (m : Z) : StronglySorted Z.lt (seqZ m (Z.of_nat n)).
Proof.
  revert m. induction n as [|n IH]; intros m.
  - cbn. constructor.
  - rewrite seqZ_cons by lia. apply StronglySorted_cons. split.
    + apply Forall_forall. intros k Hk. apply elem_of_seqZ in Hk. lia.
    + replace (Z.pred (Z.of_nat (S n))) with (Z.of_nat n) by lia. apply IH.
Qed.

Lemma range_sorted (a b : Z) : StronglySorted Z.lt (range a b).
Proof.
  unfold range. destruct (Z.le_gt_cases (b - a) 0) as [Hle|Hgt].
  - rewrite seqZ_nil by done. constructor.
  - rewrite <- (Z2Nat.id (b - a)) by lia. apply seqZ_sorted.
Qed.

Lemma range_In (a b k : Z) : In k (range a b) <-> a <= k < b.
Proof. unfold range. rewrite <- list_elem_of_In, elem_of_seqZ. lia. Qed.

Lemma range_split (a b k : Z) :
  a <= k < b -> range a b = range a k ++ k :: range (k + 1) b.
Proof.
  intros Hk. unfold range.
  replace (b - a) with ((k - a) + (b - k)) by lia.
  rewrite seqZ_app by lia. f_equal.
  replace (a + (k - a)) with k by lia.
  rewrite seqZ_cons by lia. f_equal. f_equal; lia.
Qed.

Lemma sorted_last_max (l : list Z) (q : Z) :
  StronglySorted Z.lt l -> last l = Some q -> forall t, In t l -> t <= q.
Proof.
  intros Hs Hlast t Ht. apply last_Some in Hlast as [l' ->].
  apply in_app_or in Ht as [Ht|[<-|[]]]; [|lia].
  apply StronglySorted_app in Hs as (Hlt & _ & _).
  specialize (Hlt t q). rewrite !list_elem_of_In in Hlt.
  specialize (Hlt Ht (or_introl eq_refl)). lia.
Qed.

(** Adding one wraps around at the greatest [int64] only. *)
Lemma int64_add_succ (z : Z) :
  INT64_MIN <= z < INT64_MAX -> int64_add z 1 = z + 1.
Proof.
  unfold INT64_MIN, INT64_MAX, int64_add.
  change (2 ^ 63) with 9223372036854775808.
  change (2 ^ 64) with 18446744073709551616.
  intros Hz. rewrite Z.mod_small by lia. lia.
Qed.

Lemma int64_add_wraps : int64_add INT64_MAX 1 = INT64_MIN.
Proof. reflexivity. Qed.

Section Ticks.
Variables (fsy : option num) (hi : Z).

Lemma tick_step_cases (tv : list Z) (tl : list string) (year : Z) :
  tick_step fsy hi (tv, tl) year = (tv, tl) \/
  tick_step fsy hi (tv, tl) year = (tv ++ [year], tl ++ [pretty year]).
Proof.
  unfold tick_step.
  repeat match goal with |- context [if ?b then _ else _] => destruct b end; auto.
Qed.

Lemma tick_step_first (tl : list string) (year : Z) :
  tick_step fsy hi ([], tl) year = ([year], tl ++ [pretty year]).
Proof. unfold tick_step. cbn. by rewrite andb_false_r. Qed.

Lemma tick_step_max (tv : list Z) (tl : list string) :
  tick_step fsy hi (tv, tl) hi = (tv ++ [hi], tl ++ [pretty hi]).
Proof. unfold tick_step. by rewrite Z.eqb_refl, andb_false_r. Qed.

Lemma tick_step_forecast_start (tv : list Z) (tl : list string) (year : Z) :
  fsy = Some (Int year) ->
  tick_step fsy hi (tv, tl) year = (tv ++ [year], tl ++ [pretty year]).
Proof. intros ->. unfold tick_step. cbn. by rewrite Z.eqb_refl. Qed.

Lemma tick_step_other (tv : list Z) (tl : list string) (year q : Z) :
  fsy <> Some (Int year) -> year <> hi -> last tv = Some q ->
  (year mod 5 = 0 /\ 3 <= year - q ->
   tick_step fsy hi (tv, tl) year = (tv ++ [year], tl ++ [pretty year])) /\
  (~ (year mod 5 = 0 /\ 3 <= year - q) ->
   tick_step fsy hi (tv, tl) year = (tv, tl)).
Proof.
  intros Hfsy Hhi Hlast. unfold tick_step.
  assert (Hne : year_ne year fsy = true).
  { destruct fsy as [[f|]|]; cbn; try reflexivity.
    apply negb_true_iff, Z.eqb_neq. congruence. }
  assert (Hlen : negb (Nat.eqb (length tv) 0) = true).
  { destruct tv; [discriminate|reflexivity]. }
  assert (Hmax : negb (year =? hi) = true) by (by apply negb_true_iff, Z.eqb_neq).
  rewrite Hne, Hlen, Hmax, Hlast. cbn.
  destruct (Z.ltb_spec (year - q) 3) as [Hlt|Hge];
    destruct (Z.eqb_spec (year mod 5) 0) as [Hmod|Hmod]; cbn; split; intros; try done; lia.
Qed.

Lemma fold_ticks (ys : list Z) (tv : list Z) (tl : list string) :
  exists added,
    fst (fold_left (tick_step fsy hi) ys (tv, tl)) = tv ++ added /\
    (forall t, In t added -> In t ys) /\
    (tl = map pretty tv ->
     snd (fold_left (tick_step fsy hi) ys (tv, tl)) = map pretty (tv ++ added)).
Proof.
  revert tv tl. induction ys as [|k ys IH]; intros tv tl; cbn [fold_left].
  - exists []. rewrite app_nil_r. by repeat split.
  - destruct (tick_step_cases tv tl k) as [->| ->].
    + destruct (IH tv tl) as (added & Hfst & Hsub & Hlab).
      exists added. split; [done|]. split; [|done]. intros t Ht. right. eauto.
    + destruct (IH (tv ++ [k]) (tl ++ [pretty k])) as (added & Hfst & Hsub & Hlab).
      exists (k :: added). rewrite Hfst, <- app_assoc. split; [done|]. split.
      * intros t [<-|Ht]; [by left|right; eauto].
      * intros ->. rewrite Hlab by (by rewrite map_app).
        by rewrite <- app_assoc.
Qed.

Lemma fold_ticks_sorted (ys : list Z) (tv : list Z) (tl : list string) :
  StronglySorted Z.lt (tv ++ ys) ->
  StronglySorted Z.lt (fst (fold_left (tick_step fsy hi) ys (tv, tl))).
Proof.
  revert tv tl. induction ys as [|k ys IH]; intros tv tl Hs; cbn [fold_left].
  - by rewrite app_nil_r in Hs.
  - destruct (tick_step_cases tv tl k) as [->| ->].
    + apply IH. apply StronglySorted_app in Hs as (Hlt & Htv & Hys).
      apply StronglySorted_cons in Hys as [_ Hys].
      apply StronglySorted_app. split; [|done].
      intros x1 x2 Hx1 Hx2. apply Hlt; [done|]. by right.
    + apply IH. by rewrite <- app_assoc.
Qed.
End Ticks.

(** The ticks once the years before [k] are processed, [k] itself, and the
    years after it. *)
Lemma ticks_split (fsy : option num) (lo hi k : Z) :
  lo <= k <= hi ->
  exists tvb tlb added,
    fold_left (tick_step fsy hi) (range lo k) ([], []) = (tvb, tlb) /\
    (forall t, In t tvb -> lo <= t < k) /\
    StronglySorted Z.lt tvb /\
    (lo < k -> exists q, last tvb = Some q) /\
    fst (fold_left (tick_step fsy hi) (range lo (hi + 1)) ([], []))
    = fst (tick_step fsy hi (tvb, tlb) k) ++ added /\
    (forall t, In t added -> k < t <= hi).
Proof.
  intros Hk.
  destruct (fold_left (tick_step fsy hi) (range lo k) ([], [])) as [tvb tlb] eqn:Hb.
  exists tvb, tlb.
  destruct (fold_ticks fsy hi (range lo k) [] []) as (addb & Hfb & Hsubb & _).
  rewrite Hb in Hfb. cbn in Hfb. subst addb.
  destruct (fold_ticks fsy hi (range (k + 1) (hi + 1))
              (fst (tick_step fsy hi (tvb, tlb) k))
              (snd (tick_step fsy hi (tvb, tlb) k))) as (added & Hfa & Hsuba & _).
  exists added. split; [reflexivity|]. split.
  { intros t Ht. apply Hsubb, range_In in Ht. lia. }
  split.
  { pose proof (fold_ticks_sorted fsy hi (range lo k) [] []) as Hs.
    rewrite Hb in Hs. apply Hs. cbn. apply range_sorted. }
  split.
  { intros Hlt. rewrite (range_split lo k lo) in Hb by lia.
    replace (range lo lo) with (@nil Z) in Hb
      by (unfold range; by rewrite seqZ_nil by lia).
    cbn [app fold_left] in Hb. rewrite tick_step_first in Hb.
    destruct (fold_ticks fsy hi (range (lo + 1) k) [lo] ([] ++ [pretty lo]))
      as (add & Hf & _). rewrite Hb in Hf. cbn in Hf. subst tvb.
    apply last_is_Some. done. }
  split.
  { rewrite (range_split lo (hi + 1) k) by lia.
    rewrite fold_left_app. cbn [fold_left]. rewrite Hb.
    rewrite <- Hfa. by destruct (tick_step fsy hi (tvb, tlb) k). }
  intros t Ht. apply Hsuba, range_In in Ht. lia.
Qed.

Section Figure.
Context `{Externals}.

(** [get_figure] puts the ticks of [get_ticks] on the x axis. *)
Lemma get_figure_ticks (g : PredictionGraph) (fig : Figure) :
  get_figure g = Ok fig ->
  exists tick_vals tick_labels,
    get_ticks g = Ok (tick_vals, tick_labels) /\
    axis_entry (layout fig) "xaxis" "tickvals" = Some (PList (map PInt tick_vals)) /\
    axis_entry (layout fig) "xaxis" "ticklabels" = Some (PList (map PStr tick_labels)).
Proof.
  unfold get_figure. intros Hrun.
  apply bind_Ok in Hrun as ([tv tl] & Hticks & Hrun).
  apply bind_Ok in Hrun as (traces & _ & [= <-]).
  exists tv, tl. split; [exact Hticks|]. cbn [layout].
  destruct (title (options g)), (unit_name (options g)),
    (truthy_float (y_max (options g))); split; reflexivity.
Qed.

(** C3 (amended).  On a graph whose [min_year] and [max_year] are integers
    with [min_year <= max_year] below the greatest [int64] (as on a graph
    whose first series has a frame with rows), the x-axis ticks of
    [get_figure] are:
    [min_year] first; [max_year]; [forecast_start_year] when it is a year
    of the range (as it is when every series has a historical row); any
    other year of the range exactly when it is a multiple of 5 at least 3
    years after the immediately preceding tick; the labels are the decimal
    strings of the ticks, in the same order. *)
Theorem tick_thinning (g : PredictionGraph) (lo hi : Z) :
  min_year g = Some (Int lo) ->
  max_year g = Some (Int hi) ->
  lo <= hi ->
  INT64_MIN <= lo ->
  hi < INT64_MAX ->
  exists tick_vals tick_labels,
    get_ticks g = Ok (tick_vals, tick_labels) /\
    (forall fig, get_figure g = Ok fig ->
       axis_entry (layout fig) "xaxis" "tickvals"
         = Some (PList (map PInt tick_vals)) /\
       axis_entry (layout fig) "xaxis" "ticklabels"
         = Some (PList (map PStr tick_labels))) /\
    head tick_vals = Some lo /\
    (forall f, forecast_start_year g = Some (Int f) -> lo <= f <= hi ->
       In f tick_vals) /\
    In hi tick_vals /\
    (forall year, lo < year < hi -> forecast_start_year g <> Some (Int year) ->
       (exists p, preceding_tick tick_vals year p) /\
       forall p, preceding_tick tick_vals year p ->
         (In year tick_vals <-> year mod 5 = 0 /\ 3 <= year - p)) /\
    tick_labels = map pretty tick_vals /\
    (forall t, In t tick_vals -> lo <= t <= hi).
Proof.
  intros Hmin Hmax Hle Hlo64 Hhi64.
  assert (Hticks : get_ticks g =
            Ok (fold_left (tick_step (forecast_start_year g) hi)
                          (range lo (hi + 1)) ([], [])))
    by (unfold get_ticks; rewrite Hmin, Hmax; by rewrite int64_add_succ by lia).
  set (fsy := forecast_start_year g) in *.
  destruct (fold_left (tick_step fsy hi) (range lo (hi + 1)) ([], []))
    as [tv tl] eqn:Hrun.
  exists tv, tl. split; [exact Hticks|].
  split; [|split; [|split; [|split; [|split; [|split]]]]].
  - intros fig Hfig.
    destruct (get_figure_ticks g fig Hfig) as (tv' & tl' & Ht' & Hvals & Hlabels).
    rewrite Hticks in Ht'. by injection Ht' as <- <-.
  - destruct (ticks_split fsy lo hi lo) as (tvb & tlb & added & Hb & _ & _ & _ & Hall & _);
      [lia|].
    replace (range lo lo) with (@nil Z) in Hb
      by (unfold range; by rewrite seqZ_nil by lia).
    cbn in Hb. injection Hb as <- <-. rewrite tick_step_first in Hall.
    rewrite Hrun in Hall. cbn in Hall. by rewrite Hall.
  - intros f Hfsy Hf.
    destruct (ticks_split fsy lo hi f) as (tvb & tlb & added & _ & _ & _ & _ & Hall & _);
      [lia|].
    rewrite (tick_step_forecast_start fsy hi tvb tlb f Hfsy), Hrun in Hall.
    cbn in Hall. rewrite Hall.
    apply in_or_app. left. apply in_or_app. right. by left.
  - destruct (ticks_split fsy lo hi hi) as (tvb & tlb & added & _ & _ & _ & _ & Hall & _);
      [lia|].
    rewrite tick_step_max, Hrun in Hall. cbn in Hall. rewrite Hall.
    apply in_or_app. left. apply in_or_app. right. by left.
  - intros year Hyear Hfsy'.
    destruct (ticks_split fsy lo hi year)
      as (tvb & tlb & added & _ & Hbefore & Hsorted & Hlast & Hall & Hafter); [lia|].
    destruct Hlast as [q Hq]; [lia|].
    rewrite Hrun in Hall. cbn [fst] in Hall.
    pose proof (tick_step_other fsy hi tvb tlb year q Hfsy' ltac:(lia) Hq)
      as [Hkeep Hskip].
    assert (Hq_in : In q tvb).
    { apply last_Some in Hq as [l' ->]. apply in_or_app. right. by left. }
    assert (Hsub : forall t, In t tvb -> In t tv).
    { intros t Ht. rewrite Hall. apply in_or_app. left.
      destruct (tick_step_cases fsy hi tvb tlb year) as [Hc|Hc]; rewrite Hc; cbn;
        [done|apply in_or_app; by left]. }
    assert (Hlow : forall t, In t tv -> t < year -> In t tvb).
    { intros t Ht Hlt. rewrite Hall in Ht. apply in_app_or in Ht as [Ht|Ht].
      - destruct (tick_step_cases fsy hi tvb tlb year) as [Hc|Hc];
          rewrite Hc in Ht; cbn in Ht; [done|].
        apply in_app_or in Ht as [Ht|[<-|[]]]; [done|lia].
      - apply Hafter in Ht. lia. }
    assert (Hprev : forall p, preceding_tick tv year p <-> p = q).
    { intros p. split.
      - intros (Hin & Hlt & Hmax').
        pose proof (sorted_last_max tvb q Hsorted Hq p (Hlow p Hin Hlt)).
        assert (q <= p); [|lia].
        apply Hmax'; [by apply Hsub|]. apply Hbefore in Hq_in. lia.
      - intros ->. split; [by apply Hsub|]. split.
        + apply Hbefore in Hq_in. lia.
        + intros t Ht Hlt. apply (sorted_last_max tvb q Hsorted Hq). by apply Hlow. }
    split; [exists q; by apply Hprev|].
    intros p ->%Hprev. split.
    + intros Hin.
      destruct (decide (year mod 5 = 0 /\ 3 <= year - q)) as [Hc|Hc]; [done|].
      rewrite (Hskip Hc) in Hall. cbn in Hall. rewrite Hall in Hin.
      apply in_app_or in Hin as [Hin|Hin];
        [apply Hbefore in Hin|apply Hafter in Hin]; lia.
    + intros Hc. rewrite Hall, (Hkeep Hc). cbn.
      apply in_or_app. left. apply in_or_app. right. by left.
  - destruct (fold_ticks fsy hi (range lo (hi + 1)) [] []) as (added & Hf & _ & Hlab).
    rewrite Hrun in Hf, Hlab. cbn in Hf, Hlab. subst added. by apply Hlab.
  - intros t Ht.
    destruct (fold_ticks fsy hi (range lo (hi + 1)) [] []) as (added & Hf & Hsub & _).
    rewrite Hrun in Hf. cbn in Hf. subst added. apply Hsub, range_In in Ht. lia.
Qed.
End Figure.

(** ** Layout parameters *)

Lemma dict_get_set_eq {V} (k : string) (v : V) (d : list (string * V)) :
  dict_get k (dict_set k v d) = Some v.
Proof.
  induction d as [|[k' v'] d IH]; cbn.
  - by rewrite String.eqb_refl.
  - destruct (String.eqb k k') eqn:Hk; cbn; rewrite ?String.eqb_refl, ?Hk; done.
Qed.

Lemma dict_get_set_ne {V} (k k' : string) (v : V) (d : list (string * V)) :
  k <> k' -> dict_get k' (dict_set k v d) = dict_get k' d.
Proof.
  intros Hne. induction d as [|[k1 v1] d IH]; cbn.
  - destruct (String.eqb_spec k' k); [congruence|done].
  - destruct (String.eqb_spec k k1) as [->|Hk1]; cbn.
    + destruct (String.eqb_spec k' k1); [congruence|done].
    + destruct (String.eqb_spec k' k1); [done|exact IH].
Qed.

Lemma dict_get_None {V} (k : string) (d : list (string * V)) :
  dict_get k d = None <-> ~ In k (map fst d).
Proof.
  induction d as [|[k1 v1] d IH]; cbn; [tauto|].
  destruct (String.eqb_spec k k1) as [->|Hk1].
  - split; [discriminate|]. intros Hn. exfalso. apply Hn. by left.
  - rewrite IH. split; [|tauto]. intros Hn [Heq|Hin]; [congruence|tauto].
Qed.

Lemma merge_value_dict (src target : dict) :
  merge_value (PDict src) (Some (PDict target)) = PDict (deepupdate target src).
Proof.
  cbn. f_equal. unfold deepupdate. revert target.
  induction src as [|[k v] src IH]; intros target; cbn; [reflexivity|apply IH].
Qed.

Lemma merge_value_scalar (v : pyval) (old : option pyval) :
  (forall src, v <> PDict src) -> merge_value v old = v.
Proof. intros Hv. destruct v; try reflexivity. by destruct (Hv d). Qed.

Lemma merge_value_over_scalar (v : pyval) (old : option pyval) :
  (forall target, old <> Some (PDict target)) -> merge_value v old = v.
Proof.
  intros Hold. destruct v; try reflexivity.
  destruct old as [[]|]; try reflexivity. by destruct (Hold d0).
Qed.

Lemma deepupdate_cons (target : dict) (k : string) (v : pyval) (src : dict) :
  deepupdate target ((k, v) :: src)
  = deepupdate (dict_set k (merge_value v (dict_get k target)) target) src.
Proof. reflexivity. Qed.

Lemma deepupdate_absent (k : string) (src target : dict) :
  dict_get k src = None ->
  dict_get k (deepupdate target src) = dict_get k target.
Proof.
  revert target. induction src as [|[k1 v1] src IH]; intros target; [reflexivity|].
  cbn [dict_get]. destruct (String.eqb_spec k k1) as [->|Hk1]; [discriminate|].
  intros Hk. rewrite deepupdate_cons, (IH _ Hk). by apply dict_get_set_ne.
Qed.

Lemma deepupdate_present (k : string) (v : pyval) (src target : dict) :
  NoDup (map fst src) ->
  dict_get k src = Some v ->
  dict_get k (deepupdate target src) = Some (merge_value v (dict_get k target)).
Proof.
  revert target. induction src as [|[k1 v1] src IH]; intros target Hnd; [discriminate|].
  cbn [dict_get]. cbn in Hnd. apply NoDup_cons in Hnd as [Hk1 Hnd].
  rewrite deepupdate_cons. destruct (String.eqb_spec k k1) as [->|Hne].
  - intros [= ->]. rewrite deepupdate_absent.
    + apply dict_get_set_eq.
    + apply dict_get_None. by rewrite <- list_elem_of_In.
  - intros Hk. rewrite (IH _ Hnd Hk). by rewrite dict_get_set_ne.
Qed.

Section Layout.
Context `{Externals}.

(** C7 (amended).  [make_layout] returns the default parameters
    deep-merged with the given arguments, the given arguments winning:
    a given value replaces the default, except that a given dictionary is
    merged into a default dictionary.  When ['showlegend'] is not itself
    given, the result has [showlegend] set to [False] exactly when
    ['legend'] is not given; a given ['showlegend'] is kept.  A given title
    is wrapped in ['<b>'] and ['</b>']. *)
Theorem make_layout_merges_defaults (kwargs : dict) :
  NoDup (map fst kwargs) ->
  let params := make_layout kwargs in
  (forall k v, k <> "title" -> dict_get k kwargs = Some v ->
     dict_get k params = Some (merge_value v (dict_get k default_params))) /\
  (forall k, k <> "title" -> k <> "showlegend" -> dict_get k kwargs = None ->
     dict_get k params = dict_get k default_params) /\
  (forall v old, (forall src, v <> PDict src) -> merge_value v old = v) /\
  (forall v old, (forall target, old <> Some (PDict target)) -> merge_value v old = v) /\
  (forall src target,
     merge_value (PDict src) (Some (PDict target)) = PDict (deepupdate target src)) /\
  (dict_get "showlegend" kwargs = None ->
     (dict_get "showlegend" params = Some (PBool false)
      <-> dict_get "legend" kwargs = None) /\
     (dict_get "legend" kwargs <> None -> dict_get "showlegend" params = None)) /\
  (forall t, dict_get "title" kwargs = Some t ->
     dict_get "title" params = Some (PStr ("<b>" +:+ py_str t +:+ "</b>"))) /\
  (dict_get "title" kwargs = None -> dict_get "title" params = None).
Proof.
  intros Hnd params.
  set (base := if negb (dict_mem "legend" kwargs)
               then dict_set "showlegend" (PBool false) default_params
               else default_params).
  assert (Hbase : forall k, k <> "showlegend" -> dict_get k base = dict_get k default_params).
  { intros k Hk. unfold base. destruct (negb _); [|reflexivity].
    by rewrite dict_get_set_ne. }
  assert (Hparams : forall k, k <> "title" ->
            dict_get k params = dict_get k (deepupdate base kwargs)).
  { intros k Hk. unfold params, make_layout. fold base.
    destruct (dict_get "title" (deepupdate base kwargs)); [|reflexivity].
    by rewrite dict_get_set_ne. }
  assert (Hshow : forall v, merge_value v (dict_get "showlegend" base)
                            = merge_value v (dict_get "showlegend" default_params)).
  { intros v. unfold base. destruct (negb _); [|reflexivity].
    rewrite dict_get_set_eq. cbn. by destruct v. }
  split; [|split; [|split; [|split; [|split; [|split; [|split]]]]]].
  - intros k v Hk Hget. rewrite (Hparams k Hk), (deepupdate_present k v) by done.
    f_equal. destruct (String.eqb_spec k "showlegend") as [->|Hne]; [apply Hshow|].
    by rewrite Hbase.
  - intros k Hk Hk' Hget. rewrite (Hparams k Hk), deepupdate_absent by done.
    by apply Hbase.
  - apply merge_value_scalar.
  - apply merge_value_over_scalar.
  - apply merge_value_dict.
  - intros Hget. rewrite (Hparams "showlegend") by done.
    rewrite deepupdate_absent by done. unfold base, dict_mem.
    destruct (dict_get "legend" kwargs) as [l|]; cbn.
    + split; [split; discriminate|]. done.
    + split; [done|]. done.
  - intros t Hget. unfold params, make_layout. fold base.
    rewrite (deepupdate_present "title" t) by done.
    rewrite dict_get_set_eq. do 3 f_equal.
    assert (Hnone : dict_get "title" base = None).
    { unfold base. destruct (negb _); reflexivity. }
    rewrite Hnone. by destruct t.
  - intros Hget. unfold params, make_layout. fold base.
    assert (Hnone : dict_get "title" (deepupdate base kwargs) = None).
    { rewrite deepupdate_absent by done. unfold base. destruct (negb _); reflexivity. }
    by rewrite Hnone.
Qed.
End Layout.

(** ** The theorems at concrete inputs *)

Lemma traces_partition_witness :
  exists traces h f,
    get_traces_for_series (H := sample_externals) plain_graph
      (coloured plain_graph measured_and_projected) 0 false = Ok traces /\
    traces = [f; h] /\
    y h = [(2000, CFloat 1); (2001, CFloat 2)] /\
    y f = [(2001, CFloat 2); (2002, CFloat 3)].
Proof.
  destruct (traces_partition_by_forecast_flag (H := sample_externals) plain_graph
              (coloured plain_graph measured_and_projected) 0 false _ eq_refl)
    as (forecast & c & values & h & f & Hfc & Hc & Hval & Htr & Hh & Hhy & Hf & Hfy & _).
  injection Hfc as <-. injection Hc as <-. injection Hval as <-.
  destruct h as [h|]; [|discriminate (proj1 Hh eq_refl)].
  destruct f as [f|]; [|discriminate (proj1 Hf eq_refl)].
  eexists _, h, f. split; [reflexivity|]. split; [exact Htr|].
  split; [exact (Hhy h eq_refl)|exact (Hfy f eq_refl)].
Defined.

Lemma get_color_luminance_blend_witness :
  truthy_str (forecast_color darkened) = false /\
  GHG_MAIN_SECTOR_COLORS (Externals := sample_externals) !! "Transportation" = Some "red" /\
  Color_new (Externals := sample_externals) "red" = Ok red /\
  exists l1 l2 : Q,
    l1 = ((1 # 2) * (1 + (-3 # 10)))%Q /\
    l2 = (l1 + (1 - l1) * (3 # 10))%Q /\
    get_color (H := sample_externals) darkened true
    = Ok (sample_Color_hex (set_luminance l2 red)).
Proof.
  split; [reflexivity|]. split; [vm_compute; reflexivity|]. split; [reflexivity|].
  destruct (get_color_luminance_blend (H := sample_externals) darkened true "red" red
              eq_refl ltac:(vm_compute; reflexivity) eq_refl)
    as (l1 & l2 & Hneg & _ & _ & Hl2 & Hok & _).
  pose proof (Hneg (-3 # 10)%Q eq_refl eq_refl) as Hl1. cbn in Hl1.
  exists l1, l2. split; [exact Hl1|]. split; [exact Hl2|].
  apply Hok. rewrite Hl2, Hl1. split; vm_compute; discriminate.
Defined.

Lemma tick_thinning_witness :
  let g := graph_of stacked_graph [yearly 1990 2018 2035] in
  year_state g 1990 2035 2018 /\
  exists tick_vals tick_labels fig,
    get_ticks g = Ok (tick_vals, tick_labels) /\
    tick_vals = [1990; 1995; 2000; 2005; 2010; 2015; 2018; 2025; 2030; 2035] /\
    tick_labels = map pretty tick_vals /\
    get_figure (H := sample_externals) g = Ok fig /\
    axis_entry (layout fig) "xaxis" "tickvals" = Some (PList (map PInt tick_vals)) /\
    axis_entry (layout fig) "xaxis" "ticklabels" = Some (PList (map PStr tick_labels)).
Proof.
  intros g.
  assert (Hst : year_state g 1990 2035 2018) by (vm_compute; repeat split).
  split; [exact Hst|]. destruct Hst as (Hmin & Hmax & _).
  destruct (tick_thinning (H := sample_externals) g 1990 2035 Hmin Hmax
              ltac:(lia) ltac:(vm_compute; discriminate) ltac:(reflexivity))
    as (tv & tl & Hticks & Hfig & _ & _ & _ & _ & Hlab & _).
  destruct (get_figure (H := sample_externals) g) as [fig|e] eqn:Hrun;
    [|vm_compute in Hrun; discriminate Hrun].
  exists tv, tl, fig. split; [exact Hticks|].
  split; [vm_compute in Hticks; by injection Hticks as <- _|].
  split; [exact Hlab|]. split; [reflexivity|].
  exact (Hfig fig eq_refl).
Defined.

Lemma traces_per_segment_witness :
  exists traces h f,
    get_traces_for_series (H := sample_externals) plain_graph
      (coloured plain_graph measured_only) 0 false = Ok traces /\
    traces = [f; h] /\
    name h = Some "Emissions" /\
    name f = Some "Emissions (enn.)".
Proof.
  destruct (traces_per_segment (H := sample_externals) plain_graph
              (coloured plain_graph measured_only) 0 false _ eq_refl)
    as (forecast & c & values & h & f & Hfc & Hc & Hval & Htr & _ & Hh & Hf & Hhn & Hfn & _).
  injection Hfc as <-. injection Hc as <-. injection Hval as <-.
  assert (Hsome : is_Some h).
  { apply Hh. exists {| year := 2000; is_forecast := false; value := CFloat 1 |}.
    repeat split. by left. }
  destruct Hsome as [t Ht]. subst h.
  destruct (proj2 Hf (or_introl (mk_is_Some _ _ eq_refl))) as [t' Ht']. subst f.
  eexists _, t, t'. split; [reflexivity|]. split; [exact Htr|].
  split; [exact (proj1 (Hhn t eq_refl))|exact (proj1 (Hfn t' eq_refl))].
Defined.

Lemma stacking_and_filling_rules_witness :
  (exists h f,
     get_traces_for_series (H := sample_externals) stacked_graph
       (coloured stacked_graph measured_and_projected) 1 true = Ok [f; h] /\
     name h = Some "Emissions" /\ name f = Some "Emissions (enn.)" /\
     attrs h !! "fill" = Some "tonexty" /\ attrs f !! "fill" = Some "tonexty" /\
     attrs h !! "mode" = Some "none" /\ attrs f !! "mode" = Some "none") /\
  (exists h f,
     get_traces_for_series (H := sample_externals) plain_graph
       (coloured plain_graph measured_and_projected) 0 false = Ok [f; h] /\
     attrs h !! "fill" = None /\ attrs f !! "fill" = None /\
     attrs h !! "mode" = Some "lines" /\ attrs f !! "mode" = Some "lines" /\
     line h !! "dash" = None /\ line f !! "dash" = Some (PStr "dash")).
Proof.
  split.
  - destruct (get_traces_for_series (H := sample_externals) stacked_graph
                (coloured stacked_graph measured_and_projected) 1 true)
      as [traces|e] eqn:Hrun; [|vm_compute in Hrun; discriminate Hrun].
    destruct (stacking_and_filling_rules (H := sample_externals) stacked_graph
                (coloured stacked_graph measured_and_projected) 1 true traces Hrun)
      as (forecast & c & values & h & f & Hfc & Hc & Hval & -> & Hh & Hf
          & Hhn & Hfn & Hattrs & _).
    injection Hfc as <-. injection Hc as <-. injection Hval as <-.
    destruct h as [h|]; [|discriminate (proj1 Hh eq_refl)].
    destruct f as [f|]; [|discriminate (proj1 Hf eq_refl)].
    exists h, f. split; [reflexivity|].
    split; [exact (Hhn h eq_refl)|]. split; [exact (Hfn f eq_refl)|].
    destruct (Hattrs h (or_intror (or_introl eq_refl))) as (Hnext_h & _ & Hnone_h & _).
    destruct (Hattrs f (or_introl eq_refl)) as (Hnext_f & _ & Hnone_f & _).
    split; [apply Hnext_h; [reflexivity|lia]|].
    split; [apply Hnext_f; [reflexivity|lia]|].
    split; [apply Hnone_h; reflexivity|apply Hnone_f; reflexivity].
  - destruct (get_traces_for_series (H := sample_externals) plain_graph
                (coloured plain_graph measured_and_projected) 0 false)
      as [traces|e] eqn:Hrun; [|vm_compute in Hrun; discriminate Hrun].
    destruct (stacking_and_filling_rules (H := sample_externals) plain_graph
                (coloured plain_graph measured_and_projected) 0 false traces Hrun)
      as (forecast & c & values & h & f & Hfc & Hc & Hval & -> & Hh & Hf
          & _ & _ & Hattrs & Hdash).
    injection Hfc as <-. injection Hc as <-. injection Hval as <-.
    destruct h as [h|]; [|discriminate (proj1 Hh eq_refl)].
    destruct f as [f|]; [|discriminate (proj1 Hf eq_refl)].
    exists h, f. split; [reflexivity|].
    destruct (Hattrs h (or_intror (or_introl eq_refl))) as (_ & _ & _ & Hlines_h).
    destruct (Hattrs f (or_introl eq_refl)) as (_ & _ & _ & Hlines_f).
    destruct (Hdash eq_refl) as [Hdf Hdh].
    vm_compute in Hrun. injection Hrun as <- <-.
    split; [reflexivity|]. split; [reflexivity|].
    split; [apply Hlines_h; reflexivity|]. split; [apply Hlines_f; reflexivity|].
    split; [exact (Hdh _ eq_refl)|exact (Hdf _ eq_refl)].
Defined.

Lemma get_color_base_colour_witness :
  sector_name (graph darkened) = Some "Transportation" /\
  GHG_MAIN_SECTOR_COLORS (Externals := sample_externals) !! "Transportation" = Some "red" /\
  forall forecast,
    get_color (H := sample_externals) darkened forecast
    = Ok (sample_Color_hex
            (set_luminance
               (derived_luminance (Some (-3 # 10)%Q) forecast (1 # 2)) red)).
Proof.
  split; [reflexivity|]. split; [vm_compute; reflexivity|].
  pose proof (proj1 (get_color_base_colour (H := sample_externals) darkened
                       "Transportation" "red" eq_refl ltac:(vm_compute; reflexivity))
                    eq_refl eq_refl) as Hget.
  intros forecast. rewrite (Hget forecast). by destruct forecast.
Defined.

Lemma make_layout_witness :
  let kwargs := [ ("title", PStr "Emissions"); ("legend", PDict []);
                  ("yaxis", PDict [("title", PStr "kt")]) ] in
  NoDup (map fst kwargs) /\
  dict_get "title" (make_layout (H := sample_externals) kwargs)
    = Some (PStr "<b>Emissions</b>") /\
  dict_get "showlegend" (make_layout (H := sample_externals) kwargs) = None.
Proof.
  intros kwargs.
  assert (Hnd : NoDup (map fst kwargs)) by (apply (bool_decide_unpack _); exact I).
  split; [exact Hnd|].
  destruct (make_layout_merges_defaults (H := sample_externals) kwargs Hnd)
    as (_ & _ & _ & _ & _ & Hshow & Htitle & _).
  split; [exact (Htitle (PStr "Emissions") eq_refl)|].
  apply (Hshow eq_refl). discriminate.
Defined.


Lemma add_series_year_bounds_witness :
  exists g hys,
    add_series_seq (new_graph plain_graph)
      [args_of (yearly 1990 2018 2035); args_of (yearly 2000 2015 2030)] = Ok g /\
    year_state g 1990 2035 2015 /\
    least_of_smallest (map (fun s => index (df s)) (series_list g)) 1990 /\
    greatest_of_largest (map (fun s => index (df s)) (series_list g)) 2035 /\
    Forall2 (fun s hy => historical_years s = Ok hy) (series_list g) hys /\
    least_of_largest hys 2015.
Proof.
  destruct (add_series_seq (new_graph plain_graph)
              [args_of (yearly 1990 2018 2035); args_of (yearly 2000 2015 2030)])
    as [g|e] eqn:Hg; [|vm_compute in Hg; discriminate Hg].
  destruct (add_series_year_bounds plain_graph _ g Hg)
    as (_ & Hmin & Hmax & hys & Hhys & Hf).
  assert (Hst : year_state g 1990 2035 2015)
    by (vm_compute in Hg; injection Hg as <-; repeat split).
  destruct Hst as (Hlo & Hhi & Hfs).
  assert (Hone : exists s1 s2,
            series_list g = [s1; s2] /\
            index (df s1) = seqZ 1990 46 /\ index (df s2) = seqZ 2000 31 /\
            historical_years s1 = Ok (seqZ 1990 29) /\
            historical_years s2 = Ok (seqZ 2000 16))
    by (vm_compute in Hg; injection Hg as <-; eexists _, _; repeat split).
  destruct Hone as (s1 & s2 & Hsl & Hi1 & Hi2 & Hh1 & Hh2).
  rewrite Hsl in Hmin, Hmax, Hhys. cbn [map] in Hmin, Hmax.
  rewrite Hi1, Hi2, Hlo in Hmin. rewrite Hi1, Hi2, Hhi in Hmax.
  destruct Hmin as (lo & [= <-] & Hmin). destruct Hmax as (hi & [= <-] & Hmax).
  apply Forall2_cons_inv_l in Hhys as (hy1 & hys1 & Hhy1 & Hhys & ->).
  apply Forall2_cons_inv_l in Hhys as (hy2 & hys2 & Hhy2 & Hhys & ->).
  apply Forall2_nil_inv_l in Hhys as ->.
  rewrite Hh1 in Hhy1. rewrite Hh2 in Hhy2.
  injection Hhy1 as <-. injection Hhy2 as <-.
  rewrite Hfs in Hf. destruct Hf as (f & [= <-] & Hf).
  exists g, [seqZ 1990 29; seqZ 2000 16]. split; [reflexivity|].
  split; [by repeat split|]. rewrite Hsl. cbn [map]. rewrite Hi1, Hi2.
  split; [exact Hmin|]. split; [exact Hmax|]. split; [|exact Hf].
  by repeat constructor.
Defined.

Lemma series_construction_witness :
  integer_years (yearly 2005 2010 2020) /\
  exists s',
    post_init (unnamed_column (yearly 2005 2010 2020) None) = Ok s' /\
    column_name s' = Some "Emissions" /\
    head (index (df s')) = Some 2005.
Proof.
  assert (Hint : integer_years (yearly 2005 2010 2020)).
  { intros col Hcol. vm_compute in Hcol. injection Hcol as <-.
    exists (seqZ 2005 16). reflexivity. }
  split; [exact Hint|].
  destruct (series_construction (unnamed_column (yearly 2005 2010 2020) None) Hint)
    as (_ & _ & Hfalsy & Hrest).
  destruct (Hfalsy eq_refl eq_refl) as (_ & Hone).
  destruct (Hone "Emissions" eq_refl) as (s' & Hs' & Hcn).
  exists s'. split; [exact Hs'|]. split; [exact Hcn|].
  destruct (Hrest s' Hs') as (_ & _ & _ & _ & _ & _ & Hyear).
  destruct (Hyear eq_refl) as (years & Hcol & Hidx & _).
  rewrite Hidx. injection Hcol as Hcol.
  destruct years as [|z years]; [discriminate Hcol|].
  by injection Hcol as <- _.
Defined.

(** ** Counterexamples *)

(** C1 as first stated.  The point of the last historical year is in both
    traces. *)
Lemma traces_share_last_historical_point :
  match get_traces_for_series (H := sample_externals) plain_graph
          (coloured plain_graph one_each) 0 false with
  | Ok [f; h] =>
      name h = Some "Emissions" /\ name f = Some "Emissions (enn.)" /\
      In (2000, CFloat 1) (y h) /\ In (2000, CFloat 1) (y f)
  | _ => False
  end.
Proof. vm_compute. repeat split; by left. Qed.

(** C4 as first stated.  On a frame with one measured year and no
    [Forecast] row a forecast trace is emitted all the same, plotting the
    measured point; and on a frame whose only measurement lies before the
    final run of consecutive years no historical trace is emitted although
    the historical segment has a value. *)
Lemma forecast_trace_without_forecast_rows :
  (get_attr "Forecast" measured_only ≫= as_mask = Ok [false] /\
   dropna (loc [false] (index measured_only) [CFloat 1]) = [] /\
   match get_traces_for_series (H := sample_externals) plain_graph
           (coloured plain_graph measured_only) 0 false with
   | Ok [f; h] =>
       name h = Some "Emissions" /\
       name f = Some "Emissions (enn.)" /\ y f = [(2000, CFloat 1)]
   | _ => False
   end) /\
  (get_attr "Forecast" old_measurement ≫= as_mask = Ok [false; true] /\
   dropna (loc (mask_not [false; true]) (index old_measurement) [CFloat 5; CFloat 1])
     = [(1990, CFloat 5)] /\
   match get_traces_for_series (H := sample_externals) consecutive_graph
           (coloured consecutive_graph old_measurement) 0 false with
   | Ok [f] => name f = Some "Emissions (enn.)" /\ y f = [(2000, CFloat 1)]
   | _ => False
   end).
Proof. vm_compute. repeat split. Qed.

(** C7 as first stated.  A given [showlegend] is kept although ['legend']
    is not given. *)
Lemma given_showlegend_wins :
  dict_get "legend" [("showlegend", PBool true)] = None /\
  dict_get "showlegend"
    (make_layout (H := sample_externals) [("showlegend", PBool true)])
  = Some (PBool true).
Proof. vm_compute. by split. Qed.

(** C10 as first stated.  With the empty string as [column_name], a frame
    with ['Forecast'] and two value columns is refused. *)
Lemma empty_column_name_asserts_single_column :
  list_mem "Forecast" (column_names two_columns) = true /\
  post_init (unnamed_column two_columns (Some EmptyString)) = Raise AssertionError.
Proof. vm_compute. by split. Qed.

(** C2 as first stated.  On a base colour of luminance 1/2 the change 1.2
    blends to the luminance 1.1, and [get_color] raises [ValueError] where
    the hex form of the colour is taken, instead of returning a colour. *)
Lemma blended_luminance_out_of_range :
  truthy_str (historical_color overlit) = false /\
  luminance_change overlit = Some (12 # 10)%Q /\
  sector_name (graph overlit)
    ≫= (GHG_MAIN_SECTOR_COLORS (Externals := sample_externals) !!.) = Some "red" /\
  Color_new (Externals := sample_externals) "red" = Ok red /\
  (luminance red + (1 - luminance red) * (12 # 10) == 11 # 10)%Q /\
  get_color (H := sample_externals) overlit false = Raise ValueError.
Proof. vm_compute. by repeat split. Qed.

(** C3 as first stated.  A graph with one series whose frame has no rows
    has no integer year range, and [get_figure] fails on it; and when
    [max_year] is the greatest [int64], the figure has no tick at all, so
    that [min_year] is not the first tick. *)
Lemma no_ticks_without_year_range :
  (let g := graph_of plain_graph [no_rows] in
   length (series_list g) = 1%nat /\
   min_year g = Some NaN /\
   get_figure (H := sample_externals) g = Raise TypeError) /\
  (let g := graph_of stacked_graph [last_year] in
   length (series_list g) = 1%nat /\
   min_year g = Some (Int INT64_MAX) /\ max_year g = Some (Int INT64_MAX) /\
   match get_figure (H := sample_externals) g with
   | Ok fig => axis_entry (layout fig) "xaxis" "tickvals" = Some (PList [])
   | Raise _ => False
   end).
Proof. vm_compute. by repeat split. Qed.

(** C9 as first stated.  After a first series without rows the year
    attributes are [nan] and stay so, whatever the years of the next series;
    and after a first series without a historical row
    [forecast_start_year] is [nan] although a later series has one. *)
Lemma empty_first_frame_leaves_nan :
  (exists g,
     add_series_seq (new_graph plain_graph)
       [args_of no_rows; args_of measured_and_projected] = Ok g /\
     map (fun s => index (df s)) (series_list g) = [[]; [2000; 2001; 2002]] /\
     min_year g = Some NaN /\ max_year g = Some NaN /\
     forecast_start_year g = Some NaN) /\
  (exists g,
     add_series_seq (new_graph plain_graph)
       [args_of projected_only; args_of measured_and_projected] = Ok g /\
     map historical_years (series_list g) = [Ok []; Ok [2000; 2001]] /\
     min_year g = Some (Int 2000) /\ max_year g = Some (Int 2002) /\
     forecast_start_year g = Some NaN).
Proof. split; eexists; vm_compute; by repeat split. Qed.

(** * Further properties of components/graphs.py *)

(** ** Colours *)

Section ColourEdges.
Context `{Externals}.

(** A colour set for the requested segment is returned as it is. *)
Lemma get_color_explicit (s : PredictionGraphSeries) (forecast : bool) (c : string) :
  (if forecast then forecast_color s else historical_color s) = Some c ->
  c <> EmptyString ->
  get_color s forecast = Ok c.
Proof.
  intros Hc Hne. unfold get_color. rewrite Hc. cbn.
  destruct (String.eqb_spec c EmptyString) as [Heq|_]; [contradiction|reflexivity].
Qed.

(** X2.  [get_color] fails only for a segment without explicit colour, and
    then in three ways only: with [KeyError] when the base colour has to
    come from the sector table and the graph's sector is [None] or not in
    it; with the error of the colour library when it parses the base
    colour; and with [ValueError] from [.hex] when the derived luminance
    lies outside the range from 0 to 1 (up to the library's allowance for
    rounding). *)
Theorem get_color_failure (s : PredictionGraphSeries) (forecast : bool) (e : exn) :
  get_color s forecast = Raise e ->
  truthy_str (if forecast then forecast_color s else historical_color s) = false /\
  let source :=
    if forecast && truthy_str (historical_color s)
    then historical_color s
    else sector_name (graph s) ≫= (GHG_MAIN_SECTOR_COLORS !!.) in
  (source = None /\ e = KeyError) \/
  exists web,
    source = Some web /\
    (Color_new web = Raise e \/
     exists base,
       Color_new web = Ok base /\ e = ValueError /\
       ~ (0 - FLOAT_ERROR
          <= derived_luminance (luminance_change s) forecast (luminance base)
          <= 1 + FLOAT_ERROR)%Q).
Proof.
  intros Hrun.
  destruct (truthy_str (if forecast then forecast_color s else historical_color s))
    eqn:Hexp.
  { unfold get_color in Hrun. rewrite Hexp in Hrun. discriminate. }
  split; [reflexivity|]. cbv zeta.
  rewrite (get_color_derived s forecast Hexp) in Hrun.
  assert (Hbase : forall web,
            (Color_new web ≫= fun base =>
               get_hex (set_luminance
                          (derived_luminance (luminance_change s) forecast
                                             (luminance base)) base)) = Raise e ->
            Color_new web = Raise e \/
            exists base,
              Color_new web = Ok base /\ e = ValueError /\
              ~ (0 - FLOAT_ERROR
                 <= derived_luminance (luminance_change s) forecast (luminance base)
                 <= 1 + FLOAT_ERROR)%Q).
  { intros web Hweb. destruct (Color_new web) as [base|e'] eqn:Hnew.
    - right. exists base. split; [reflexivity|]. cbn -[get_hex] in Hweb.
      rewrite (get_hex_set_luminance web base _ Hnew) in Hweb.
      destruct (in_unit_range _) eqn:Hin in Hweb; [discriminate Hweb|].
      injection Hweb as <-. split; [reflexivity|].
      intros Hok. apply in_unit_range_iff in Hok. congruence.
    - left. cbn in Hweb. congruence. }
  destruct (forecast && truthy_str (historical_color s)) eqn:Hsrc.
  - apply andb_prop in Hsrc as [_ Hh].
    destruct (historical_color s) as [web|]; [|discriminate Hh].
    right. exists web. split; [reflexivity|]. by apply Hbase.
  - destruct (sector_name (graph s) ≫= _) as [web|].
    + right. exists web. split; [reflexivity|]. by apply Hbase.
    + left. split; [reflexivity|]. cbn in Hrun. congruence.
Qed.

End ColourEdges.

(** ** Traces *)

Section TraceEdges.
Context `{Externals}.

(** What every returned trace carries whatever its segment: the hover
    template and the width and smoothing of its line. *)
Lemma get_traces_for_series_style self series index hm traces :
  get_traces_for_series self series index hm = Ok traces ->
  forall t, In t traces ->
    hovertemplate t =
      (if truthy_str (unit_name self)
       then "%{x}: %{y}" +:+ " " +:+ default EmptyString (unit_name self)
       else "%{x}: %{y}") /\
    line t !! "width" = Some (PInt 4) /\
    line t !! "shape" = (if smoothing self then Some (PStr "spline") else None) /\
    line t !! "smoothing" = (if smoothing self then Some (PInt 1) else None).
Proof.
  unfold get_traces_for_series. intros Hrun.
  apply bind_Ok in Hrun as (forecast & _ & Hrun).
  apply bind_Ok in Hrun as (values & _ & Hrun).
  apply bind_Ok in Hrun as ([[tr ta] fser] & Hhist & Hrun).
  assert (Htr : forall t, In t tr ->
    hovertemplate t =
      (if truthy_str (unit_name self)
       then "%{x}: %{y}" +:+ " " +:+ default EmptyString (unit_name self)
       else "%{x}: %{y}") /\
    line t !! "width" = Some (PInt 4) /\
    line t !! "shape" = (if smoothing self then Some (PStr "spline") else None) /\
    line t !! "smoothing" = (if smoothing self then Some (PInt 1) else None)).
  { destruct (negb _) in Hhist.
    - apply bind_Ok in Hhist as (hc & _ & Hhist). injection Hhist as <- _ _.
      intros t [<-|[]]. cbn [hovertemplate line].
      split; [reflexivity|]. destruct (smoothing self); by simplify_map_eq.
    - injection Hhist as <- _ _. intros t []. }
  destruct (negb _) in Hrun.
  - apply bind_Ok in Hrun as (fc & _ & Hrun). injection Hrun as <-.
    intros t [<-|Ht]; [|by apply Htr]. cbn [hovertemplate line].
    split; [reflexivity|].
    destruct (smoothing self), (fill self); by simplify_map_eq.
  - injection Hrun as <-. exact Htr.
Qed.

(** X1.  With both colours set on the series, the historical trace is drawn
    in [historical_color] and the forecast trace in [forecast_color] exactly
    as given: no luminance change, no lightening, and neither the sector
    table nor the colour library is consulted. *)
Theorem explicit_colours_are_used self series index hm traces (hc fc : string) :
  historical_color series = Some hc -> hc <> EmptyString ->
  forecast_color series = Some fc -> fc <> EmptyString ->
  get_traces_for_series self series index hm = Ok traces ->
  forall t, In t traces ->
    (name t = trace_name series ->
       line t !! "color" = Some (PStr hc) /\
       (fill self = true -> attrs t !! "fillcolor" = Some hc)) /\
    (name t <> trace_name series ->
       line t !! "color" = Some (PStr fc) /\
       (fill self = true -> attrs t !! "fillcolor" = Some fc)).
Proof.
  intros Hhc Hhne Hfc Hfne Hrun t Ht.
  apply get_traces_for_series_inv in Hrun
    as (forecast & c & values & _ & _ & _ & h & f & -> & _ & _ & Hht & Hft).
  pose proof (forecast_name_differs (trace_name series)) as Hdiff.
  apply in_app_or in Ht as [Ht|Ht].
  - destruct f as [t'|]; [|done]. destruct Ht as [<-|[]].
    destruct (Hft t' eq_refl)
      as (_ & _ & _ & Hname & col & Hcol & Hline & _ & _ & _ & _ & _ & Hfill).
    rewrite (get_color_explicit series true fc Hfc Hfne) in Hcol. injection Hcol as <-.
    split.
    + intros Heq. rewrite Hname in Heq. by destruct Hdiff.
    + intros _. split; [exact Hline|]. intros Hf. by rewrite Hfill, Hf.
  - destruct h as [t'|]; [|done]. destruct Ht as [<-|[]].
    destruct (Hht t' eq_refl)
      as (_ & _ & _ & Hname & col & Hcol & Hline & _ & _ & _ & _ & _ & Hfill).
    rewrite (get_color_explicit series false hc Hhc Hhne) in Hcol. injection Hcol as <-.
    split.
    + intros _. split; [exact Hline|]. intros Hf. by rewrite Hfill, Hf.
    + intros Hne. by destruct Hne.
Qed.

(** X4.  Every returned trace is well formed: it is a scatter trace, it is
    not empty, it holds no missing value, its x labels are the decimal
    strings of the years of its points, and its years are index labels of
    the frame. *)
Theorem traces_are_well_formed self series index hm traces :
  get_traces_for_series self series index hm = Ok traces ->
  forall t, In t traces ->
    type_ t = "scatter" /\
    y t <> [] /\
    x t = astype_str (series_index (y t)) /\
    length (x t) = length (y t) /\
    (forall p, In p (y t) ->
       is_nan (snd p) = false /\ In (fst p) (Pandas.index (df series))).
Proof.
  intros Hrun t Ht.
  apply get_traces_for_series_inv in Hrun
    as (forecast & c & values & _ & _ & _ & h & f & -> & Hh & Hf & Hht & Hft).
  assert (Hgen : forall fcst sel (p : Row -> bool),
    sel = List.filter p (rows (Pandas.index (df series)) forecast values) ->
    (forall r, p r = true -> is_nan (value r) = false) ->
    sel <> [] -> segment_trace self series index fcst sel t ->
    type_ t = "scatter" /\ y t <> [] /\ x t = astype_str (series_index (y t)) /\
    length (x t) = length (y t) /\
    (forall q, In q (y t) ->
       is_nan (snd q) = false /\ In (fst q) (Pandas.index (df series)))).
  { intros fcst sel p Hsel Hp Hne (Hty & Hx & Hy & _).
    split; [exact Hty|]. rewrite Hx, Hy, series_index_points.
    split; [by destruct sel|]. split; [reflexivity|].
    split; [unfold astype_str; by rewrite !length_map|].
    intros q Hq. apply in_map_iff in Hq as (r & <- & Hr).
    rewrite Hsel in Hr. apply filter_In in Hr as [Hr Hpr]. cbn.
    split; [by apply Hp|by apply rows_year_In in Hr]. }
  apply in_app_or in Ht as [Ht|Ht].
  - destruct f as [t'|]; [|done]. destruct Ht as [<-|[]].
    eapply Hgen; [reflexivity| |intros Hnil; by apply Hf in Hnil|by apply Hft].
    intros r Hr. unfold in_forecast in Hr.
    by apply andb_prop in Hr as [_ ?%negb_true_iff].
  - destruct h as [t'|]; [|done]. destruct Ht as [<-|[]].
    eapply Hgen; [reflexivity| |intros Hnil; by apply Hh in Hnil|by apply Hht].
    intros r Hr. unfold in_historical in Hr.
    by apply andb_prop in Hr as [_ ?%negb_true_iff].
Qed.

(** X5.  In a stacked graph the historical trace belongs to the stack group
    ['history'] and the forecast trace to the stack group ['forecast'];
    without stacking no trace has a stack group.  With [fill] the fill colour
    of a trace is the colour of its line; without [fill] there is none. *)
Theorem stack_groups_and_fill_colour self series index hm traces :
  get_traces_for_series self series index hm = Ok traces ->
  forall t, In t traces ->
    (stacked self = true ->
       (name t = trace_name series -> attrs t !! "stackgroup" = Some "history") /\
       (name t <> trace_name series -> attrs t !! "stackgroup" = Some "forecast")) /\
    (stacked self = false -> attrs t !! "stackgroup" = None) /\
    (fill self = true ->
       exists colour, line t !! "color" = Some (PStr colour) /\
                      attrs t !! "fillcolor" = Some colour) /\
    (fill self = false -> attrs t !! "fillcolor" = None).
Proof.
  intros Hrun t Ht.
  apply get_traces_for_series_inv in Hrun
    as (forecast & c & values & _ & _ & _ & h & f & -> & _ & _ & Hht & Hft).
  pose proof (forecast_name_differs (trace_name series)) as Hdiff.
  apply in_app_or in Ht as [Ht|Ht].
  - destruct f as [t'|]; [|done]. destruct Ht as [<-|[]].
    destruct (Hft t' eq_refl)
      as (_ & _ & _ & Hname & col & _ & Hline & _ & _ & _ & _ & Hsg & Hfill).
    rewrite Hsg, Hfill. split; [|split; [|split]].
    + intros ->. split; [|done].
      intros Heq. rewrite Hname in Heq. by destruct Hdiff.
    + by intros ->.
    + intros ->. by exists col.
    + by intros ->.
  - destruct h as [t'|]; [|done]. destruct Ht as [<-|[]].
    destruct (Hht t' eq_refl)
      as (_ & _ & _ & Hname & col & _ & Hline & _ & _ & _ & _ & Hsg & Hfill).
    rewrite Hsg, Hfill. split; [|split; [|split]].
    + intros ->. split; [done|]. intros Hne. by destruct Hne.
    + by intros ->.
    + intros ->. by exists col.
    + by intros ->.
Qed.

(** X6.  Every trace has a line of width 4; the line is a spline with
    smoothing 1 exactly when [smoothing] is set; and the hover template is
    ['%{x}: %{y}'], followed by a blank and the unit when the graph has a
    non-empty [unit_name]. *)
Theorem line_style_and_hover_template self series index hm traces :
  get_traces_for_series self series index hm = Ok traces ->
  forall t, In t traces ->
    line t !! "width" = Some (PInt 4) /\
    (smoothing self = true ->
       line t !! "shape" = Some (PStr "spline") /\
       line t !! "smoothing" = Some (PInt 1)) /\
    (smoothing self = false ->
       line t !! "shape" = None /\ line t !! "smoothing" = None) /\
    (forall u, unit_name self = Some u -> u <> EmptyString ->
       hovertemplate t = "%{x}: %{y} " +:+ u) /\
    (unit_name self = None \/ unit_name self = Some EmptyString ->
       hovertemplate t = "%{x}: %{y}").
Proof.
  intros Hrun t Ht.
  destruct (get_traces_for_series_style _ _ _ _ _ Hrun t Ht) as (Hhov & Hw & Hsh & Hsm).
  split; [exact Hw|]. rewrite Hsh, Hsm, Hhov. split; [|split; [|split]].
  - by intros ->.
  - by intros ->.
  - intros u -> Hu. cbn. destruct (String.eqb_spec u EmptyString); [done|reflexivity].
  - intros [->| ->]; reflexivity.
Qed.
(** X7.  How [get_traces_for_series] fails.  Without a ['Forecast'] column
    it raises [AttributeError], and with a [column_name] that is not a column
    of the frame it raises [KeyError], in both cases before any colour is
    looked up.  On a frame whose ['Forecast'] column is boolean these are the
    only failures besides a failing [get_color]. *)
Theorem traces_failure self series index hm :
  (dict_get "Forecast" (columns (df series)) = None ->
   get_traces_for_series self series index hm = Raise AttributeError) /\
  (forall forecast c,
     get_attr "Forecast" (df series) ≫= as_mask = Ok forecast ->
     column_name series = Some c ->
     dict_get c (columns (df series)) = None ->
     get_traces_for_series self series index hm = Raise KeyError) /\
  (forall e,
     (forall col, dict_get "Forecast" (columns (df series)) = Some col ->
                  exists mask, as_mask col = Ok mask) ->
     get_traces_for_series self series index hm = Raise e ->
     (dict_get "Forecast" (columns (df series)) = None /\ e = AttributeError) \/
     ((column_name series = None \/
       exists c, column_name series = Some c /\
                 dict_get c (columns (df series)) = None) /\ e = KeyError) \/
     (exists forecast, get_color series forecast = Raise e)).
Proof.
  split; [|split].
  - intros Hno. unfold get_traces_for_series, get_attr. by rewrite Hno.
  - intros forecast c Hfc Hc Hno. unfold get_traces_for_series.
    rewrite Hfc, Hc. unfold get_column. by rewrite Hno.
  - intros e Hbool Hrun. unfold get_traces_for_series in Hrun.
    unfold get_attr in Hrun.
    destruct (dict_get "Forecast" (columns (df series))) as [col|] eqn:Hcol;
      [|left; split; [reflexivity|]; cbn in Hrun; congruence].
    destruct (Hbool col eq_refl) as [mask Hmask]. cbn in Hrun.
    rewrite Hmask in Hrun. cbn in Hrun. right.
    destruct (column_name series) as [c|];
      [|left; split; [by left|]; cbn in Hrun; congruence].
    unfold get_column in Hrun.
    destruct (dict_get c (columns (df series))) as [values|] eqn:Hc;
      [|left; split; [right; by exists c|]; cbn in Hrun; congruence].
    cbn in Hrun. right.
    destruct (negb _) in Hrun.
    + destruct (get_color series false) as [hc|e'] eqn:Hhc;
        [|exists false; cbn in Hrun; congruence].
      cbn in Hrun. destruct (negb _) in Hrun; [|discriminate].
      destruct (get_color series true) as [fc|e'] eqn:Hfc; [discriminate|].
      exists true. cbn in Hrun. congruence.
    + cbn in Hrun. destruct (negb _) in Hrun; [|discriminate].
      destruct (get_color series true) as [fc|e'] eqn:Hfc; [discriminate|].
      exists true. cbn in Hrun. congruence.
Qed.

Lemma dropna_all_nan (mask : list bool) (idx : list Z) (values : list cell) :
  Forall (fun v => is_nan v = true) values -> dropna (loc mask idx values) = [].
Proof.
  intros Hall. unfold dropna, loc.
  revert mask idx. induction Hall as [|v values Hv _ IH]; intros mask idx.
  - destruct mask, idx; reflexivity.
  - destruct mask as [|b mask], idx as [|i idx]; try reflexivity. cbn.
    destruct b; cbn; [rewrite Hv; cbn|]; apply IH.
Qed.

(** X8.  When the plotted column holds no value at all (every cell is
    missing, or the frame has no rows), [get_traces_for_series] returns no
    trace, and it does so without looking up a colour: also for a series
    whose colours could not be resolved. *)
Theorem no_values_no_traces self series index hm forecast c values :
  get_attr "Forecast" (df series) ≫= as_mask = Ok forecast ->
  column_name series = Some c ->
  get_column c (df series) = Ok values ->
  Forall (fun v => is_nan v = true) values ->
  get_traces_for_series self series index hm = Ok [].
Proof.
  intros Hfc Hc Hval Hall. unfold get_traces_for_series.
  rewrite Hfc, Hc. cbn. rewrite Hval. cbn.
  rewrite !dropna_all_nan by exact Hall. cbn.
  by rewrite dropna_all_nan.
Qed.
End TraceEdges.

(** ** Adding series *)

Lemma num_lt_Int (a : num) (z : Z) :
  (if num_lt a (Int z) then a else Int z) = Int z \/
  exists z', (if num_lt a (Int z) then a else Int z) = Int z' /\ z' < z /\ a = Int z'.
Proof.
  destruct a as [x|]; cbn; [|by left].
  destruct (Z.ltb_spec x z); [right; by exists x|by left].
Qed.

(** X9.  [add_series] appends exactly one series, the one built from its
    arguments, and leaves the options and the earlier series alone; it never
    narrows the year range: an integer [min_year] or [forecast_start_year]
    stays an integer and does not grow, an integer [max_year] stays an
    integer and does not shrink.  When the series cannot be built the call
    fails with the constructor's error. *)
Theorem add_series_widens_range (g : PredictionGraph) (a : SeriesArgs) :
  (forall e, new_series (options g) a = Raise e -> add_series g a = Raise e) /\
  (forall g', add_series g a = Ok g' ->
     options g' = options g /\
     (exists s, new_series (options g) a = Ok s /\
                series_list g' = series_list g ++ [s]) /\
     (forall lo, min_year g = Some (Int lo) ->
        exists lo', min_year g' = Some (Int lo') /\ lo' <= lo) /\
     (forall hi, max_year g = Some (Int hi) ->
        exists hi', max_year g' = Some (Int hi') /\ hi <= hi') /\
     (forall f, forecast_start_year g = Some (Int f) ->
        exists f', forecast_start_year g' = Some (Int f') /\ f' <= f)).
Proof.
  split.
  - intros e He. unfold add_series. by rewrite He.
  - intros g' Hadd.
    apply add_series_inv in Hadd as (s & hy & Hs & _ & Hopt & Hsl & Hmin & Hmax & Hfsy).
    split; [exact Hopt|]. split; [by exists s|]. split; [|split].
    + intros lo Hlo. rewrite Hlo in Hmin. rewrite Hmin.
      destruct (num_lt_Int (index_min (index (df s))) lo) as [->|(z & -> & Hz & _)].
      * exists lo. split; [reflexivity|lia].
      * exists z. split; [reflexivity|lia].
    + intros hi Hhi. rewrite Hhi in Hmax. rewrite Hmax.
      destruct (index_max (index (df s))) as [m|]; cbn.
      * destruct (Z.ltb_spec hi m); [exists m|exists hi]; split; (reflexivity || lia).
      * exists hi. split; [reflexivity|lia].
    + intros f Hf. rewrite Hf in Hfsy. rewrite Hfsy.
      destruct (num_lt_Int (index_max hy) f) as [->|(z & -> & Hz & _)].
      * exists f. split; [reflexivity|lia].
      * exists z. split; [reflexivity|lia].
Qed.

(** The year range of a graph filled by [add_series] bounds the index
    years of all its series, once it is made of integers. *)
Lemma add_series_seq_range (l : list SeriesArgs) (g g' : PredictionGraph) :
  add_series_seq g l = Ok g' ->
  (match min_year g with
   | None => series_list g = []
   | Some NaN => True
   | Some (Int lo) =>
       forall s z, In s (series_list g) -> In z (index (df s)) -> lo <= z
   end) ->
  (match max_year g with
   | None => series_list g = []
   | Some NaN => True
   | Some (Int hi) =>
       forall s z, In s (series_list g) -> In z (index (df s)) -> z <= hi
   end) ->
  (match min_year g' with
   | None => series_list g' = []
   | Some NaN => True
   | Some (Int lo) =>
       forall s z, In s (series_list g') -> In z (index (df s)) -> lo <= z
   end) /\
  (match max_year g' with
   | None => series_list g' = []
   | Some NaN => True
   | Some (Int hi) =>
       forall s z, In s (series_list g') -> In z (index (df s)) -> z <= hi
   end).
Proof.
  revert g. induction l as [|a l IH]; intros g; cbn.
  - intros [= <-] Hmin Hmax. by split.
  - intros Hrun Hmin Hmax.
    apply bind_Ok in Hrun as (g1 & Hadd & Hrun). apply (IH g1 Hrun).
    + apply add_series_inv in Hadd as (s & hy & _ & _ & _ & Hsl & Hmin1 & _).
      rewrite Hmin1, Hsl. clear Hmin1.
      destruct (min_year g) as [[lo|]|].
      * destruct (index_min (index (df s))) as [m|] eqn:Hm; cbn.
        -- apply index_min_Int in Hm as [_ Hm].
           destruct (Z.ltb_spec m lo); intros s' z [Hs'|[<-|[]]]%in_app_or Hz;
             try (specialize (Hmin s' z Hs' Hz)); try (specialize (Hm z Hz)); lia.
        -- apply index_min_NaN in Hm.
           intros s' z [Hs'|[<-|[]]]%in_app_or Hz; [by apply (Hmin s')|].
           by rewrite Hm in Hz.
      * by destruct (index_min (index (df s))).
      * rewrite Hmin. cbn. destruct (index_min (index (df s))) as [m|] eqn:Hm; [|done].
        apply index_min_Int in Hm as [_ Hm]. intros s' z [<-|[]] Hz. by apply Hm.
    + apply add_series_inv in Hadd as (s & hy & _ & _ & _ & Hsl & _ & Hmax1 & _).
      rewrite Hmax1, Hsl. clear Hmax1.
      destruct (max_year g) as [[hi|]|].
      * destruct (index_max (index (df s))) as [m|] eqn:Hm; cbn.
        -- apply index_max_Int in Hm as [_ Hm].
           destruct (Z.ltb_spec hi m); intros s' z [Hs'|[<-|[]]]%in_app_or Hz;
             try (specialize (Hmax s' z Hs' Hz)); try (specialize (Hm z Hz)); lia.
        -- apply index_max_NaN in Hm.
           intros s' z [Hs'|[<-|[]]]%in_app_or Hz; [by apply (Hmax s')|].
           by rewrite Hm in Hz.
      * done.
      * rewrite Hmax. cbn. destruct (index_max (index (df s))) as [m|] eqn:Hm; [|done].
        apply index_max_Int in Hm as [_ Hm]. intros s' z [<-|[]] Hz. by apply Hm.
Qed.

(** ** Figures *)

Section FigureEdges.
Context `{Externals}.

(** The traces of a figure, series by series. *)
Lemma traces_from_inv (o : GraphOptions) (hm : bool) (l : list PredictionGraphSeries) :
  forall (idx : Z) (traces : list Trace),
  traces_from o hm idx l = Ok traces ->
  exists per : list (list Trace),
    traces = concat per /\
    length per = length l /\
    forall (i : nat) s, l !! i = Some s ->
      exists ts, per !! i = Some ts /\
                 get_traces_for_series o s (idx + Z.of_nat i) hm = Ok ts.
Proof.
  induction l as [|s l IH]; intros idx traces; cbn.
  - intros [= <-]. exists []. split; [reflexivity|]. split; [reflexivity|].
    intros i s Hs. discriminate.
  - intros Hrun. apply bind_Ok in Hrun as (t & Ht & Hrun).
    apply bind_Ok in Hrun as (ts & Hts & [= <-]).
    destruct (IH _ _ Hts) as (per & -> & Hlen & Hall).
    exists (t :: per). split; [reflexivity|]. split; [cbn; by rewrite Hlen|].
    intros [|i] s' Hs'; cbn in Hs'.
    + injection Hs' as <-. exists t. split; [reflexivity|]. by rewrite Z.add_0_r.
    + destruct (Hall i s' Hs') as (ts' & Hper & Hget). exists ts'.
      split; [exact Hper|]. rewrite <- Hget. f_equal. lia.
Qed.

Lemma traces_at_most_two self series index hm traces :
  get_traces_for_series self series index hm = Ok traces ->
  (length traces <= 2)%nat.
Proof.
  intros Hrun. apply get_traces_for_series_inv in Hrun
    as (forecast & c & values & _ & _ & _ & h & f & -> & _).
  destruct h, f; cbn; lia.
Qed.

Lemma concat_length_bound {A} (per : list (list A)) (n : nat) :
  Forall (fun ts => (length ts <= n)%nat) per ->
  (length (concat per) <= n * length per)%nat.
Proof.
  induction 1 as [|ts per Hts _ IH]; cbn; [lia|].
  rewrite length_app. lia.
Qed.

Lemma figure_trace_count (g : PredictionGraph) (fig : Figure) :
  get_figure g = Ok fig ->
  (length (data fig) <= 2 * length (series_list g))%nat.
Proof.
  unfold get_figure. intros Hrun.
  apply bind_Ok in Hrun as ([tv tl] & _ & Hrun).
  apply bind_Ok in Hrun as (traces & Htraces & [= <-]). cbn [data].
  destruct (traces_from_inv _ _ _ _ _ Htraces) as (per & -> & Hlen & Hall).
  rewrite <- Hlen. apply concat_length_bound. apply Forall_forall.
  intros ts Hts. apply list_elem_of_lookup_1 in Hts as [i Hi].
  assert (Hlt : (i < length (series_list g))%nat).
  { rewrite <- Hlen. by apply lookup_lt_Some in Hi. }
  apply lookup_lt_is_Some in Hlt as [s Hs].
  destruct (Hall i s Hs) as (ts' & Hper & Hget).
  rewrite Hi in Hper. injection Hper as <-. by apply traces_at_most_two in Hget.
Qed.

(** X10.  The [data] of a figure lists the traces of the series in the order
    in which the series were added, each series contributing at most two
    traces built with its position as index; so in a stacked graph the
    traces of the first series are filled down to zero (['tozeroy']) and the
    traces of every later series down to the previous trace (['tonexty']). *)
Theorem figure_traces_in_series_order (g : PredictionGraph) (fig : Figure) :
  get_figure g = Ok fig ->
  exists per : list (list Trace),
    data fig = concat per /\
    length per = length (series_list g) /\
    (length (data fig) <= 2 * length (series_list g))%nat /\
    forall (i : nat) s, series_list g !! i = Some s ->
      exists ts,
        per !! i = Some ts /\
        get_traces_for_series (options g) s (Z.of_nat i)
          (1 <? length (series_list g))%nat = Ok ts /\
        (stacked (options g) = true ->
         forall t, In t ts ->
           attrs t !! "fill" = Some (if decide (i = 0%nat) then "tozeroy" else "tonexty")).
Proof.
  unfold get_figure. intros Hrun.
  apply bind_Ok in Hrun as ([tv tl] & _ & Hrun).
  apply bind_Ok in Hrun as (traces & Htraces & [= <-]). cbn [data].
  destruct (traces_from_inv _ _ _ _ _ Htraces) as (per & -> & Hlen & Hall).
  exists per. split; [reflexivity|]. split; [exact Hlen|]. split.
  - rewrite <- Hlen. apply concat_length_bound. apply Forall_forall.
    intros ts Hts. apply list_elem_of_lookup_1 in Hts as [i Hi].
    assert (Hlt : (i < length (series_list g))%nat).
    { rewrite <- Hlen. by apply lookup_lt_Some in Hi. }
    apply lookup_lt_is_Some in Hlt as [s Hs].
    destruct (Hall i s Hs) as (ts' & Hper & Hget).
    rewrite Hi in Hper. injection Hper as <-. by apply traces_at_most_two in Hget.
  - intros i s Hs. destruct (Hall i s Hs) as (ts & Hper & Hget). exists ts.
    split; [exact Hper|]. split; [exact Hget|].
    intros Hst t Ht.
    apply get_traces_for_series_inv in Hget
      as (forecast & c & values & _ & _ & _ & h & f & -> & _ & _ & Hht & Hft).
    assert (Hfill : attrs t !! "fill" = expected_fill (options g) (0 + Z.of_nat i)).
    { apply in_app_or in Ht as [Ht|Ht].
      - destruct f as [t'|]; [|done]. destruct Ht as [<-|[]].
        by destruct (Hft t' eq_refl) as (_ & _ & _ & _ & col & _ & _ & _ & _ & ? & _).
      - destruct h as [t'|]; [|done]. destruct Ht as [<-|[]].
        by destruct (Hht t' eq_refl) as (_ & _ & _ & _ & col & _ & _ & _ & _ & ? & _). }
    rewrite Hfill. unfold expected_fill. rewrite Hst. cbn.
    destruct i as [|i]; [reflexivity|].
    destruct (decide (S i = 0%nat)); [done|].
    by destruct (Z.ltb_spec 0 (Z.of_nat (S i))); [|lia].
Qed.
(** What [get_figure] computes from: an integer year range, and for every
    trace a series of the graph. *)
Lemma figure_data_of_series (g : PredictionGraph) (fig : Figure) :
  get_figure g = Ok fig ->
  (exists lo hi,
     min_year g = Some (Int lo) /\ max_year g = Some (Int hi) /\
     get_ticks g =
       Ok (fold_left (tick_step (forecast_start_year g) hi)
                     (range lo (int64_add hi 1)) ([], []))) /\
  forall t, In t (data fig) ->
    exists s idx hm traces,
      In s (series_list g) /\
      get_traces_for_series (options g) s idx hm = Ok traces /\
      In t traces.
Proof.
  unfold get_figure. intros Hrun.
  apply bind_Ok in Hrun as ([tv tl] & Hticks & Hrun).
  apply bind_Ok in Hrun as (traces & Htraces & [= <-]). cbn [data]. split.
  - unfold get_ticks in *.
    destruct (min_year g) as [[lo|]|]; try discriminate.
    destruct (max_year g) as [[hi|]|]; try discriminate.
    by exists lo, hi.
  - intros t Ht.
    destruct (traces_from_inv _ _ _ _ _ Htraces) as (per & -> & Hlen & Hall).
    apply in_concat in Ht as (ts & Hts & Ht).
    apply (proj2 (list_elem_of_In _ _)) in Hts.
    apply list_elem_of_lookup_1 in Hts as [i Hi].
    assert (Hlt : (i < length (series_list g))%nat).
    { rewrite <- Hlen. by apply lookup_lt_Some in Hi. }
    apply lookup_lt_is_Some in Hlt as [s Hs].
    destruct (Hall i s Hs) as (ts' & Hper & Hget).
    rewrite Hi in Hper. injection Hper as <-.
    exists s, (0 + Z.of_nat i), (1 <? length (series_list g))%nat, ts.
    split; [|by split]. apply list_elem_of_In. by apply list_elem_of_lookup_2 in Hs.
Qed.

Lemma add_series_seq_NaN (l : list SeriesArgs) (g g' : PredictionGraph) :
  add_series_seq g l = Ok g' -> min_year g = Some NaN -> min_year g' = Some NaN.
Proof.
  revert g. induction l as [|a l IH]; intros g; cbn.
  - by intros [= <-].
  - intros Hrun Hnan. apply bind_Ok in Hrun as (g1 & Hadd & Hrun).
    apply (IH g1 Hrun).
    apply add_series_inv in Hadd as (s & hy & _ & _ & _ & _ & Hmin & _).
    rewrite Hmin, Hnan. by destruct (index_min (index (df s))).
Qed.

(** X11.  [get_figure] fails with [TypeError] on a graph to which no series
    was added, and also on any graph whose first added series has a frame
    without rows, however many series were added after it: the year range
    then holds no integer to count from. *)
Theorem get_figure_without_years (o : GraphOptions) (l : list SeriesArgs)
    (g : PredictionGraph) :
  add_series_seq (new_graph o) l = Ok g ->
  (forall s, head (series_list g) = Some s -> index (df s) = []) ->
  get_figure g = Raise TypeError.
Proof.
  intros Hrun Hfirst.
  assert (Hmin : min_year g = None \/ min_year g = Some NaN).
  { destruct l as [|a l]; cbn in Hrun.
    - injection Hrun as <-. by left.
    - right. apply bind_Ok in Hrun as (g1 & Hadd & Hrun).
      apply (add_series_seq_NaN _ _ _ Hrun).
      pose proof (add_series_seq_series _ _ _ Hrun) as (_ & ss & Hss & _).
      apply add_series_inv in Hadd as (s & hy & _ & _ & _ & Hsl & Hmin & _).
      cbn in Hsl, Hmin. rewrite Hmin. f_equal. apply index_min_NaN.
      apply Hfirst. by rewrite Hss, Hsl. }
  unfold get_figure, get_ticks. by destruct Hmin as [-> | ->].
Qed.

Lemma ticks_last (fsy : option num) (lo hi : Z) :
  lo <= hi ->
  last (fst (fold_left (tick_step fsy hi) (range lo (hi + 1)) ([], []))) = Some hi.
Proof.
  intros Hle.
  destruct (ticks_split fsy lo hi hi) as (tvb & tlb & added & _ & _ & _ & _ & -> & Hafter);
    [lia|].
  rewrite tick_step_max. cbn [fst].
  destruct added as [|t added]; [by rewrite app_nil_r, last_snoc|].
  specialize (Hafter t (or_introl eq_refl)). lia.
Qed.

Lemma ticks_head (fsy : option num) (lo hi : Z) :
  lo <= hi ->
  head (fst (fold_left (tick_step fsy hi) (range lo (hi + 1)) ([], []))) = Some lo.
Proof.
  intros Hle.
  destruct (ticks_split fsy lo hi lo) as (tvb & tlb & added & Hb & _ & _ & _ & -> & _);
    [lia|].
  replace (range lo lo) with (@nil Z) in Hb
    by (unfold range; by rewrite seqZ_nil by lia).
  cbn in Hb. injection Hb as <- <-. by rewrite tick_step_first.
Qed.

(** On a graph filled by [add_series], an integer year range is not empty. *)
Lemma add_series_seq_range_ordered (o : GraphOptions) (l : list SeriesArgs)
    (g : PredictionGraph) (lo hi : Z) :
  add_series_seq (new_graph o) l = Ok g ->
  min_year g = Some (Int lo) -> max_year g = Some (Int hi) -> lo <= hi.
Proof.
  intros Hseq Hlo Hhi.
  destruct (add_series_seq_attributes l (new_graph o) g [] Hseq
              ltac:(constructor) eq_refl eq_refl eq_refl) as (Hmin & _).
  destruct (add_series_seq_range _ _ _ Hseq eq_refl eq_refl) as [Hge Hle].
  rewrite Hlo in Hmin, Hge. rewrite Hhi in Hle.
  destruct (series_list g) as [|s ss]; [discriminate Hmin|]. cbn in Hmin.
  destruct (index (df s)) as [|z idx] eqn:Hidx; [discriminate Hmin|].
  assert (Hz : In z (index (df s))) by (rewrite Hidx; by left).
  pose proof (Hge s z (or_introl eq_refl) Hz).
  pose proof (Hle s z (or_introl eq_refl) Hz). lia.
Qed.

(** X12.  In the figure of a graph filled by [add_series], every plotted
    point lies within the year range, from [min_year] to [max_year]; and
    [min_year] is the first tick and [max_year] the last, unless [max_year]
    is the greatest [int64]: there [max_year + 1] wraps around and the axis
    has no tick at all. *)
Theorem figure_points_within_ticks (o : GraphOptions) (l : list SeriesArgs)
    (g : PredictionGraph) (fig : Figure) :
  add_series_seq (new_graph o) l = Ok g ->
  get_figure g = Ok fig ->
  exists lo hi tick_vals tick_labels,
    min_year g = Some (Int lo) /\ max_year g = Some (Int hi) /\
    get_ticks g = Ok (tick_vals, tick_labels) /\
    lo <= hi /\
    (forall t p, In t (data fig) -> In p (y t) -> lo <= fst p <= hi) /\
    (INT64_MIN <= lo -> hi < INT64_MAX ->
     head tick_vals = Some lo /\ last tick_vals = Some hi) /\
    (INT64_MIN <= lo -> hi = INT64_MAX -> tick_vals = []).
Proof.
  intros Hseq Hfig.
  destruct (figure_data_of_series g fig Hfig) as (Hticks & Hdata).
  destruct Hticks as (lo & hi & Hlo & Hhi & Hticks).
  pose proof (add_series_seq_range_ordered o l g lo hi Hseq Hlo Hhi) as Hle.
  destruct (fold_left (tick_step (forecast_start_year g) hi)
                      (range lo (int64_add hi 1)) ([], [])) as [tv tl] eqn:Hfold.
  exists lo, hi, tv, tl.
  split; [exact Hlo|]. split; [exact Hhi|]. split; [exact Hticks|].
  split; [exact Hle|]. split; [|split].
  - intros t p Ht0 Hp.
    destruct (Hdata t Ht0) as (s & idx & hm & traces & Hs & Hget & Ht).
    destruct (add_series_seq_range _ _ _ Hseq eq_refl eq_refl) as [Hmin Hmax].
    rewrite Hlo in Hmin. rewrite Hhi in Hmax.
    apply get_traces_for_series_inv in Hget
      as (forecast & c & values & _ & _ & _ & h & f & -> & _ & _ & Hht & Hft).
    assert (Hyear : In (fst p) (index (df s))).
    { apply in_app_or in Ht as [Ht|Ht].
      - destruct f as [t'|]; [|done]. destruct Ht as [<-|[]].
        destruct (Hft t' eq_refl) as (_ & _ & Hy & _). rewrite Hy in Hp.
        apply in_map_iff in Hp as (r & <- & Hr). apply filter_In in Hr as [Hr _].
        by apply rows_year_In in Hr.
      - destruct h as [t'|]; [|done]. destruct Ht as [<-|[]].
        destruct (Hht t' eq_refl) as (_ & _ & Hy & _). rewrite Hy in Hp.
        apply in_map_iff in Hp as (r & <- & Hr). apply filter_In in Hr as [Hr _].
        by apply rows_year_In in Hr. }
    pose proof (Hmin s (fst p) Hs Hyear). pose proof (Hmax s (fst p) Hs Hyear). lia.
  - intros Hlo64 Hhi64. rewrite int64_add_succ in Hfold by lia.
    pose proof (ticks_head (forecast_start_year g) lo hi Hle) as Hhead.
    pose proof (ticks_last (forecast_start_year g) lo hi Hle) as Hlast.
    rewrite Hfold in Hhead, Hlast. by split.
  - intros Hlo64 ->. rewrite int64_add_wraps in Hfold.
    unfold range in Hfold. rewrite seqZ_nil in Hfold by lia.
    cbn in Hfold. by injection Hfold as <- _.
Qed.
(** X13.  The layout of every figure: the legend is hidden, the hover mode
    is ['closest'], the height is 450, the title is the graph's title in bold
    (['<b>None</b>'] for a graph without title), the y axis is titled with
    the unit and keeps the default range mode, both axes have a fixed range,
    and the y axis ranges from 0 to [y_max] exactly when [y_max] is set and
    not zero. *)
Theorem figure_layout (g : PredictionGraph) (fig : Figure) :
  get_figure g = Ok fig ->
  let o := options g in
  dict_get "showlegend" (layout fig) = Some (PBool false) /\
  dict_get "hovermode" (layout fig) = Some (PStr "closest") /\
  dict_get "height" (layout fig) = Some (PInt 450) /\
  dict_get "title" (layout fig) = Some (PStr ("<b>" +:+ str_opt (title o) +:+ "</b>")) /\
  axis_entry (layout fig) "yaxis" "title" = Some (opt_str (unit_name o)) /\
  axis_entry (layout fig) "yaxis" "rangemode" = Some (PStr "tozero") /\
  axis_entry (layout fig) "yaxis" "fixedrange" = Some (PBool true) /\
  axis_entry (layout fig) "xaxis" "fixedrange" = Some (PBool true) /\
  (forall m, y_max o = Some m -> ~ (m == 0)%Q ->
     axis_entry (layout fig) "yaxis" "range" = Some (PList [PInt 0; PFloat m])) /\
  (y_max o = None \/ (exists m, y_max o = Some m /\ (m == 0)%Q) ->
     axis_entry (layout fig) "yaxis" "range" = None).
Proof.
  unfold get_figure. intros Hrun.
  apply bind_Ok in Hrun as ([tv tl] & _ & Hrun).
  apply bind_Ok in Hrun as (traces & _ & [= <-]). cbn [layout]. cbv zeta.
  destruct (title (options g)) as [ti|], (unit_name (options g)) as [u|];
    (destruct (y_max (options g)) as [m|];
     [destruct (Qeq_bool m 0) eqn:Hz|]; cbn [truthy_float default negb];
     try rewrite Hz; cbn [negb];
     do 8 (split; [reflexivity|]);
     (split;
      [ intros m' Hm' Hne; try discriminate; injection Hm' as <-;
        first [reflexivity | exfalso; apply Hne; by apply Qeq_bool_iff]
      | intros Hc;
        first [reflexivity
              | destruct Hc as [Hn|(m' & Hm' & Hz')];
                [discriminate
                |injection Hm' as <-; apply Qeq_bool_iff in Hz'; congruence]] ])).
Qed.

Lemma sorted_In_range (fsy : option num) (lo hi b : Z) :
  StronglySorted Z.lt
    (fst (fold_left (tick_step fsy hi) (range lo b) ([], []))).
Proof. apply fold_ticks_sorted. cbn. apply range_sorted. Qed.

(** X14.  The ticks come in strictly increasing order, so no year is ticked
    twice, with one label per tick; for [int64] years there are no ticks
    exactly when [max_year] is below [min_year] or is the greatest [int64],
    where [max_year + 1] wraps around; and the tick loop fails exactly when
    [min_year] or [max_year] is not an integer. *)
Theorem ticks_strictly_increasing (g : PredictionGraph) :
  (forall tick_vals tick_labels,
     get_ticks g = Ok (tick_vals, tick_labels) ->
     StronglySorted Z.lt tick_vals /\
     length tick_labels = length tick_vals /\
     exists lo hi,
       min_year g = Some (Int lo) /\ max_year g = Some (Int hi) /\
       (is_int64 lo -> is_int64 hi ->
        (tick_vals = [] <-> hi < lo \/ hi = INT64_MAX))) /\
  (forall e, get_ticks g = Raise e ->
     e = TypeError /\
     ~ exists lo hi, min_year g = Some (Int lo) /\ max_year g = Some (Int hi)).
Proof.
  split.
  - intros tv tl Hticks. unfold get_ticks in Hticks.
    destruct (min_year g) as [[lo|]|]; try discriminate.
    destruct (max_year g) as [[hi|]|]; try discriminate.
    injection Hticks as Hticks.
    pose proof (sorted_In_range (forecast_start_year g) lo hi (int64_add hi 1))
      as Hsorted.
    destruct (fold_ticks (forecast_start_year g) hi (range lo (int64_add hi 1)) [] [])
      as (added & Hfst & Hsub & Hlab).
    rewrite Hticks in Hsorted, Hfst, Hlab. cbn in Hfst, Hlab, Hsorted.
    split; [exact Hsorted|]. split.
    { rewrite Hlab by reflexivity. rewrite <- Hfst. by rewrite length_map. }
    exists lo, hi. split; [reflexivity|]. split; [reflexivity|].
    intros [Hlo1 Hlo2] [Hhi1 Hhi2]. split.
    + intros ->. destruct (Z.lt_ge_cases hi lo) as [Hlt|Hge]; [by left|].
      destruct (Z.eq_dec hi INT64_MAX) as [Hmax|Hmax]; [by right|].
      rewrite int64_add_succ in Hticks by lia.
      pose proof (ticks_head (forecast_start_year g) lo hi Hge) as Hhead.
      rewrite Hticks in Hhead. discriminate.
    + intros Hempty. subst added. destruct tv as [|t tv]; [reflexivity|].
      specialize (Hsub t (or_introl eq_refl)). apply range_In in Hsub.
      destruct (Z.eq_dec hi INT64_MAX) as [->|Hmax].
      * rewrite int64_add_wraps in Hsub. lia.
      * rewrite int64_add_succ in Hsub by lia. lia.
  - intros e Hticks. unfold get_ticks in Hticks.
    destruct (min_year g) as [[lo|]|]; [destruct (max_year g) as [[hi|]|]| |];
      try discriminate; injection Hticks as <-;
      (split; [reflexivity|]); intros (lo' & hi' & Hlo & Hhi); discriminate.
Qed.
Lemma add_series_seq_Int (l : list SeriesArgs) (g g' : PredictionGraph) :
  add_series_seq g l = Ok g' ->
  (exists lo, min_year g = Some (Int lo)) ->
  (exists hi, max_year g = Some (Int hi)) ->
  (exists lo, min_year g' = Some (Int lo)) /\ (exists hi, max_year g' = Some (Int hi)).
Proof.
  revert g. induction l as [|a l IH]; intros g; cbn.
  - intros [= <-]. by split.
  - intros Hrun [lo Hlo] [hi Hhi]. apply bind_Ok in Hrun as (g1 & Hadd & Hrun).
    apply add_series_inv in Hadd as (s & hy & _ & _ & _ & _ & Hmin & Hmax & _).
    rewrite Hlo in Hmin. rewrite Hhi in Hmax. apply (IH g1 Hrun).
    + rewrite Hmin. destruct (index_min (index (df s))) as [m|]; cbn; [|by exists lo].
      destruct (m <? lo); eauto.
    + rewrite Hmax. destruct (index_max (index (df s))) as [m|]; cbn; [|by exists hi].
      destruct (hi <? m); eauto.
Qed.

Lemma add_series_seq_masks (l : list SeriesArgs) (g g' : PredictionGraph) :
  add_series_seq g l = Ok g' ->
  (forall s, In s (series_list g) -> exists hy, historical_years s = Ok hy) ->
  forall s, In s (series_list g') -> exists hy, historical_years s = Ok hy.
Proof.
  revert g. induction l as [|a l IH]; intros g; cbn.
  - by intros [= <-].
  - intros Hrun Hall. apply bind_Ok in Hrun as (g1 & Hadd & Hrun).
    apply (IH g1 Hrun).
    apply add_series_inv in Hadd as (s & hy & _ & Hhy & _ & Hsl & _).
    rewrite Hsl. intros s' [Hs'|[<-|[]]]%in_app_or; [by apply Hall|by exists hy].
Qed.

Lemma traces_from_total (o : GraphOptions) (hm : bool) (l : list PredictionGraphSeries) :
  (forall s idx, In s l -> exists ts, get_traces_for_series o s idx hm = Ok ts) ->
  forall idx, exists traces, traces_from o hm idx l = Ok traces.
Proof.
  induction l as [|s l IH]; intros Hall idx; cbn; [by eexists|].
  destruct (Hall s idx (or_introl eq_refl)) as [ts ->].
  destruct (IH (fun s' i Hs' => Hall s' i (or_intror Hs')) (idx + 1)) as [tr ->].
  cbn. by eexists.
Qed.

(** X15.  [get_figure] succeeds on every graph filled by [add_series] whose
    first series has a frame with at least one row, provided the plotted
    column of every series exists and its two colours can be resolved. *)
Theorem get_figure_succeeds (o : GraphOptions) (l : list SeriesArgs)
    (g : PredictionGraph) :
  add_series_seq (new_graph o) l = Ok g ->
  (exists s, head (series_list g) = Some s /\ index (df s) <> []) ->
  (forall s, In s (series_list g) ->
     (exists c values, column_name s = Some c /\ get_column c (df s) = Ok values) /\
     (exists hc fc, get_color s false = Ok hc /\ get_color s true = Ok fc)) ->
  exists fig, get_figure g = Ok fig /\
              (length (data fig) <= 2 * length l)%nat.
Proof.
  intros Hrun (s0 & Hhead & Hidx) Hall.
  assert (Hint : (exists lo, min_year g = Some (Int lo)) /\
                 (exists hi, max_year g = Some (Int hi))).
  { destruct l as [|a l]; cbn in Hrun; [injection Hrun as <-; discriminate|].
    apply bind_Ok in Hrun as (g1 & Hadd & Hrun).
    pose proof (add_series_seq_series _ _ _ Hrun) as (_ & ss & Hss & _).
    apply add_series_inv in Hadd as (s & hy & _ & _ & _ & Hsl & Hmin & Hmax & _).
    cbn in Hsl, Hmin, Hmax. rewrite Hss, Hsl in Hhead. injection Hhead as ->.
    apply (add_series_seq_Int _ _ _ Hrun).
    - rewrite Hmin. destruct (index_min (index (df s0))) as [m|] eqn:Hm; [by exists m|].
      by apply index_min_NaN in Hm.
    - rewrite Hmax. destruct (index_max (index (df s0))) as [m|] eqn:Hm; [by exists m|].
      by apply index_max_NaN in Hm. }
  destruct Hint as [[lo Hlo] [hi Hhi]].
  pose proof (add_series_seq_series _ _ _ Hrun) as (Hopt & ss & Hss & Hlen).
  cbn in Hss, Hopt. apply Forall2_length in Hlen.
  assert (Htr : exists traces,
            traces_from (options g) (1 <? length (series_list g))%nat 0 (series_list g)
            = Ok traces).
  { apply traces_from_total. intros s idx Hs.
    destruct (Hall s Hs) as ((c & values & Hc & Hval) & (hc & fc & Hhc & Hfc)).
    destruct (add_series_seq_masks _ _ _ Hrun (fun s' (Hs' : In s' []) => False_ind _ Hs') s Hs)
      as [hy Hhy].
    unfold historical_years in Hhy. apply bind_Ok in Hhy as (forecast & Hmask & _).
    by apply (get_traces_for_series_total _ _ _ _ forecast c values hc fc). }
  destruct Htr as [traces Htr].
  assert (Hfig : exists fig, get_figure g = Ok fig).
  { assert (Hticks : exists tv tl, get_ticks g = Ok (tv, tl)).
    { unfold get_ticks. rewrite Hlo, Hhi. destruct (fold_left _ _ _) as [tv tl].
      by exists tv, tl. }
    destruct Hticks as (tv & tl & Hticks).
    unfold get_figure. rewrite Hticks.
    cbv beta iota zeta delta [mbind result_bind Py.bind]. rewrite Htr.
    by eexists. }
  destruct Hfig as [fig Hfig]. exists fig. split; [exact Hfig|].
  pose proof (figure_trace_count g fig Hfig) as Hbound.
  rewrite Hss in Hbound. by rewrite Hlen.
Qed.
End FigureEdges.

(** ** Constructing a series *)

Lemma without_In (x z : string) (l : list string) : In z (without x l) -> In z l.
Proof.
  induction l as [|a l IH]; cbn; [done|].
  destruct (String.eqb x a); [by right|]. intros [<-|Hz]; [by left|right; auto].
Qed.

Lemma without_comm (a b : string) (l : list string) :
  without a (without b l) = without b (without a l).
Proof.
  destruct (String.eqb_spec a b) as [->|Hab]; [reflexivity|].
  induction l as [|x l IH]; cbn; [reflexivity|].
  destruct (String.eqb_spec b x) as [->|Hbx], (String.eqb_spec a x) as [->|Hax]; cbn.
  - done.
  - by rewrite String.eqb_refl.
  - by rewrite String.eqb_refl.
  - destruct (String.eqb_spec a x), (String.eqb_spec b x); try done. by rewrite IH.
Qed.

Lemma without_NoDup_notin (x : string) (l : list string) :
  NoDup l -> ~ In x (without x l).
Proof.
  induction 1 as [|a l Ha Hnd IH]; cbn; [tauto|].
  destruct (String.eqb_spec x a) as [->|Hne].
  - by rewrite <- list_elem_of_In.
  - intros [Heq|Hin]; [congruence|tauto].
Qed.

Lemma without_NoDup (x : string) (l : list string) : NoDup l -> NoDup (without x l).
Proof.
  induction 1 as [|a l Ha Hnd IH]; cbn; [constructor|].
  destruct (String.eqb x a); [exact Hnd|]. constructor; [|exact IH].
  rewrite list_elem_of_In. intros Hin. apply without_In in Hin.
  by rewrite list_elem_of_In in Ha.
Qed.

Lemma drop_column_names (k : string) (cols : list (string * list cell)) :
  map fst (drop_column k cols) = without k (map fst cols).
Proof.
  induction cols as [|[k' c] cols IH]; cbn; [reflexivity|].
  destruct (String.eqb k k'); [reflexivity|]. cbn. by rewrite IH.
Qed.

Lemma dict_get_drop_column (k k' : string) (cols : list (string * list cell)) :
  k <> k' -> dict_get k' (drop_column k cols) = dict_get k' cols.
Proof.
  intros Hne. induction cols as [|[k1 c] cols IH]; cbn; [reflexivity|].
  destruct (String.eqb_spec k k1) as [->|Hk1]; cbn.
  - destruct (String.eqb_spec k' k1); [congruence|reflexivity].
  - destruct (String.eqb_spec k' k1); [reflexivity|exact IH].
Qed.

Lemma list_mem_In (x : string) (l : list string) : list_mem x l = true <-> In x l.
Proof.
  unfold list_mem. rewrite existsb_exists. split.
  - intros (y & Hy & Heq). apply String.eqb_eq in Heq. by subst.
  - intros Hx. exists x. split; [done|apply String.eqb_refl].
Qed.

Lemma with_df_same (s : PredictionGraphSeries) : with_df s (df s) = s.
Proof. by destruct s. Qed.

(** The result of [__post_init__] on a frame with a ['Forecast'] column. *)
Lemma post_init_result (s : PredictionGraphSeries) :
  integer_years (df s) ->
  list_mem "Forecast" (column_names (df s)) = true ->
  exists d,
    (list_mem "Year" (column_names (df s)) = false -> d = df s) /\
    (list_mem "Year" (column_names (df s)) = true ->
       exists years,
         dict_get "Year" (columns (df s)) = Some (map CInt years) /\
         d = {| index := years; columns := drop_column "Year" (columns (df s)) |}) /\
    post_init s =
      if negb (truthy_str (column_name s)) then
        _ ← assert (Nat.eqb (length (remaining_columns (df s))) 1);
        Ok (with_column_name (with_df s d) (head (remaining_columns (df s))))
      else Ok (with_df s d).
Proof.
  intros Hint Hfc. unfold post_init. rewrite Hfc. cbn.
  rewrite (list_remove_without _ _ Hfc). cbn.
  rewrite (list_mem_without "Year" "Forecast") by done.
  destruct (list_mem "Year" (column_names (df s))) eqn:Hyear.
  - destruct (set_index_Year (df s) Hint Hyear) as (years & Hcol & ->). cbn.
    rewrite list_remove_without by (by rewrite list_mem_without). cbn.
    exists {| index := years; columns := drop_column "Year" (columns (df s)) |}.
    split; [discriminate|]. split; [intros _; exists years; by split|].
    reflexivity.
  - exists (df s). split; [done|]. split; [done|]. cbn.
    rewrite with_df_same. unfold remaining_columns.
    rewrite (without_absent "Year") by (by rewrite list_mem_without).
    reflexivity.
Qed.

(** X16.  A constructed series can be plotted as far as its frame goes: the
    ['Forecast'] column is still there, unchanged by the move of ['Year']
    into the index, and when [column_name] was left for the constructor to
    find, the name found is a column of the frame, never ['Forecast'] or
    ['Year'] unless the frame has that column twice. *)
Theorem constructed_series_has_its_columns (s s' : PredictionGraphSeries) :
  integer_years (df s) ->
  post_init s = Ok s' ->
  (exists forecast,
     get_attr "Forecast" (df s') = Ok forecast /\
     get_attr "Forecast" (df s) = Ok forecast) /\
  (truthy_str (column_name s) = false ->
   exists c values,
     column_name s' = Some c /\
     remaining_columns (df s) = [c] /\
     get_column c (df s') = Ok values /\
     (NoDup (column_names (df s)) -> c <> "Forecast" /\ c <> "Year")).
Proof.
  intros Hint Hrun.
  destruct (list_mem "Forecast" (column_names (df s))) eqn:Hfc.
  2:{ unfold post_init in Hrun. rewrite Hfc in Hrun. discriminate. }
  destruct (post_init_result s Hint Hfc) as (d & Hd0 & Hd1 & Heq).
  rewrite Heq in Hrun. clear Heq.
  assert (Hforecast : dict_get "Forecast" (columns d)
                      = dict_get "Forecast" (columns (df s))).
  { destruct (list_mem "Year" (column_names (df s))) eqn:Hyear.
    - destruct (Hd1 eq_refl) as (years & _ & ->). cbn.
      by apply dict_get_drop_column.
    - by rewrite (Hd0 eq_refl). }
  assert (Hnames : forall c, In c (remaining_columns (df s)) -> In c (column_names d)).
  { intros c Hc. unfold remaining_columns in Hc.
    destruct (list_mem "Year" (column_names (df s))) eqn:Hyear.
    - destruct (Hd1 eq_refl) as (years & _ & ->). unfold column_names. cbn.
      rewrite drop_column_names. rewrite without_comm in Hc.
      by apply without_In in Hc.
    - rewrite (Hd0 eq_refl). by apply without_In, without_In in Hc. }
  assert (Hdf : df s' = d /\
                (truthy_str (column_name s) = false ->
                 exists c, remaining_columns (df s) = [c] /\ column_name s' = Some c)).
  { destruct (truthy_str (column_name s)); cbn in Hrun.
    - injection Hrun as <-. by split.
    - destruct (remaining_columns (df s)) as [|c [|c' rest]]; try discriminate.
      injection Hrun as <-. split; [reflexivity|]. intros _. by exists c. }
  destruct Hdf as [Hdf Hcol]. rewrite Hdf. split.
  - apply list_mem_dict_get in Hfc as [col Hcol'].
    exists col. unfold get_attr. rewrite Hforecast, Hcol'. by split.
  - intros Hfalsy. destruct (Hcol Hfalsy) as (c & Hrest & Hc).
    assert (Hin : In c (column_names d)) by (apply Hnames; rewrite Hrest; by left).
    destruct (dict_get c (columns d)) as [values|] eqn:Hget.
    2:{ apply dict_get_None in Hget. by destruct Hget. }
    exists c, values. split; [exact Hc|]. split; [exact Hrest|].
    split; [unfold get_column; by rewrite Hget|].
    intros Hnd. assert (Hc_in : In c (remaining_columns (df s))) by (rewrite Hrest; by left).
    unfold remaining_columns in Hc_in. split; intros ->.
    + apply without_In in Hc_in. revert Hc_in. by apply without_NoDup_notin.
    + revert Hc_in. apply without_NoDup_notin. by apply without_NoDup.
Qed.

(** X17.  Construction is idempotent on frames without repeated column
    names: running [__post_init__] again on a constructed series changes
    nothing, since ['Year'] has left the columns and [column_name] is
    settled. *)
Theorem post_init_idempotent (s s' : PredictionGraphSeries) :
  integer_years (df s) ->
  NoDup (column_names (df s)) ->
  post_init s = Ok s' ->
  post_init s' = Ok s'.
Proof.
  intros Hint Hnd Hrun.
  destruct (list_mem "Forecast" (column_names (df s))) eqn:Hfc.
  2:{ unfold post_init in Hrun. rewrite Hfc in Hrun. discriminate. }
  destruct (post_init_result s Hint Hfc) as (d & Hd0 & Hd1 & Heq).
  rewrite Heq in Hrun. clear Heq.
  assert (Hnames : column_names d = without "Year" (column_names (df s))).
  { destruct (list_mem "Year" (column_names (df s))) eqn:Hyear.
    - destruct (Hd1 eq_refl) as (years & _ & ->). apply drop_column_names.
    - rewrite (Hd0 eq_refl). symmetry. by apply without_absent. }
  assert (Hno_year : list_mem "Year" (column_names d) = false).
  { destruct (list_mem "Year" (column_names d)) eqn:Hy; [|reflexivity].
    apply list_mem_In in Hy. rewrite Hnames in Hy.
    by apply without_NoDup_notin in Hy. }
  assert (Hfc_d : list_mem "Forecast" (column_names d) = true).
  { rewrite Hnames. by rewrite list_mem_without. }
  assert (Hint_d : integer_years d).
  { intros col Hcol. exfalso.
    assert (Hnone : dict_get "Year" (columns d) = None); [|congruence].
    apply dict_get_None. intros Hin. apply list_mem_In in Hin.
    unfold column_names in Hno_year. congruence. }
  assert (Hrest : remaining_columns d = remaining_columns (df s)).
  { unfold remaining_columns. rewrite Hnames.
    rewrite (without_comm "Forecast" "Year").
    apply without_absent.
    destruct (list_mem "Year" (without "Year" (without "Forecast" (column_names (df s)))))
      eqn:Hy; [|reflexivity].
    apply list_mem_In in Hy. apply without_NoDup_notin in Hy; [done|].
    by apply without_NoDup. }
  destruct (truthy_str (column_name s)) eqn:Hts; cbn [negb] in Hrun.
  - injection Hrun as <-.
    destruct (post_init_result (with_df s d) Hint_d Hfc_d) as (d' & Hd0' & _ & ->).
    cbn [df with_df] in Hd0'. rewrite (Hd0' Hno_year).
    cbn [column_name with_df]. by rewrite Hts.
  - destruct (remaining_columns (df s)) as [|c [|c' rest]] eqn:Hr; try discriminate.
    cbn in Hrun. injection Hrun as <-.
    destruct (post_init_result (with_column_name (with_df s d) (Some c)) Hint_d Hfc_d)
      as (d' & Hd0' & _ & ->).
    cbn [df with_df with_column_name] in Hd0'. rewrite (Hd0' Hno_year).
    cbn [df column_name with_df with_column_name]. rewrite Hrest.
    by destruct (negb (truthy_str (Some c))).
Qed.

(** * Properties of the pages *)

(** What [__post_init__] leaves alone, whatever the frame. *)
Lemma post_init_fields (s s' : PredictionGraphSeries) :
  post_init s = Ok s' ->
  graph s' = graph s /\ trace_name s' = trace_name s /\
  historical_color s' = historical_color s /\
  forecast_color s' = forecast_color s /\
  luminance_change s' = luminance_change s /\
  (truthy_str (column_name s) = true -> column_name s' = column_name s) /\
  (list_mem "Year" (column_names (df s)) = false -> df s' = df s) /\
  (list_mem "Year" (column_names (df s)) = true ->
   set_index "Year" (df s) = Ok (df s')).
Proof.
  unfold post_init. intros Hrun.
  apply bind_Ok in Hrun as ([] & Hassert & Hrun).
  assert (Hfc : list_mem "Forecast" (column_names (df s)) = true).
  { unfold assert in Hassert. by destruct (list_mem _ _). }
  rewrite (list_remove_without _ _ Hfc) in Hrun. cbn in Hrun.
  rewrite (list_mem_without "Year" "Forecast") in Hrun by done.
  apply bind_Ok in Hrun as ([s1 cn] & Hstep & Hrun).
  assert (Hs1 : graph s1 = graph s /\ trace_name s1 = trace_name s /\
                historical_color s1 = historical_color s /\
                forecast_color s1 = forecast_color s /\
                luminance_change s1 = luminance_change s /\
                column_name s1 = column_name s /\
                (list_mem "Year" (column_names (df s)) = false -> df s1 = df s) /\
                (list_mem "Year" (column_names (df s)) = true ->
                 set_index "Year" (df s) = Ok (df s1))).
  { destruct (list_mem "Year" (column_names (df s))).
    - apply bind_Ok in Hstep as (d & Hd & Hstep).
      apply bind_Ok in Hstep as (cn' & _ & [= <- <-]). cbn. by repeat split.
    - injection Hstep as <- <-. by repeat split. }
  destruct Hs1 as (Hg & Htn & Hhc & Hfcol & Hlc & Hcn & Hdf0 & Hdf1).
  destruct (negb (truthy_str (column_name s1))) eqn:Hneg.
  - apply bind_Ok in Hrun as (_ & _ & [= <-]). cbn.
    repeat split; try done.
    intros Ht. rewrite Hcn, Ht in Hneg. discriminate.
  - injection Hrun as <-. by repeat split.
Qed.

(** Two series built from the same frame hold the same frame. *)
Lemma post_init_same_frame (s1 s2 s1' s2' : PredictionGraphSeries) :
  df s1 = df s2 -> post_init s1 = Ok s1' -> post_init s2 = Ok s2' ->
  df s1' = df s2'.
Proof.
  intros Hdf H1 H2.
  apply post_init_fields in H1 as (_ & _ & _ & _ & _ & _ & H10 & H11).
  apply post_init_fields in H2 as (_ & _ & _ & _ & _ & _ & H20 & H21).
  rewrite <- Hdf in H20, H21.
  destruct (list_mem "Year" (column_names (df s1))).
  - specialize (H11 eq_refl). specialize (H21 eq_refl). congruence.
  - by rewrite (H10 eq_refl), (H20 eq_refl).
Qed.

(** The year state after the first [add_series] depends on the frame only. *)
Lemma first_series_years (o1 o2 : GraphOptions) (a1 a2 : SeriesArgs)
    (g1 g2 : PredictionGraph) :
  arg_df a1 = arg_df a2 ->
  add_series (new_graph o1) a1 = Ok g1 ->
  add_series (new_graph o2) a2 = Ok g2 ->
  min_year g1 = min_year g2 /\ max_year g1 = max_year g2 /\
  forecast_start_year g1 = forecast_start_year g2.
Proof.
  intros Hdf H1 H2.
  apply add_series_inv in H1 as (s1 & hy1 & Hs1 & Hhy1 & _ & _ & Hmin1 & Hmax1 & Hf1).
  apply add_series_inv in H2 as (s2 & hy2 & Hs2 & Hhy2 & _ & _ & Hmin2 & Hmax2 & Hf2).
  cbn in *. unfold new_series in Hs1, Hs2.
  assert (Hsame : df s1 = df s2) by (eapply post_init_same_frame; [|exact Hs1|exact Hs2]; done).
  unfold historical_years in Hhy1, Hhy2. rewrite Hsame in Hhy1, Hmin1, Hmax1.
  rewrite Hhy1 in Hhy2. injection Hhy2 as <-.
  rewrite Hmin1, Hmin2, Hmax1, Hmax2, Hf1, Hf2. by repeat split.
Qed.

Lemma get_ticks_same (g1 g2 : PredictionGraph) :
  min_year g1 = min_year g2 -> max_year g1 = max_year g2 ->
  forecast_start_year g1 = forecast_start_year g2 ->
  get_ticks g1 = get_ticks g2.
Proof. unfold get_ticks. by intros -> -> ->. Qed.

Lemma rows_point_In idx forecast values r :
  In r (rows idx forecast values) -> In (point r) (combine idx values).
Proof.
  revert forecast values.
  induction idx as [|i idx IH]; intros [|f fc] [|v vs]; cbn; try tauto.
  intros [<-|Hr]; [by left|]. right. eauto.
Qed.

(** The figure of a graph with one series plots the column of that series. *)
Lemma single_series_figure_plots `{Externals} (o : GraphOptions) (d : DataFrame)
    (trace_name column : string) (g : PredictionGraph) (fig : Figure) :
  column <> EmptyString ->
  add_series (new_graph o) (series_args d trace_name column) = Ok g ->
  get_figure g = Ok fig ->
  plots d column fig.
Proof.
  intros Hcol Hadd Hfig.
  apply add_series_inv in Hadd as (s & hy & Hs & _ & Hopt & Hsl & _).
  unfold new_series in Hs. cbn in Hs, Hsl.
  apply post_init_fields in Hs as (_ & _ & _ & _ & _ & Hcn & Hsame & Hyear).
  cbn in Hcn, Hsame, Hyear.
  assert (Hname : column_name s = Some column).
  { apply Hcn. apply negb_true_iff. by apply String.eqb_neq. }
  destruct (figure_data_of_series g fig Hfig) as [_ Hdata].
  destruct (get_column column (df s)) as [values|e] eqn:Hvalues.
  - exists (df s), values. split; [|split; [exact Hvalues|]].
    + destruct (list_mem "Year" (column_names d)); [right|left]; eauto.
    + intros t p Ht Hp.
      destruct (Hdata t Ht) as (s' & idx & hm & traces & Hs' & Hget & Ht').
      rewrite Hsl in Hs'. destruct Hs' as [<-|[]].
      apply get_traces_for_series_inv in Hget
        as (forecast & c & vals & _ & Hc & Hval & h & f & -> & _ & _ & Hht & Hft).
      rewrite Hname in Hc. injection Hc as <-.
      rewrite Hvalues in Hval. injection Hval as <-.
      apply in_app_or in Ht' as [Ht'|Ht'].
      * destruct f as [t'|]; [|done]. destruct Ht' as [<-|[]].
        destruct (Hft t' eq_refl) as (_ & _ & Hy & _). rewrite Hy in Hp.
        apply in_map_iff in Hp as (r & <- & Hr). apply filter_In in Hr as [Hr _].
        by apply rows_point_In in Hr.
      * destruct h as [t'|]; [|done]. destruct Ht' as [<-|[]].
        destruct (Hht t' eq_refl) as (_ & _ & Hy & _). rewrite Hy in Hp.
        apply in_map_iff in Hp as (r & <- & Hr). apply filter_In in Hr as [Hr _].
        by apply rows_point_In in Hr.
  - exfalso. unfold get_figure in Hfig.
    apply bind_Ok in Hfig as ([tv tl] & _ & Hfig).
    apply bind_Ok in Hfig as (traces & Htraces & _).
    rewrite Hsl in Htraces. cbn in Htraces.
    apply bind_Ok in Htraces as (ts & Hget & _).
    apply get_traces_for_series_inv in Hget
      as (forecast & c & vals & _ & Hc & Hval & _).
    rewrite Hname in Hc. injection Hc as <-. congruence.
Qed.

Section ElectricityPage.
Context `{Externals} `{PageExternals}.

(** X18.  The electricity callback stores a tenth of the slider value and
    draws from the frame predicted from the updated store: when it succeeds
    it returns exactly three figures, which plot the columns
    'ElectricityConsumptionPerCapita', 'ElectricityConsumption' and
    'Emissions' of that frame, in this order; each has at most two traces,
    none of them filled, and the three figures share their x-axis ticks and
    tick labels. *)
Theorem electricity_figures_share_ticks (value : Z) (vars : Variables)
    (figs : list Figure) :
  snd (electricity_consumption_callback value vars) = Ok figs ->
  let stored :=
    set_variable "electricity_consumption_per_capita_adjustment"
                 (inject_Z value / 10)%Q vars in
  let predicted := predict_electricity_consumption_emissions stored in
  fst (electricity_consumption_callback value vars) = stored /\
  exists fig1 fig2 fig3 tick_vals tick_labels,
    figs = [fig1; fig2; fig3] /\
    plots predicted "ElectricityConsumptionPerCapita" fig1 /\
    plots predicted "ElectricityConsumption" fig2 /\
    plots predicted "Emissions" fig3 /\
    forall fig, In fig figs ->
      axis_entry (layout fig) "xaxis" "tickvals" = Some (PList (map PInt tick_vals)) /\
      axis_entry (layout fig) "xaxis" "ticklabels"
        = Some (PList (map PStr tick_labels)) /\
      (length (data fig) <= 2)%nat /\
      forall t, In t (data fig) ->
        attrs t !! "mode" = Some "lines" /\ attrs t !! "fill" = None.
Proof.
  unfold electricity_consumption_callback. cbn [fst snd]. intros Hrun. cbv zeta.
  split; [reflexivity|].
  apply bind_Ok in Hrun as (g1 & Hg1 & Hrun).
  apply bind_Ok in Hrun as (fig1 & Hfig1 & Hrun).
  apply bind_Ok in Hrun as (g2 & Hg2 & Hrun).
  apply bind_Ok in Hrun as (fig2 & Hfig2 & Hrun).
  apply bind_Ok in Hrun as (g3 & Hg3 & Hrun).
  apply bind_Ok in Hrun as (fig3 & Hfig3 & [= <-]).
  assert (H12 := fun Hdf => first_series_years _ _ _ _ _ _ Hdf Hg1 Hg2).
  assert (H13 := fun Hdf => first_series_years _ _ _ _ _ _ Hdf Hg1 Hg3).
  destruct (H12 eq_refl) as (Hmin12 & Hmax12 & Hf12).
  destruct (H13 eq_refl) as (Hmin13 & Hmax13 & Hf13).
  destruct (get_figure_ticks g1 fig1 Hfig1) as (tv & tl & Ht1 & Hv1 & Hl1).
  destruct (get_figure_ticks g2 fig2 Hfig2) as (tv2 & tl2 & Ht2 & Hv2 & Hl2).
  destruct (get_figure_ticks g3 fig3 Hfig3) as (tv3 & tl3 & Ht3 & Hv3 & Hl3).
  rewrite <- (get_ticks_same g1 g2 Hmin12 Hmax12 Hf12), Ht1 in Ht2.
  rewrite <- (get_ticks_same g1 g3 Hmin13 Hmax13 Hf13), Ht1 in Ht3.
  injection Ht2 as <- <-. injection Ht3 as <- <-.
  exists fig1, fig2, fig3, tv, tl. split; [reflexivity|].
  split; [refine (single_series_figure_plots _ _ _ _ g1 fig1 _ Hg1 Hfig1); discriminate|].
  split; [refine (single_series_figure_plots _ _ _ _ g2 fig2 _ Hg2 Hfig2); discriminate|].
  split; [refine (single_series_figure_plots _ _ _ _ g3 fig3 _ Hg3 Hfig3); discriminate|].
  assert (Hone : forall o a g fig,
            fill o = false -> stacked o = false ->
            add_series (new_graph o) a = Ok g -> get_figure g = Ok fig ->
            (length (data fig) <= 2)%nat /\
            forall t, In t (data fig) ->
              attrs t !! "mode" = Some "lines" /\ attrs t !! "fill" = None).
  { intros o a g fig Hfill Hst Hadd Hfig.
    pose proof (figure_trace_count g fig Hfig) as Hcount.
    apply add_series_inv in Hadd as (s & hy & _ & _ & Hopt & Hsl & _).
    rewrite Hsl in Hcount. cbn in Hcount. split; [lia|].
    intros t Ht. destruct (figure_data_of_series g fig Hfig) as [_ Hdata].
    destruct (Hdata t Ht) as (s' & idx & hm & traces & _ & Hget & Ht').
    rewrite Hopt in Hget. cbn in Hget.
    apply get_traces_for_series_inv in Hget
      as (forecast & c & values & _ & _ & _ & h & f & -> & _ & _ & Hht & Hft).
    assert (Hattrs : attrs t !! "fill" = expected_fill o idx /\
                     attrs t !! "mode" = Some (if fill o then "none" else "lines")).
    { apply in_app_or in Ht' as [Ht'|Ht'].
      - destruct f as [t'|]; [|done]. destruct Ht' as [<-|[]].
        by destruct (Hft t' eq_refl) as (_ & _ & _ & _ & col & _ & _ & _ & _ & ? & ? & _).
      - destruct h as [t'|]; [|done]. destruct Ht' as [<-|[]].
        by destruct (Hht t' eq_refl) as (_ & _ & _ & _ & col & _ & _ & _ & _ & ? & ? & _). }
    destruct Hattrs as [-> ->]. unfold expected_fill. by rewrite Hfill, Hst. }
  intros fig [<-|[<-|[<-|[]]]].
  - split; [exact Hv1|]. split; [exact Hl1|]. by eapply Hone; [| |exact Hg1|exact Hfig1].
  - split; [exact Hv2|]. split; [exact Hl2|]. by eapply Hone; [| |exact Hg2|exact Hfig2].
  - split; [exact Hv3|]. split; [exact Hl3|]. by eapply Hone; [| |exact Hg3|exact Hfig3].
Qed.
End ElectricityPage.

(** Without a column name the series takes the one column that is left. *)
Lemma post_init_sole_column (s s' : PredictionGraphSeries) :
  truthy_str (column_name s) = false ->
  post_init s = Ok s' ->
  exists col, remaining_columns (df s) = [col] /\ column_name s' = Some col.
Proof.
  unfold post_init. intros Hfalsy Hrun.
  apply bind_Ok in Hrun as ([] & Hassert & Hrun).
  assert (Hfc : list_mem "Forecast" (column_names (df s)) = true).
  { unfold assert in Hassert. by destruct (list_mem _ _). }
  rewrite (list_remove_without _ _ Hfc) in Hrun. cbn in Hrun.
  apply bind_Ok in Hrun as ([s1 cn] & Hstep & Hrun).
  assert (Hs1 : column_name s1 = column_name s /\ cn = remaining_columns (df s)).
  { unfold remaining_columns.
    destruct (list_mem "Year" (without "Forecast" (column_names (df s)))) eqn:Hyear.
    - apply bind_Ok in Hstep as (d & Hd & Hstep).
      rewrite (list_remove_without _ _ Hyear) in Hstep. cbn in Hstep.
      by injection Hstep as <- <-.
    - injection Hstep as <- <-. by rewrite (without_absent _ _ Hyear). }
  destruct Hs1 as [Hcn ->]. rewrite Hcn, Hfalsy in Hrun. cbn in Hrun.
  apply bind_Ok in Hrun as ([] & Hone & [= <-]). cbn.
  destruct (remaining_columns (df s)) as [|col [|? ?]]; try discriminate.
  by exists col.
Qed.

Lemma make_sector_fig_graph `{Externals} (d : DataFrame) (name : string)
    (metadata : SectorMetadata) :
  make_sector_fig d name metadata = sector_graph d name metadata ≫= get_figure.
Proof.
  unfold make_sector_fig, sector_graph.
  destruct (md_name metadata); cbn; [|reflexivity].
  by destruct (Nat.eqb _ _).
Qed.

Lemma add_subsector_series_inv (d : DataFrame) (metadata : SectorMetadata)
    (luminance : Q) (cols : list string) :
  forall (idx : Z) (fig g : PredictionGraph),
  add_subsector_series d metadata luminance idx cols fig = Ok g ->
  options g = options fig /\
  exists added,
    series_list g = series_list fig ++ added /\
    Forall2 (subsector_series (options fig) metadata luminance)
            (subsector_columns idx cols) added.
Proof.
  induction cols as [|c cols IH]; intros idx fig g Hrun; cbn in Hrun |- *.
  - injection Hrun as <-. split; [reflexivity|]. exists [].
    split; [by rewrite app_nil_r|constructor].
  - destruct (String.eqb_spec c "Forecast") as [->|Hc].
    + by apply IH.
    + apply bind_Ok in Hrun as (n & Hname & Hrun).
      apply bind_Ok in Hrun as (fig' & Hadd & Hrun).
      apply IH in Hrun as (Hopt & added & Hlist & Hall).
      apply add_series_inv in Hadd as (s & hy & Hs & _ & Hopt' & Hlist' & _).
      cbn in Hs. unfold new_series in Hs. cbn in Hs.
      apply post_init_fields in Hs as (Hg & Htn & Hhc & Hfc & Hlc & Hcn & _).
      cbn in *. rewrite Hopt' in Hopt, Hall. split; [exact Hopt|].
      exists (s :: added). split; [by rewrite Hlist, Hlist', <- app_assoc|].
      constructor; [|exact Hall]. unfold subsector_series. cbn.
      rewrite Htn. cbn. do 6 (split; [done|]).
      intros Hne. apply Hcn. apply negb_true_iff. by apply String.eqb_neq.
Qed.

Lemma get_figure_title `{Externals} (g : PredictionGraph) (fig : Figure) :
  get_figure g = Ok fig ->
  dict_get "title" (layout fig)
    = Some (PStr ("<b>" +:+ str_opt (title (options g)) +:+ "</b>")).
Proof.
  unfold get_figure. intros Hrun.
  apply bind_Ok in Hrun as ([tv tl] & _ & Hrun).
  apply bind_Ok in Hrun as (traces & _ & [= <-]). cbn [layout]. cbv zeta.
  destruct (title (options g)), (unit_name (options g)), (y_max (options g)) as [m|];
    try destruct (Qeq_bool m 0) eqn:Hz; cbn [truthy_float default negb];
    try rewrite Hz; reflexivity.
Qed.

Section SectorPage.
Context `{Externals}.

(** X19.  A sector figure of a frame with other than two columns has one
    series per column that is not 'Forecast', in column order: the series is
    named by the 'name' of the column's subsector entry, takes its own column
    (a column with a non-empty name) and the luminance change
    -0.3 + 0.3 * position (exact arithmetic), the position counting the
    'Forecast' column too.  So a figure is returned only when the sector
    metadata has a name and every such column a named subsector entry. *)
Theorem sector_figure_series_per_subsector (d : DataFrame) (name : string)
    (metadata : SectorMetadata) (fig : Figure) :
  length (columns d) <> 2%nat ->
  make_sector_fig d name metadata = Ok fig ->
  exists title g,
    md_name metadata = Some title /\
    get_figure g = Ok fig /\
    options g = sector_options name title /\
    Forall2 (subsector_series (sector_options name title) metadata (-3 # 10)%Q)
            (subsector_columns 0 (column_names d)) (series_list g).
Proof.
  intros Hcols Hrun. rewrite make_sector_fig_graph in Hrun.
  apply bind_Ok in Hrun as (g & Hg & Hfig). unfold sector_graph in Hg.
  destruct (md_name metadata) as [title|]; [|discriminate]. cbn in Hg.
  apply Nat.eqb_neq in Hcols. rewrite Hcols in Hg.
  apply add_subsector_series_inv in Hg as (Hopt & added & Hlist & Hall).
  cbn in *. exists title, g. by rewrite Hlist.
Qed.

(** X20.  A sector figure of a two-column frame has one series, named
    'Päästöt', of the one column that is neither 'Forecast' nor 'Year', with
    no luminance change; without a 'Forecast' column, or (the years being
    integers) when the other column is 'Year' or 'Forecast' again, the call
    fails with an AssertionError. *)
Theorem sector_figure_single_column (d : DataFrame) (name title : string)
    (metadata : SectorMetadata) :
  length (columns d) = 2%nat ->
  md_name metadata = Some title ->
  (list_mem "Forecast" (column_names d) = false ->
   make_sector_fig d name metadata = Raise AssertionError) /\
  (integer_years d -> list_mem "Forecast" (column_names d) = true ->
   length (remaining_columns d) <> 1%nat ->
   make_sector_fig d name metadata = Raise AssertionError) /\
  (forall fig, make_sector_fig d name metadata = Ok fig ->
   exists g s col,
     get_figure g = Ok fig /\
     options g = sector_options name title /\
     series_list g = [s] /\
     remaining_columns d = [col] /\
     column_name s = Some col /\
     trace_name s = Some "Päästöt" /\
     luminance_change s = None).
Proof.
  intros Hcols Hname.
  assert (Hgraph : sector_graph d name metadata =
            add_series (new_graph (sector_options name title))
              {| arg_df := d; arg_trace_name := Some "Päästöt";
                 arg_column_name := Some EmptyString;
                 arg_historical_color := None; arg_forecast_color := None;
                 arg_luminance_change := None |}).
  { unfold sector_graph. rewrite Hname. cbn. by rewrite Hcols. }
  rewrite make_sector_fig_graph, Hgraph. split; [|split].
  - intros Hfc. unfold add_series, new_series, post_init. cbn. by rewrite Hfc.
  - intros Hint Hfc Hlen. unfold add_series, new_series. cbn.
    match goal with |- context [post_init ?s] =>
      destruct (post_init_result s Hint Hfc) as (d' & _ & _ & ->) end.
    cbn. apply Nat.eqb_neq in Hlen. by rewrite Hlen.
  - intros fig Hrun. apply bind_Ok in Hrun as (g & Hg & Hfig).
    apply add_series_inv in Hg as (s & hy & Hs & _ & Hopt & Hlist & _).
    unfold new_series in Hs. cbn in Hs.
    pose proof (post_init_fields _ _ Hs) as (_ & Htn & _ & _ & Hlc & _).
    apply post_init_sole_column in Hs as (col & Hrem & Hcn); [|reflexivity].
    cbn in *. by exists g, s, col.
Qed.

(** X21.  Every trace of a sector figure is a filled, stacked area: drawn
    without lines or markers (mode 'none') but with a smoothed line style,
    filled in its own colour down to the axis or to the trace below, in the
    stack group 'history' or 'forecast', with hover text in kt; and the
    layout carries the sector's name in bold as the title. *)
Theorem sector_figure_is_stacked_area (d : DataFrame) (name : string)
    (metadata : SectorMetadata) (fig : Figure) :
  make_sector_fig d name metadata = Ok fig ->
  (exists title, md_name metadata = Some title /\
     dict_get "title" (layout fig) = Some (PStr ("<b>" +:+ title +:+ "</b>"))) /\
  forall t, In t (data fig) ->
    attrs t !! "mode" = Some "none" /\
    (attrs t !! "fill" = Some "tozeroy" \/ attrs t !! "fill" = Some "tonexty") /\
    (attrs t !! "stackgroup" = Some "history" \/
     attrs t !! "stackgroup" = Some "forecast") /\
    (exists colour, attrs t !! "fillcolor" = Some colour /\
                    line t !! "color" = Some (PStr colour)) /\
    line t !! "shape" = Some (PStr "spline") /\
    hovertemplate t = "%{x}: %{y} kt".
Proof.
  intros Hrun. rewrite make_sector_fig_graph in Hrun.
  apply bind_Ok in Hrun as (g & Hg & Hfig).
  assert (Hopt : exists title, md_name metadata = Some title /\
                               options g = sector_options name title).
  { unfold sector_graph in Hg.
    destruct (md_name metadata) as [title|]; [|discriminate]. cbn in Hg.
    exists title. split; [reflexivity|].
    destruct (Nat.eqb _ _).
    - by apply add_series_inv in Hg as (s & hy & _ & _ & ? & _).
    - by apply add_subsector_series_inv in Hg as [? _]. }
  destruct Hopt as (title & Hname & Hopt). split.
  - exists title. split; [exact Hname|].
    by rewrite (get_figure_title g fig Hfig), Hopt.
  - intros t Ht. destruct (figure_data_of_series g fig Hfig) as [_ Hdata].
    destruct (Hdata t Ht) as (s & idx & hm & traces & _ & Hget & Ht').
    rewrite Hopt in Hget.
    destruct (get_traces_for_series_style _ _ _ _ _ Hget t Ht')
      as (Hhover & _ & Hshape & _).
    cbn in Hhover, Hshape. rewrite Hshape, Hhover.
    apply get_traces_for_series_inv in Hget
      as (forecast & c & values & _ & _ & _ & h & f & -> & _ & _ & Hht & Hft).
    assert (Hseg : exists fc sel,
              segment_trace (sector_options name title) s idx fc sel t).
    { apply in_app_or in Ht' as [Ht'|Ht'].
      - destruct f as [t'|]; [|done]. destruct Ht' as [<-|[]].
        eexists true, _. by apply Hft.
      - destruct h as [t'|]; [|done]. destruct Ht' as [<-|[]].
        eexists false, _. by apply Hht. }
    destruct Hseg as (fc & sel & _ & _ & _ & _ & col & _ & Hline & _ & _ &
                      Hfill & Hmode & Hsg & Hfc).
    cbn in Hfill, Hmode, Hsg, Hfc. unfold expected_fill in Hfill. cbn in Hfill.
    split; [exact Hmode|]. split; [destruct (0 <? idx); [by right|by left]|].
    split; [destruct fc; [by right|by left]|].
    split; [by exists col|]. done.
Qed.
End SectorPage.

(** ** The further properties at concrete inputs *)

Lemma explicit_colours_witness :
  exists traces,
    get_traces_for_series (H := sample_externals) plain_graph
      (coloured plain_graph measured_and_projected) 0 false = Ok traces /\
    forall t, In t traces ->
      (name t = Some "Emissions" -> line t !! "color" = Some (PStr "#1f77b4")) /\
      (name t <> Some "Emissions" -> line t !! "color" = Some (PStr "#aec7e8")).
Proof.
  eexists. split; [reflexivity|]. intros t Ht.
  destruct (explicit_colours_are_used (H := sample_externals) plain_graph
              (coloured plain_graph measured_and_projected) 0 false _
              "#1f77b4" "#aec7e8" eq_refl ltac:(discriminate) eq_refl
              ltac:(discriminate) eq_refl t Ht) as [Hh Hf].
  split; intros Hn; [exact (proj1 (Hh Hn))|exact (proj1 (Hf Hn))].
Defined.

Lemma get_color_failure_witness :
  (get_color (H := sample_externals) uncoloured false = Raise KeyError /\
   sector_name (graph uncoloured)
     ≫= (GHG_MAIN_SECTOR_COLORS (Externals := sample_externals) !!.) = None) /\
  (get_color (H := sample_externals) overlit false = Raise ValueError /\
   (derived_luminance (luminance_change overlit) false (luminance red)
    == 11 # 10)%Q).
Proof.
  split.
  - split; [reflexivity|].
    destruct (get_color_failure (H := sample_externals) uncoloured false KeyError
                eq_refl) as [_ [[Hnone _]|(web & Hweb & _)]].
    + exact Hnone.
    + discriminate Hweb.
  - split; [reflexivity|].
    destruct (get_color_failure (H := sample_externals) overlit false ValueError
                eq_refl) as [_ [[Hnone _]|(web & Hweb & [Hnew|(base & Hnew & _ & Hout)])]].
    + discriminate Hnone.
    + vm_compute in Hweb. injection Hweb as <-. discriminate Hnew.
    + vm_compute. reflexivity.
Defined.


Lemma traces_are_well_formed_witness :
  exists traces,
    get_traces_for_series (H := sample_externals) consecutive_graph
      (coloured consecutive_graph with_gap) 0 false = Ok traces /\
    length traces = 2%nat /\
    forall t, In t traces ->
      y t <> [] /\ length (x t) = length (y t) /\
      forall p, In p (y t) -> is_nan (snd p) = false.
Proof.
  eexists. split; [reflexivity|]. split; [reflexivity|]. intros t Ht.
  destruct (traces_are_well_formed (H := sample_externals) consecutive_graph
              (coloured consecutive_graph with_gap) 0 false _ eq_refl t Ht)
    as (_ & Hy & _ & Hlen & Hpts).
  split; [exact Hy|]. split; [exact Hlen|].
  intros p Hp. exact (proj1 (Hpts p Hp)).
Defined.

Lemma stack_groups_witness :
  exists traces,
    get_traces_for_series (H := sample_externals) stacked_graph
      (coloured stacked_graph measured_and_projected) 1 true = Ok traces /\
    length traces = 2%nat /\
    forall t, In t traces ->
      (name t = Some "Emissions" -> attrs t !! "stackgroup" = Some "history") /\
      (name t <> Some "Emissions" -> attrs t !! "stackgroup" = Some "forecast") /\
      exists colour, line t !! "color" = Some (PStr colour) /\
                     attrs t !! "fillcolor" = Some colour.
Proof.
  eexists. split; [reflexivity|]. split; [reflexivity|]. intros t Ht.
  destruct (stack_groups_and_fill_colour (H := sample_externals) stacked_graph
              (coloured stacked_graph measured_and_projected) 1 true _ eq_refl t Ht)
    as (Hst & _ & Hfill & _).
  destruct (Hst eq_refl) as [Hh Hf].
  split; [exact Hh|]. split; [exact Hf|]. exact (Hfill eq_refl).
Defined.

Lemma line_style_witness :
  exists traces,
    get_traces_for_series (H := sample_externals) plain_graph
      (coloured plain_graph measured_and_projected) 0 false = Ok traces /\
    length traces = 2%nat /\
    forall t, In t traces ->
      line t !! "width" = Some (PInt 4) /\ line t !! "shape" = None /\
      hovertemplate t = "%{x}: %{y} kt".
Proof.
  eexists. split; [reflexivity|]. split; [reflexivity|]. intros t Ht.
  destruct (line_style_and_hover_template (H := sample_externals) plain_graph
              (coloured plain_graph measured_and_projected) 0 false _ eq_refl t Ht)
    as (Hw & _ & Hplain & Hunit & _).
  split; [exact Hw|]. split; [exact (proj1 (Hplain eq_refl))|].
  apply (Hunit "kt"); [reflexivity|discriminate].
Defined.

Lemma traces_failure_witness :
  get_traces_for_series (H := sample_externals) plain_graph
    (unnamed_column two_columns (Some "Emissions")) 0 false = Raise KeyError /\
  get_traces_for_series (H := sample_externals) plain_graph
    (unnamed_column {| index := [2000]; columns := [("Emissions", [CFloat 1])] |}
                    (Some "Emissions")) 0 false = Raise AttributeError.
Proof.
  split.
  - destruct (traces_failure (H := sample_externals) plain_graph
                (unnamed_column two_columns (Some "Emissions")) 0 false)
      as (_ & Hkey & _).
    exact (Hkey [false] "Emissions" eq_refl eq_refl eq_refl).
  - destruct (traces_failure (H := sample_externals) plain_graph
                (unnamed_column
                   {| index := [2000]; columns := [("Emissions", [CFloat 1])] |}
                   (Some "Emissions")) 0 false)
      as (Hattr & _).
    exact (Hattr eq_refl).
Defined.

Lemma no_values_no_traces_witness :
  get_traces_for_series (H := sample_externals) plain_graph
    (coloured plain_graph unmeasured) 0 false = Ok [].
Proof.
  apply (no_values_no_traces (H := sample_externals) plain_graph
           (coloured plain_graph unmeasured) 0 false
           [false; true] "Emissions" [CNaN; CNaN] eq_refl eq_refl eq_refl).
  repeat constructor.
Defined.

Lemma add_series_widens_range_witness :
  let g := graph_of plain_graph [yearly 2000 2015 2030] in
  exists g',
    add_series g (args_of (yearly 1990 2018 2035)) = Ok g' /\
    min_year g = Some (Int 2000) /\ max_year g = Some (Int 2030) /\
    forecast_start_year g = Some (Int 2015) /\
    (exists lo', min_year g' = Some (Int lo') /\ lo' <= 2000) /\
    (exists hi', max_year g' = Some (Int hi') /\ 2030 <= hi') /\
    (exists f', forecast_start_year g' = Some (Int f') /\ f' <= 2015).
Proof.
  intros g.
  destruct (add_series g (args_of (yearly 1990 2018 2035))) as [g'|e] eqn:Hadd;
    [|vm_compute in Hadd; discriminate Hadd].
  exists g'. split; [reflexivity|].
  assert (Hmin : min_year g = Some (Int 2000)) by (vm_compute; reflexivity).
  assert (Hmax : max_year g = Some (Int 2030)) by (vm_compute; reflexivity).
  assert (Hfsy : forecast_start_year g = Some (Int 2015)) by (vm_compute; reflexivity).
  destruct (add_series_widens_range g (args_of (yearly 1990 2018 2035)))
    as [_ Hok].
  destruct (Hok g' Hadd) as (_ & _ & Hlo & Hhi & Hf).
  split; [exact Hmin|]. split; [exact Hmax|]. split; [exact Hfsy|].
  split; [exact (Hlo 2000 Hmin)|]. split; [exact (Hhi 2030 Hmax)|exact (Hf 2015 Hfsy)].
Defined.

Lemma figure_traces_in_series_order_witness :
  let g := graph_of stacked_graph [one_each; measured_and_projected] in
  exists fig per,
    get_figure (H := sample_externals) g = Ok fig /\
    length (series_list g) = 2%nat /\
    data fig = concat per /\ length per = 2%nat /\
    (length (data fig) <= 4)%nat.
Proof.
  intros g.
  destruct (get_figure (H := sample_externals) g) as [fig|e] eqn:Hrun;
    [|vm_compute in Hrun; discriminate Hrun].
  destruct (figure_traces_in_series_order (H := sample_externals) g fig Hrun)
    as (per & Hdata & Hlen & Hbound & _).
  exists fig, per. split; [reflexivity|]. split; [reflexivity|].
  split; [exact Hdata|]. split; [exact Hlen|exact Hbound].
Defined.

Lemma get_figure_without_years_witness :
  exists g,
    add_series_seq (new_graph plain_graph) [args_of no_rows] = Ok g /\
    length (series_list g) = 1%nat /\
    get_figure (H := sample_externals) g = Raise TypeError.
Proof.
  eexists. split; [vm_compute; reflexivity|]. split; [reflexivity|].
  apply (get_figure_without_years (H := sample_externals) plain_graph [args_of no_rows]).
  - vm_compute. reflexivity.
  - intros s [= <-]. reflexivity.
Defined.

Lemma figure_points_within_ticks_witness :
  (exists g fig tick_vals tick_labels,
     add_series_seq (new_graph (graph_options (Some "Transportation") false false false))
       [args_of with_gap; args_of old_measurement] = Ok g /\
     get_figure (H := sample_externals) g = Ok fig /\
     get_ticks g = Ok (tick_vals, tick_labels) /\
     min_year g = Some (Int 1990) /\ max_year g = Some (Int 2002) /\
     head tick_vals = Some 1990 /\ last tick_vals = Some 2002 /\
     forall t p, In t (data fig) -> In p (y t) -> 1990 <= fst p <= 2002) /\
  (exists g fig,
     add_series_seq (new_graph (graph_options (Some "Transportation") false false false))
       [args_of last_year] = Ok g /\
     get_figure (H := sample_externals) g = Ok fig /\
     length (data fig) = 2%nat /\
     max_year g = Some (Int INT64_MAX) /\
     exists tick_labels, get_ticks g = Ok ([], tick_labels)).
Proof.
  split.
  - destruct (add_series_seq
                (new_graph (graph_options (Some "Transportation") false false false))
                [args_of with_gap; args_of old_measurement]) as [g|e] eqn:Hg;
      [|vm_compute in Hg; discriminate Hg].
    destruct (get_figure (H := sample_externals) g) as [fig|e] eqn:Hfig;
      [|vm_compute in Hg; injection Hg as <-; vm_compute in Hfig; discriminate Hfig].
    destruct (figure_points_within_ticks (H := sample_externals)
                (graph_options (Some "Transportation") false false false)
                [args_of with_gap; args_of old_measurement] g fig Hg Hfig)
      as (lo & hi & tv & tl & Hlo & Hhi & Hticks & _ & Hpts & Hends & _).
    exists g, fig, tv, tl. split; [reflexivity|]. split; [exact Hfig|].
    split; [exact Hticks|].
    assert (Hmin : min_year g = Some (Int 1990))
      by (vm_compute in Hg; injection Hg as <-; reflexivity).
    assert (Hmax : max_year g = Some (Int 2002))
      by (vm_compute in Hg; injection Hg as <-; reflexivity).
    split; [exact Hmin|]. split; [exact Hmax|].
    rewrite Hlo in Hmin. rewrite Hhi in Hmax.
    injection Hmin as ->. injection Hmax as ->.
    destruct (Hends ltac:(vm_compute; discriminate) ltac:(reflexivity))
      as [Hhead Hlast].
    split; [exact Hhead|]. split; [exact Hlast|]. exact Hpts.
  - destruct (add_series_seq
                (new_graph (graph_options (Some "Transportation") false false false))
                [args_of last_year]) as [g|e] eqn:Hg;
      [|vm_compute in Hg; discriminate Hg].
    destruct (get_figure (H := sample_externals) g) as [fig|e] eqn:Hfig;
      [|vm_compute in Hg; injection Hg as <-; vm_compute in Hfig; discriminate Hfig].
    destruct (figure_points_within_ticks (H := sample_externals)
                (graph_options (Some "Transportation") false false false)
                [args_of last_year] g fig Hg Hfig)
      as (lo & hi & tv & tl & Hlo & Hhi & Hticks & _ & _ & _ & Hwrap).
    assert (Hmin : min_year g = Some (Int INT64_MAX))
      by (vm_compute in Hg; injection Hg as <-; reflexivity).
    assert (Hmax : max_year g = Some (Int INT64_MAX))
      by (vm_compute in Hg; injection Hg as <-; reflexivity).
    exists g, fig. split; [reflexivity|]. split; [exact Hfig|].
    split; [vm_compute in Hg; injection Hg as <-; vm_compute in Hfig;
            by injection Hfig as <-|].
    split; [exact Hmax|].
    rewrite Hlo in Hmin. rewrite Hhi in Hmax.
    injection Hmin as ->. injection Hmax as ->.
    rewrite (Hwrap ltac:(vm_compute; discriminate) eq_refl) in Hticks.
    by exists tl.
Defined.

Lemma figure_layout_witness :
  let g := graph_of stacked_graph [one_each] in
  exists fig,
    get_figure (H := sample_externals) g = Ok fig /\
    dict_get "title" (layout fig) = Some (PStr "<b>Emissions</b>") /\
    dict_get "showlegend" (layout fig) = Some (PBool false) /\
    axis_entry (layout fig) "yaxis" "range" = None.
Proof.
  intros g.
  destruct (get_figure (H := sample_externals) g) as [fig|e] eqn:Hrun;
    [|vm_compute in Hrun; discriminate Hrun].
  destruct (figure_layout (H := sample_externals) g fig Hrun)
    as (Hshow & _ & _ & Htitle & _ & _ & _ & _ & _ & Hrange).
  exists fig. split; [reflexivity|]. split; [exact Htitle|]. split; [exact Hshow|].
  apply Hrange. by left.
Defined.

Lemma ticks_strictly_increasing_witness :
  let g := graph_of stacked_graph [yearly 1990 2018 2035] in
  let g' := graph_of stacked_graph [last_year] in
  (exists tick_vals tick_labels,
     get_ticks g = Ok (tick_vals, tick_labels) /\
     StronglySorted Z.lt tick_vals /\
     length tick_labels = length tick_vals /\
     tick_vals <> []) /\
  (min_year g' = Some (Int INT64_MAX) /\ max_year g' = Some (Int INT64_MAX) /\
   exists tick_labels, get_ticks g' = Ok ([], tick_labels)) /\
  get_ticks (new_graph stacked_graph) = Raise TypeError.
Proof.
  intros g g'. split; [|split; [|reflexivity]].
  - destruct (get_ticks g) as [[tv tl]|e] eqn:Hticks;
      [|vm_compute in Hticks; discriminate Hticks].
    destruct (ticks_strictly_increasing g) as [Hok _].
    destruct (Hok tv tl Hticks) as (Hsorted & Hlen & lo & hi & Hlo & Hhi & Hempty).
    exists tv, tl. split; [reflexivity|]. split; [exact Hsorted|].
    split; [exact Hlen|].
    assert (Hmin : min_year g = Some (Int 1990)) by reflexivity.
    assert (Hmax : max_year g = Some (Int 2035)) by reflexivity.
    rewrite Hlo in Hmin. rewrite Hhi in Hmax.
    injection Hmin as ->. injection Hmax as ->.
    intros Hnil.
    destruct (proj1 (Hempty ltac:(split; vm_compute; discriminate)
                            ltac:(split; vm_compute; discriminate)) Hnil)
      as [Hlt|Heq]; [lia|discriminate Heq].
  - split; [reflexivity|]. split; [reflexivity|].
    destruct (get_ticks g') as [[tv tl]|e] eqn:Hticks;
      [|vm_compute in Hticks; discriminate Hticks].
    destruct (ticks_strictly_increasing g') as [Hok _].
    destruct (Hok tv tl Hticks) as (_ & _ & lo & hi & Hlo & Hhi & Hempty).
    assert (Hmin : min_year g' = Some (Int INT64_MAX)) by reflexivity.
    assert (Hmax : max_year g' = Some (Int INT64_MAX)) by reflexivity.
    rewrite Hlo in Hmin. rewrite Hhi in Hmax.
    injection Hmin as ->. injection Hmax as ->.
    exists tl. f_equal. f_equal.
    apply (Hempty ltac:(split; vm_compute; discriminate)
                  ltac:(split; vm_compute; discriminate)). by right.
Defined.

Lemma get_figure_succeeds_witness :
  exists g fig,
    add_series_seq (new_graph stacked_graph)
      [args_of one_each; args_of measured_and_projected] = Ok g /\
    get_figure (H := sample_externals) g = Ok fig /\
    (length (data fig) <= 4)%nat.
Proof.
  destruct (add_series_seq (new_graph stacked_graph)
              [args_of one_each; args_of measured_and_projected]) as [g|e] eqn:Hg;
    [|vm_compute in Hg; discriminate Hg].
  destruct (get_figure_succeeds (H := sample_externals) stacked_graph
              [args_of one_each; args_of measured_and_projected] g Hg)
    as (fig & Hfig & Hlen).
  - vm_compute in Hg. injection Hg as <-. eexists. split; [reflexivity|discriminate].
  - vm_compute in Hg. injection Hg as <-.
    intros s [<-|[<-|[]]];
      (split; [eexists _, _; split; reflexivity|eexists _, _; split; reflexivity]).
  - exists g, fig. split; [reflexivity|]. split; [exact Hfig|exact Hlen].
Defined.

Lemma constructed_series_witness :
  integer_years (yearly 2005 2010 2020) /\
  exists s' forecast values,
    post_init (unnamed_column (yearly 2005 2010 2020) None) = Ok s' /\
    column_name s' = Some "Emissions" /\
    get_attr "Forecast" (df s') = Ok forecast /\
    get_column "Emissions" (df s') = Ok values.
Proof.
  assert (Hint : integer_years (yearly 2005 2010 2020)).
  { intros col Hcol. vm_compute in Hcol. injection Hcol as <-.
    exists (seqZ 2005 16). reflexivity. }
  split; [exact Hint|].
  destruct (post_init (unnamed_column (yearly 2005 2010 2020) None)) as [s'|e] eqn:Hs;
    [|vm_compute in Hs; discriminate Hs].
  destruct (constructed_series_has_its_columns
              (unnamed_column (yearly 2005 2010 2020) None) s' Hint Hs)
    as [(forecast & Hfc & _) Hcol].
  destruct (Hcol eq_refl) as (c & values & Hcn & Hrem & Hval & _).
  vm_compute in Hrem. injection Hrem as <-.
  exists s', forecast, values. by repeat split.
Defined.

Lemma post_init_idempotent_witness :
  integer_years (yearly 2005 2010 2020) /\
  NoDup (column_names (yearly 2005 2010 2020)) /\
  exists s',
    post_init (unnamed_column (yearly 2005 2010 2020) None) = Ok s' /\
    post_init s' = Ok s'.
Proof.
  assert (Hint : integer_years (yearly 2005 2010 2020)).
  { intros col Hcol. vm_compute in Hcol. injection Hcol as <-.
    exists (seqZ 2005 16). reflexivity. }
  assert (Hnd : NoDup (column_names (yearly 2005 2010 2020)))
    by (apply (bool_decide_unpack _); exact I).
  split; [exact Hint|]. split; [exact Hnd|].
  destruct (post_init (unnamed_column (yearly 2005 2010 2020) None)) as [s'|e] eqn:Hs;
    [|vm_compute in Hs; discriminate Hs].
  exists s'. split; [reflexivity|].
  exact (post_init_idempotent (unnamed_column (yearly 2005 2010 2020) None) s'
           Hint Hnd Hs).
Defined.

Lemma electricity_figures_witness :
  exists fig1 fig2 fig3 tick_vals,
    snd (electricity_consumption_callback (H := sample_externals)
           (H0 := sample_page_externals) 5 ∅) = Ok [fig1; fig2; fig3] /\
    fst (electricity_consumption_callback (H := sample_externals)
           (H0 := sample_page_externals) 5 ∅)
      = {[ "electricity_consumption_per_capita_adjustment" := (5 # 10)%Q ]} /\
    length (data fig1) = 2%nat /\
    (forall t p, In t (data fig1) -> In p (y t) ->
       In p [ (2017, CFloat 8000); (2018, CFloat 7900);
              (2019, CFloat (7900 * (1 + (inject_Z 5 / 10) / 100))%Q) ]) /\
    forall fig, In fig [fig1; fig2; fig3] ->
      axis_entry (layout fig) "xaxis" "tickvals" = Some (PList (map PInt tick_vals)).
Proof.
  destruct (snd (electricity_consumption_callback (H := sample_externals)
                   (H0 := sample_page_externals) 5 ∅)) as [figs|e] eqn:Hrun;
    [|vm_compute in Hrun; discriminate Hrun].
  destruct (electricity_figures_share_ticks (H := sample_externals)
              (H0 := sample_page_externals) 5 ∅ figs Hrun)
    as (Hvars & fig1 & fig2 & fig3 & tv & tl & -> & Hplots & _ & _ & Hfigs).
  exists fig1, fig2, fig3, tv. split; [reflexivity|].
  split; [rewrite Hvars; reflexivity|].
  split; [vm_compute in Hrun; by injection Hrun as <- _ _|].
  split; [|intros fig Hfig; exact (proj1 (Hfigs fig Hfig))].
  destruct Hplots as (d' & values & [->|Hyear] & Hcol & Hpts);
    [|vm_compute in Hyear; discriminate Hyear].
  injection Hcol as <-. exact Hpts.
Defined.

Lemma sector_figure_series_witness :
  exists fig g s1 s2,
    make_sector_fig (H := sample_externals) two_columns "Transportation"
      transport_metadata = Ok fig /\
    get_figure (H := sample_externals) g = Ok fig /\
    series_list g = [s1; s2] /\
    trace_name s1 = Some "Lämmitys" /\ column_name s1 = Some "Heating" /\
    luminance_change s1 = Some ((-3 # 10) + (3 # 10) * 1)%Q /\
    trace_name s2 = Some "Tieliikenne" /\ column_name s2 = Some "Traffic" /\
    luminance_change s2 = Some ((-3 # 10) + (3 # 10) * 2)%Q.
Proof.
  destruct (make_sector_fig (H := sample_externals) two_columns "Transportation"
              transport_metadata) as [fig|e] eqn:Hrun;
    [|vm_compute in Hrun; discriminate Hrun].
  destruct (sector_figure_series_per_subsector (H := sample_externals) two_columns
              "Transportation" transport_metadata fig ltac:(discriminate) Hrun)
    as (title & g & _ & Hfig & _ & Hall).
  cbn in Hall.
  destruct (series_list g) as [|s1 [|s2 [|s3 rest]]] eqn:Hlist;
    try (exfalso; inversion Hall as [|? ? ? ? ? Hall']; subst;
         try inversion Hall' as [|? ? ? ? ? Hall'']; subst;
         try inversion Hall''; done).
  apply Forall2_cons_1 in Hall as [H1 Hall].
  apply Forall2_cons_1 in Hall as [H2 _].
  destruct H1 as (_ & Hn1 & Ht1 & Hl1 & _ & _ & Hc1).
  destruct H2 as (_ & Hn2 & Ht2 & Hl2 & _ & _ & Hc2).
  exists fig, g, s1, s2. split; [reflexivity|]. split; [exact Hfig|].
  split; [exact Hlist|].
  destruct (trace_name s1) as [n1|]; [|done].
  destruct (trace_name s2) as [n2|]; [|done].
  vm_compute in Hn1. vm_compute in Hn2.
  injection Hn1 as <-. injection Hn2 as <-.
  split; [reflexivity|]. split; [apply Hc1; discriminate|]. split; [exact Hl1|].
  split; [reflexivity|]. split; [apply Hc2; discriminate|exact Hl2].
Defined.

Lemma sector_figure_single_column_witness :
  exists fig g s,
    make_sector_fig (H := sample_externals) measured_and_projected "Transportation"
      transport_metadata = Ok fig /\
    get_figure (H := sample_externals) g = Ok fig /\
    series_list g = [s] /\
    column_name s = Some "Emissions" /\
    make_sector_fig (H := sample_externals)
      {| index := [2000]; columns := [("Heating", []); ("Traffic", [])] |}
      "Transportation" transport_metadata = Raise AssertionError.
Proof.
  destruct (make_sector_fig (H := sample_externals) measured_and_projected
              "Transportation" transport_metadata) as [fig|e] eqn:Hrun;
    [|vm_compute in Hrun; discriminate Hrun].
  destruct (sector_figure_single_column (H := sample_externals) measured_and_projected
              "Transportation" "Liikenne" transport_metadata eq_refl eq_refl)
    as (_ & _ & Hok).
  destruct (Hok fig Hrun) as (g & s & col & Hfig & _ & Hlist & Hrem & Hcn & _).
  vm_compute in Hrem. injection Hrem as <-.
  exists fig, g, s. split; [reflexivity|]. split; [exact Hfig|].
  split; [exact Hlist|]. split; [exact Hcn|].
  destruct (sector_figure_single_column (H := sample_externals)
              {| index := [2000]; columns := [("Heating", []); ("Traffic", [])] |}
              "Transportation" "Liikenne" transport_metadata eq_refl eq_refl)
    as (Hnone & _).
  exact (Hnone eq_refl).
Defined.

Lemma sector_figure_is_stacked_area_witness :
  exists fig,
    make_sector_fig (H := sample_externals) two_columns "Transportation"
      transport_metadata = Ok fig /\
    length (data fig) = 4%nat /\
    dict_get "title" (layout fig) = Some (PStr "<b>Liikenne</b>") /\
    forall t, In t (data fig) ->
      attrs t !! "mode" = Some "none" /\ hovertemplate t = "%{x}: %{y} kt".
Proof.
  destruct (make_sector_fig (H := sample_externals) two_columns "Transportation"
              transport_metadata) as [fig|e] eqn:Hrun;
    [|vm_compute in Hrun; discriminate Hrun].
  destruct (sector_figure_is_stacked_area (H := sample_externals) two_columns
              "Transportation" transport_metadata fig Hrun)
    as [(title & Hname & Htitle) Htraces].
  injection Hname as <-.
  exists fig. split; [reflexivity|].
  split; [vm_compute in Hrun; injection Hrun as <-; reflexivity|].
  split; [exact Htitle|].
  intros t Ht. destruct (Htraces t Ht) as (Hmode & _ & _ & _ & _ & Hhover).
  by split.
Defined.
